(** * io/Sources.cpp: fault source setup ([inisource]) and injection ([addsrc])

    A shallow embedding of [src/io/Sources.cpp].  [inisource] reads the
    rupture file into a catalog of source nodes, keeps the nodes that
    fall inside the calling process's index box and hands them to the
    [Sources] object; [Sources::addsrc] subtracts the rupture samples of
    the owned nodes from the six stress components.

    Conventions of the embedding:
    - C integers ([int], [int_pt]) are mathematical integers [Z]: the
      arithmetic of the source is taken without overflow.  The typedefs
      [int_pt], [PosInf] and [Grid1D] live in headers outside this
      file, so cells of a [PosInf] hold a [Z] and cells of a [Grid1D]
      hold a [float] of the platform; an [int] read by [fread] is the
      signed value of its 32 bits.
    - A C array is a [list]; a pointer that may be [NULL] is an
      [option (list _)].  Reads and writes outside an array are
      undefined in C++; here a read gives the platform's indeterminate
      value and a write is dropped.
    - Effects (allocation, file access, diagnostics) are recorded in an
      event log that the functions return next to their result. *)

From Stdlib Require Import ZArith List String Ascii Bool Lia Permutation.
From Stdlib Require Import Floats.SpecFloat.
From stdpp Require Import base tactics option list.

Open Scope Z_scope.

(** ** The platform: what the C library and the hardware decide *)

Class Platform := {
  (** the C type [float] *)
  float : Type;
  (** the float whose object representation is a given 32-bit word
      (what [fread] leaves in a [float] cell) *)
  float_of_bits : Z -> float;
  (** the [%d] and [%f] conversions of [fscanf] on one input field;
      [None] is a matching failure *)
  conv_d : string -> option Z;
  conv_f : string -> option float;
  (** the content of storage that was never written *)
  indet_int : Z;
  indet_float : float;
  (** arithmetic of [float] *)
  fsub : float -> float -> float;
  fmul : float -> float -> float;
  fdiv : float -> float -> float
}.

(** ** Arrays *)

Section Arrays.
Context {A : Type}.

(** [a[i]] *)
Definition rd (d : A) (a : list A) (i : Z) : A :=
  if i <? 0 then d else default d (a !! Z.to_nat i).

(** [a[i] = v] *)
Definition wr (a : list A) (i : Z) (v : A) : list A :=
  if i <? 0 then a else <[Z.to_nat i := v]> a.

(** the cells behind a pointer; nothing behind [NULL] *)
Definition cells (p : option (list A)) : list A := default [] p.
End Arrays.

(** The six stress channels.  The source keeps one variable per channel
    ([taxx], [tayy], [tazz], [taxz], [tayz], [taxy], and the same with
    the suffix [p]); the embedding indexes them by [channel]. *)
Inductive channel := XX | YY | ZZ | XZ | YZ | XY.

Definition channels : list channel := [XX; YY; ZZ; XZ; YZ; XY].

(** position of a channel inside one sample of the binary file:
    [tmpta[j*6]], [tmpta[j*6+1]], ... *)
Definition chan_off (c : channel) : Z :=
  match c with XX => 0 | YY => 1 | ZZ => 2 | XZ => 3 | YZ => 4 | XY => 5 end.

Definition channel_eqb (c d : channel) : bool := chan_off c =? chan_off d.

(** ** Process topology ([odc::parallel::Mpi]) and the index box *)

Record Mpi := {
  m_rank : Z;
  m_startX : Z; m_rangeX : Z;
  m_startY : Z; m_rangeY : Z;
  m_startZ : Z; m_rangeZ : Z
}.

Record Bounds := { nbx : Z; nex : Z; nby : Z; ney : Z; nbz : Z; nez : Z }.

(** lines 94-99 *)
Definition bounds_of (mpi : Mpi) : Bounds :=
  let nbx := m_startX mpi + 2 in
  let nex := nbx + m_rangeX mpi - 1 in
  let nby := m_startY mpi + 2 in
  let ney := nby + m_rangeY mpi - 1 in
  let nbz := m_startZ mpi in
  let nez := nbz + m_rangeZ mpi - 1 in
  {| nbx := nbx; nex := nex; nby := nby; ney := ney; nbz := nbz; nez := nez |}.

(** ** Files *)

(** A file is its bytes.  A stream opened on it is consumed either by
    [fread] in items of four bytes ([sizeof(int)] and [sizeof(float)])
    or by [fscanf] in input fields separated by white space.  Fewer
    than four bytes at the end of a file are no item.  An input field
    is converted as a whole: a field of which [%d] or [%f] would take
    only the front is for the platform's conversion to accept or to
    refuse, it is not split. *)

Definition byte_val (a : ascii) : Z := Z.of_N (N_of_ascii a).

(** four bytes as a native (little-endian) 32-bit word *)
Definition le32 (a b c d : ascii) : Z :=
  byte_val a + 256 * byte_val b + 65536 * byte_val c + 16777216 * byte_val d.

(** the complete four-byte items of a file *)
Fixpoint words_of (s : string) : list Z :=
  match s with
  | String a (String b (String c (String d rest))) => le32 a b c d :: words_of rest
  | _ => []
  end.

(** a 32-bit word read into an [int] *)
Definition int_of_bits (w : Z) : Z := if w <? 2147483648 then w else w - 4294967296.

Definition isspace (a : ascii) : bool :=
  let n := byte_val a in (n =? 32) || ((9 <=? n) && (n <=? 13)).

(** the input fields of a file: maximal runs of non-space characters *)
Fixpoint fields_from (cur : string) (s : string) : list string :=
  match s with
  | EmptyString => match cur with EmptyString => [] | _ => [cur] end
  | String a rest =>
      if isspace a
      then match cur with
           | EmptyString => fields_from EmptyString rest
           | _ => cur :: fields_from EmptyString rest
           end
      else fields_from (cur ++ String a EmptyString)%string rest
  end.

Definition fields_of (s : string) : list string := fields_from EmptyString s.

(** [fread(buf, 4, n, file)]: the items obtained overwrite the front of
    [buf]; the result is the number of items, the buffer and the rest of
    the stream. *)
Definition fread {A : Type} (conv : Z -> A) (buf : list A) (n : Z) (ws : list Z)
  : Z * list A * list Z :=
  let got := take (Z.to_nat n) ws in
  (Z.of_nat (length got),
   (conv <$> got) ++ drop (length got) buf,
   drop (length got) ws).

(** [fscanf] with a format of white space and one conversion per
    target: the conversions run in order, each stores its value, and the
    first input field that does not convert stops the call and stays in
    the stream. *)
Fixpoint fscanf {A S : Type} (conv : string -> option A) (stores : list (A -> S -> S))
    (flds : list string) (s : S) : S * list string :=
  match stores with
  | [] => (s, flds)
  | store :: more =>
      match flds with
      | [] => (s, flds)
      | f :: rest =>
          match conv f with
          | Some v => fscanf conv more rest (store v s)
          | None => (s, flds)
          end
      end
  end.

(** ** Effects *)

Inductive event :=
| EAlloc1P (n : Z)                 (* odc::data::Alloc1P(n) *)
| EAlloc1D (n : Z)                 (* odc::data::Alloc1D(n) *)
| EDelloc1P                        (* odc::data::Delloc1P *)
| EDelloc1D                        (* odc::data::Delloc1D *)
| EFopen (path mode : string)      (* fopen *)
| EFread (n got : Z)               (* fread of n four-byte items, got obtained *)
| EFscanf (targets : nat)          (* fscanf with that many conversions *)
| EFclose                          (* fclose *)
| EPrintf (text : string)          (* printf to stdout *)
| ECerr (text : string).           (* std::cerr << text << std::endl *)

Definition is_alloc (e : event) : bool :=
  match e with EAlloc1P _ | EAlloc1D _ => true | _ => false end.

Definition is_read (e : event) : bool :=
  match e with EFread _ _ | EFscanf _ => true | _ => false end.

(** ** [inisource] *)

Section Inisource.
Context `{Platform}.

(** [odc::data::Alloc1P] and [odc::data::Alloc1D] (data/Grid.cpp, not
    part of this file): a block of [n] cells whose content the
    platform decides. *)
Definition Alloc1P (n : Z) : list Z := replicate (Z.to_nat n) indet_int.
Definition Alloc1D (n : Z) : list float := replicate (Z.to_nat n) indet_float.

(** The global catalog: [tpsrc] and the six sample tables [taxx] ...
    [taxy], here [ta XX] ... [ta XY]. *)
Record Catalog := { tpsrc : list Z; ta : channel -> list float }.

(** The tables of the owned nodes: [tpsrcp] and [taxxp] ... [taxyp]. *)
Record Owned := { tpsrcp : list Z; tap : channel -> list float }.

(** The members of the [Sources] object that [inisource] writes
    through its nine output parameters. *)
Record Sources := {
  m_srcProc : Z;
  m_nPsrc : Z;
  m_ptpSrc : option (list Z);
  m_ptAxx : option (list float);
  m_ptAyy : option (list float);
  m_ptAzz : option (list float);
  m_ptAxz : option (list float);
  m_ptAyz : option (list float);
  m_ptAxy : option (list float)
}.

Definition m_ptA (s : Sources) (c : channel) : option (list float) :=
  match c with
  | XX => m_ptAxx s | YY => m_ptAyy s | ZZ => m_ptAzz s
  | XZ => m_ptAxz s | YZ => m_ptAyz s | XY => m_ptAxy s
  end.

(** *** Loading, binary mode (lines 156-177) *)

Record BinSt := {
  b_file : list Z;          (* what is left of the stream *)
  b_tmpsrc : list Z;        (* int tmpsrc[3] *)
  b_tmpta : list float;     (* tmpta *)
  b_cat : Catalog;
  b_log : list event
}.

(** lines 165-173 *)
Definition store_samples (READ_STEP : Z) (i : nat) (tmpta : list float)
    (t : channel -> list float) : channel -> list float :=
  fold_left
    (fun t j c =>
       wr (t c) (Z.of_nat i * READ_STEP + Z.of_nat j)
          (rd indet_float tmpta (Z.of_nat j * 6 + chan_off c)))
    (seq 0 (Z.to_nat READ_STEP)) t.

(** lines 162-164 and 182-184 *)
Definition store_node (maxdim NZ : Z) (i : nat) (tmpsrc : list Z) (tp : list Z) : list Z :=
  let tp := wr tp (Z.of_nat i * maxdim) (rd indet_int tmpsrc 0) in
  let tp := wr tp (Z.of_nat i * maxdim + 1) (rd indet_int tmpsrc 1) in
  wr tp (Z.of_nat i * maxdim + 2) (NZ + 1 - rd indet_int tmpsrc 2).

(** the body of the loop of lines 157-175 *)
Definition binary_node (maxdim READ_STEP NST NZ : Z) (st : BinSt) (i : nat) : BinSt :=
  let '(n1, tmpsrc, f1) := fread int_of_bits (b_tmpsrc st) 3 (b_file st) in
  if n1 =? 0 then
    {| b_file := f1; b_tmpsrc := tmpsrc; b_tmpta := b_tmpta st; b_cat := b_cat st;
       b_log := b_log st ++ [EFread 3 n1] |}
  else
    let '(n2, tmpta, f2) := fread float_of_bits (b_tmpta st) (NST * 6) f1 in
    if n2 =? 0 then
      {| b_file := f2; b_tmpsrc := tmpsrc; b_tmpta := tmpta; b_cat := b_cat st;
         b_log := b_log st ++ [EFread 3 n1; EFread (NST * 6) n2] |}
    else
      {| b_file := f2; b_tmpsrc := tmpsrc; b_tmpta := tmpta;
         b_cat := {| tpsrc := store_node maxdim NZ i tmpsrc (tpsrc (b_cat st));
                     ta := store_samples READ_STEP i tmpta (ta (b_cat st)) |};
         b_log := b_log st ++ [EFread 3 n1; EFread (NST * 6) n2] |}.

Definition load_binary (NSRC maxdim READ_STEP NST NZ : Z) (st : BinSt) : BinSt :=
  fold_left (binary_node maxdim READ_STEP NST NZ) (seq 0 (Z.to_nat NSRC)) st.

(** *** Loading, text mode (lines 178-193) *)

Record TxtSt := {
  t_file : list string;     (* the input fields left in the stream *)
  t_tmpsrc : list Z;        (* int tmpsrc[3] *)
  t_cat : Catalog;
  t_log : list event
}.

Definition set_chan (t : channel -> list float) (c : channel) (l : list float)
  : channel -> list float :=
  fun c' => if channel_eqb c' c then l else t c'.

(** lines 187-190: the six targets [&taxx[i*READ_STEP+j]] ... [&taxy[i*READ_STEP+j]] *)
Definition sample_targets (READ_STEP : Z) (i j : nat)
  : list (float -> (channel -> list float) -> channel -> list float) :=
  map (fun c v t => set_chan t c (wr (t c) (Z.of_nat i * READ_STEP + Z.of_nat j) v))
      channels.

(** line 181: the three targets [&tmpsrc[0]], [&tmpsrc[1]], [&tmpsrc[2]] *)
Definition tmpsrc_targets : list (Z -> list Z -> list Z) :=
  [fun v t => wr t 0 v; fun v t => wr t 1 v; fun v t => wr t 2 v].

(** lines 186-192 *)
Definition scan_samples (READ_STEP : Z) (i : nat) (st : (channel -> list float) * list string)
  : (channel -> list float) * list string :=
  fold_left (fun st j => fscanf conv_f (sample_targets READ_STEP i j) (snd st) (fst st))
            (seq 0 (Z.to_nat READ_STEP)) st.

(** the body of the loop of lines 179-193 *)
Definition text_node (maxdim READ_STEP NZ : Z) (st : TxtSt) (i : nat) : TxtSt :=
  let '(tmpsrc, f1) := fscanf conv_d tmpsrc_targets (t_file st) (t_tmpsrc st) in
  let tp := store_node maxdim NZ i tmpsrc (tpsrc (t_cat st)) in
  let '(t, f2) := scan_samples READ_STEP i (ta (t_cat st), f1) in
  {| t_file := f2; t_tmpsrc := tmpsrc;
     t_cat := {| tpsrc := tp; ta := t |};
     t_log := t_log st ++ EFscanf 3 :: replicate (Z.to_nat READ_STEP) (EFscanf 6) |}.

Definition load_text (NSRC maxdim READ_STEP NZ : Z) (st : TxtSt) : TxtSt :=
  fold_left (text_node maxdim READ_STEP NZ) (seq 0 (Z.to_nat NSRC)) st.

(** *** Ownership (lines 207-249) *)

(** the test of lines 210-211 and 231-232 *)
Definition owned (b : Bounds) (maxdim : Z) (tp : list Z) (i : nat) : bool :=
  (rd indet_int tp (Z.of_nat i * maxdim) >=? nbx b)
  && (rd indet_int tp (Z.of_nat i * maxdim) <=? nex b)
  && (rd indet_int tp (Z.of_nat i * maxdim + 1) >=? nby b)
  && (rd indet_int tp (Z.of_nat i * maxdim + 1) <=? ney b)
  && (rd indet_int tp (Z.of_nat i * maxdim + 2) >=? nbz b)
  && (rd indet_int tp (Z.of_nat i * maxdim + 2) <=? nez b).

(** lines 207-216: the state is [(srcproc, npsrc)] *)
Definition pass1_node (b : Bounds) (rank maxdim : Z) (tp : list Z) (st : Z * Z) (i : nat)
  : Z * Z :=
  if owned b maxdim tp i then (rank, snd st + 1) else st.

Definition pass1 (b : Bounds) (rank NSRC maxdim : Z) (tp : list Z) : Z * Z :=
  fold_left (pass1_node b rank maxdim tp) (seq 0 (Z.to_nat NSRC)) (-1, 0).

(** lines 237-245 *)
Definition copy_samples (READ_STEP : Z) (i : nat) (k : Z) (t tp : channel -> list float)
  : channel -> list float :=
  fold_left
    (fun tp j c =>
       wr (tp c) (k * READ_STEP + Z.of_nat j)
          (rd indet_float (t c) (Z.of_nat i * READ_STEP + Z.of_nat j)))
    (seq 0 (Z.to_nat READ_STEP)) tp.

(** lines 234-236 *)
Definition copy_node (b : Bounds) (maxdim : Z) (i : nat) (k : Z) (t tp : list Z) : list Z :=
  let tp := wr tp (k * maxdim) (rd indet_int t (Z.of_nat i * maxdim) - nbx b + 1) in
  let tp := wr tp (k * maxdim + 1) (rd indet_int t (Z.of_nat i * maxdim + 1) - nby b + 1) in
  wr tp (k * maxdim + 2) (rd indet_int t (Z.of_nat i * maxdim + 2) - nbz b + 1).

(** the body of the loop of lines 229-248: the state is [k] and the
    tables being filled *)
Definition pass2_node (b : Bounds) (maxdim READ_STEP : Z) (cat : Catalog)
    (st : Z * Owned) (i : nat) : Z * Owned :=
  if owned b maxdim (tpsrc cat) i then
    (fst st + 1,
     {| tpsrcp := copy_node b maxdim i (fst st) (tpsrc cat) (tpsrcp (snd st));
        tap := copy_samples READ_STEP i (fst st) (ta cat) (tap (snd st)) |})
  else st.

Definition pass2 (b : Bounds) (NSRC maxdim READ_STEP npsrc : Z) (cat : Catalog) : Z * Owned :=
  fold_left (pass2_node b maxdim READ_STEP cat) (seq 0 (Z.to_nat NSRC))
    (0, {| tpsrcp := Alloc1P (npsrc * maxdim);
           tap := fun _ => Alloc1D (npsrc * READ_STEP) |}).

(** lines 207-266: count, copy, release the catalog and write the
    nine outputs *)
Definition resolve (b : Bounds) (rank NSRC maxdim READ_STEP : Z) (cat : Catalog)
  : Sources * list event :=
  let '(srcproc, npsrc) := pass1 b rank NSRC maxdim (tpsrc cat) in
  let frees := replicate 6 EDelloc1D ++ [EDelloc1P] in
  if npsrc >? 0 then
    let o := snd (pass2 b NSRC maxdim READ_STEP npsrc cat) in
    ({| m_srcProc := srcproc; m_nPsrc := npsrc;
        m_ptpSrc := Some (tpsrcp o);
        m_ptAxx := Some (tap o XX); m_ptAyy := Some (tap o YY);
        m_ptAzz := Some (tap o ZZ); m_ptAxz := Some (tap o XZ);
        m_ptAyz := Some (tap o YZ); m_ptAxy := Some (tap o XY) |},
     EAlloc1P (npsrc * maxdim) :: replicate 6 (EAlloc1D (npsrc * READ_STEP)) ++ frees)
  else
    ({| m_srcProc := srcproc; m_nPsrc := npsrc;
        m_ptpSrc := None;
        m_ptAxx := None; m_ptAyy := None; m_ptAzz := None;
        m_ptAxz := None; m_ptAyz := None; m_ptAxy := None |},
     frees).

(** *** The whole function *)

Inductive outcome :=
| Returned (ret : Z) (out : Sources) (log : list event)
| Undefined (log : list event).   (* [file] is read before it was ever set *)

Definition newline : string := String (ascii_of_nat 10) EmptyString.

Definition cant_open (INSRC : string) : string :=
  ("can't open file " ++ INSRC ++ newline)%string.

Definition not_implemented : string :=
  "Error: IFAULT == 2 is not implemented in CPU version.  Please use IFAULT=1 instead"%string.

(** lines 128-136 *)
Definition fresh_catalog (NSRC maxdim READ_STEP : Z) : Catalog :=
  {| tpsrc := Alloc1P (NSRC * maxdim); ta := fun _ => Alloc1D (NSRC * READ_STEP) |}.

Definition catalog_allocs (NSRC maxdim READ_STEP : Z) : list event :=
  EAlloc1P (NSRC * maxdim) :: replicate 6 (EAlloc1D (NSRC * READ_STEP)).

Definition fresh_tmpsrc : list Z := [indet_int; indet_int; indet_int].

(** the catalog and the log after lines 128-194, binary mode *)
Definition read_binary (NSRC maxdim READ_STEP NST NZ : Z) (INSRC content : string) : BinSt :=
  load_binary NSRC maxdim READ_STEP NST NZ
    {| b_file := words_of content; b_tmpsrc := fresh_tmpsrc;
       b_tmpta := Alloc1D (NST * 6);
       b_cat := fresh_catalog NSRC maxdim READ_STEP;
       b_log := catalog_allocs NSRC maxdim READ_STEP
                  ++ [EFopen INSRC "rb"; EAlloc1D (NST * 6)] |}.

(** the catalog and the log after lines 128-194, text mode *)
Definition read_text (NSRC maxdim READ_STEP NZ : Z) (INSRC content : string) : TxtSt :=
  load_text NSRC maxdim READ_STEP NZ
    {| t_file := fields_of content; t_tmpsrc := fresh_tmpsrc;
       t_cat := fresh_catalog NSRC maxdim READ_STEP;
       t_log := catalog_allocs NSRC maxdim READ_STEP ++ [EFopen INSRC "r"] |}.

(** [inisource]: [mpi] is the static state of [odc::parallel::Mpi],
    [fs] gives the bytes of the files that can be opened, [out] is
    what the nine output parameters point to before the call. *)
Definition inisource (mpi : Mpi) (fs : string -> option string)
    (IFAULT NSRC READ_STEP NST maxdim NZ : Z) (INSRC INSRC_I2 : string)
    (out : Sources) : outcome :=
  let rank := m_rank mpi in
  let b := bounds_of mpi in
  if NSRC <? 1 then Returned 0 out []
  else if IFAULT <=? 1 then
    let allocs := catalog_allocs NSRC maxdim READ_STEP in
    if IFAULT =? 1 then
      match fs INSRC with
      | None =>
          Returned 0 out
            (allocs ++ [EFopen INSRC "rb"; EAlloc1D (NST * 6); EPrintf (cant_open INSRC)])
      | Some content =>
          let st := read_binary NSRC maxdim READ_STEP NST NZ INSRC content in
          let '(out', log) := resolve b rank NSRC maxdim READ_STEP (b_cat st) in
          Returned 0 out' (b_log st ++ [EDelloc1D; EFclose] ++ log)
      end
    else if IFAULT =? 0 then
      match fs INSRC with
      | None =>
          Returned 0 out (allocs ++ [EFopen INSRC "r"; EPrintf (cant_open INSRC)])
      | Some content =>
          let st := read_text NSRC maxdim READ_STEP NZ INSRC content in
          let '(out', log) := resolve b rank NSRC maxdim READ_STEP (t_cat st) in
          Returned 0 out' (t_log st ++ [EFclose] ++ log)
      end
    else Undefined allocs
  else if IFAULT =? 2 then Returned 1 out [ECerr not_implemented]
  else Returned 0 out [].

(** the constructor [Sources::Sources] (lines 26-40): the members are
    not initialised before the call, [out] is what they hold *)
Definition Sources_new (mpi : Mpi) (fs : string -> option string)
    (i_iFault i_nSrc i_readStep i_nSt i_nZ : Z) (i_inSrc i_inSrcI2 : string)
    (out : Sources) : outcome :=
  inisource mpi fs i_iFault i_nSrc i_readStep i_nSt 3 i_nZ i_inSrc i_inSrcI2 out.

End Inisource.

(** ** [Sources::addsrc] *)

(** The patch decomposition ([PatchDecomp], data/PatchDecomp.hpp): the
    coordinate lookups and, for each channel, the stress array
    [m_patches[p].soa.m_stressXX[x][y][z]] ... as a function of the
    patch and the three local indices. *)
Record PatchDecomp `{Platform} := {
  globalToPatch : Z -> Z -> Z -> Z;
  globalToLocalX : Z -> Z -> Z -> Z;
  globalToLocalY : Z -> Z -> Z -> Z;
  globalToLocalZ : Z -> Z -> Z -> Z;
  m_stress : channel -> Z -> Z -> Z -> Z -> float
}.

Section Addsrc.
Context `{Platform}.

Definition same_cell (p x y z p' x' y' z' : Z) : bool :=
  (p' =? p) && (x' =? x) && (y' =? y) && (z' =? z).

(** [a[p][x][y][z] -= d] *)
Definition sub_at (a : Z -> Z -> Z -> Z -> float) (p x y z : Z) (d : float)
  : Z -> Z -> Z -> Z -> float :=
  fun p' x' y' z' =>
    if same_cell p x y z p' x' y' z' then fsub (a p x y z) d else a p' x' y' z'.

(** line 310 *)
Definition vtst (DH DT : float) : float := fdiv DT (fmul (fmul DH DH) DH).

(** the sample [m_ptAxx[j*READ_STEP+i]] ... of node [j] *)
Definition sample (s : Sources) (READ_STEP : Z) (c : channel) (j : nat) (i : Z) : float :=
  rd indet_float (cells (m_ptA s c)) (Z.of_nat j * READ_STEP + i).

(** lines 314-321: patch and local indices of node [j] *)
Definition locate (s : Sources) (dim : Z) (pd : PatchDecomp) (j : nat) : Z * Z * Z * Z :=
  let idx := rd indet_int (cells (m_ptpSrc s)) (Z.of_nat j * dim) - 1 in
  let idy := rd indet_int (cells (m_ptpSrc s)) (Z.of_nat j * dim + 1) - 1 in
  let idz := rd indet_int (cells (m_ptpSrc s)) (Z.of_nat j * dim + 2) - 1 in
  (globalToPatch pd idx idy idz,
   globalToLocalX pd idx idy idz,
   globalToLocalY pd idx idy idz,
   globalToLocalZ pd idx idy idz).

(** the body of the loop of lines 312-346 (the branch without YASK) *)
Definition addsrc_node (s : Sources) (i : Z) (v : float) (READ_STEP dim : Z)
    (pd : PatchDecomp) (j : nat) : PatchDecomp :=
  let '(patch_id, x, y, z) := locate s dim pd j in
  {| globalToPatch := globalToPatch pd;
     globalToLocalX := globalToLocalX pd;
     globalToLocalY := globalToLocalY pd;
     globalToLocalZ := globalToLocalZ pd;
     m_stress := fun c =>
       sub_at (m_stress pd c) patch_id x y z (fmul v (sample s READ_STEP c j i)) |}.

(** the loop of lines 312-346 run for the first [n] owned nodes *)
Definition addsrc_upto (n : nat) (s : Sources) (i : Z) (DH DT : float)
    (READ_STEP dim : Z) (pd : PatchDecomp) : PatchDecomp :=
  fold_left (addsrc_node s i (vtst DH DT) READ_STEP dim) (seq 0 n) pd.

Definition addsrc (s : Sources) (i : Z) (DH DT : float) (NST READ_STEP dim : Z)
    (pd : PatchDecomp) : PatchDecomp :=
  addsrc_upto (Z.to_nat (m_nPsrc s)) s i DH DT READ_STEP dim pd.

End Addsrc.

(** ** A concrete platform: IEEE binary32 and a small scanner *)

Module Binary32.

Definition prec : Z := 24.
Definition emax : Z := 128.

(** the binary32 value with a given bit pattern *)
Definition of_bits (w : Z) : spec_float :=
  let sign := Z.testbit w 31 in
  let e := Z.land (Z.shiftr w 23) 255 in
  let m := Z.land w 8388607 in
  if e =? 0 then
    match m with
    | Zpos p => S754_finite sign p (-149)
    | _ => S754_zero sign
    end
  else if e =? 255 then
    (if m =? 0 then S754_infinity sign else S754_nan)
  else
    match m + 8388608 with
    | Zpos p => S754_finite sign p (e - 150)
    | _ => S754_nan
    end.

Definition of_Z (n : Z) : spec_float := binary_normalize prec emax n 0 false.

Definition digit (a : ascii) : option Z :=
  let n := byte_val a in
  if (48 <=? n) && (n <=? 57) then Some (n - 48) else None.

(** a non-empty run of decimal digits *)
Fixpoint digits (acc : Z) (s : string) : option Z :=
  match s with
  | EmptyString => Some acc
  | String a rest =>
      match digit a with
      | Some d => digits (10 * acc + d) rest
      | None => None
      end
  end.

Definition unsigned_dec (s : string) : option Z :=
  match s with
  | EmptyString => None
  | _ => digits 0 s
  end.

(** [%d] on a field that is an optional sign and digits, in the range
    of [int] *)
Definition scan_d (s : string) : option Z :=
  let r := match s with
           | String "-"%char rest => Z.opp <$> unsigned_dec rest
           | String "+"%char rest => unsigned_dec rest
           | _ => unsigned_dec s
           end in
  match r with
  | Some n => if (-2147483648 <=? n) && (n <=? 2147483647) then Some n else None
  | None => None
  end.

(** [%f] on a field that is an integer with at most seven digits
    (exactly representable) *)
Definition scan_f (s : string) : option spec_float :=
  match scan_d s with
  | Some n => if (-9999999 <=? n) && (n <=? 9999999) then Some (of_Z n) else None
  | None => None
  end.

#[export] Instance platform : Platform := {|
  float := spec_float;
  float_of_bits := of_bits;
  conv_d := scan_d;
  conv_f := scan_f;
  indet_int := 0;
  indet_float := S754_zero false;
  fsub := SFsub prec emax;
  fmul := SFmul prec emax;
  fdiv := SFdiv prec emax
|}.

End Binary32.

(** ** Vocabulary of the statements *)

Section Vocabulary.
Context `{Platform}.

(** global coordinates of catalog node [i] ([maxdim] = 3) *)
Definition gx (tp : list Z) (i : nat) : Z := rd indet_int tp (Z.of_nat i * 3).
Definition gy (tp : list Z) (i : nat) : Z := rd indet_int tp (Z.of_nat i * 3 + 1).
Definition gz (tp : list Z) (i : nat) : Z := rd indet_int tp (Z.of_nat i * 3 + 2).

(** the six inclusive comparisons *)
Definition in_box (b : Bounds) (x y z : Z) : Prop :=
  (nbx b <= x /\ x <= nex b) /\ (nby b <= y /\ y <= ney b) /\ (nbz b <= z /\ z <= nez b).

#[global] Instance in_box_dec (b : Bounds) (x y z : Z) : Decision (in_box b x y z).
Proof. unfold in_box. apply _. Defined.

(** the catalog nodes inside the box, in catalog order *)
Definition owned_nodes (b : Bounds) (NSRC : Z) (tp : list Z) : list nat :=
  filter (fun i => in_box b (gx tp i) (gy tp i) (gz tp i)) (seq 0 (Z.to_nat NSRC)).

(** the local coordinates of catalog node [i]: [g - b + 1] on each axis *)
Definition remap (b : Bounds) (tp : list Z) (i : nat) : list Z :=
  [gx tp i - nbx b + 1; gy tp i - nby b + 1; gz tp i - nbz b + 1].

(** the [READ_STEP] samples of node [i] in a sample table *)
Definition row (READ_STEP : Z) (t : list float) (i : nat) : list float :=
  map (fun j => rd indet_float t (Z.of_nat i * READ_STEP + Z.of_nat j))
      (seq 0 (Z.to_nat READ_STEP)).

(** the catalog that [inisource] holds after loading (lines 128-194) *)
Definition loaded_catalog (IFAULT NSRC READ_STEP NST maxdim NZ : Z)
    (INSRC content : string) : Catalog :=
  if IFAULT =? 1 then b_cat (read_binary NSRC maxdim READ_STEP NST NZ INSRC content)
  else t_cat (read_text NSRC maxdim READ_STEP NZ INSRC content).

(** the log of the loading phase, up to and including [fclose] *)
Definition loaded_log (IFAULT NSRC READ_STEP NST maxdim NZ : Z)
    (INSRC content : string) : list event :=
  if IFAULT =? 1
  then b_log (read_binary NSRC maxdim READ_STEP NST NZ INSRC content) ++ [EDelloc1D; EFclose]
  else t_log (read_text NSRC maxdim READ_STEP NZ INSRC content) ++ [EFclose].

(** the value returned and the number of owned nodes written, if the
    call returns *)
Definition returned (o : outcome) : option (Z * Z) :=
  match o with
  | Returned r out _ => Some (r, m_nPsrc out)
  | Undefined _ => None
  end.

(** the allocations of the loading phase: the catalog and, in binary
    mode, the block [tmpta] *)
Definition loading_allocs (IFAULT NSRC READ_STEP NST maxdim : Z) : list event :=
  catalog_allocs NSRC maxdim READ_STEP
    ++ (if IFAULT =? 1 then [EAlloc1D (NST * 6)] else []).

(** *** The records of a file *)

(** one record of the binary file, in four-byte items: the triplet and
    [NST*6] floats *)
Definition bin_record (NST : Z) : nat := 3 + 6 * Z.to_nat NST.

(** coordinate [c] of record [i] of the binary file, as an [int] *)
Definition bin_coord (ws : list Z) (NST : Z) (i c : nat) : Z :=
  int_of_bits (default 0 (ws !! (i * bin_record NST + c)%nat)).

(** the floats of record [i] of the binary file: [tmpta] after the
    reads for node [i] *)
Definition bin_block (ws : list Z) (NST : Z) (i : nat) : list float :=
  map (fun m => float_of_bits (default 0 (ws !! (i * bin_record NST + 3 + m)%nat)))
      (seq 0 (6 * Z.to_nat NST)).

(** the binary file holds [NSRC] records with at least one sample *)
Definition bin_complete (ws : list Z) (NSRC NST : Z) : bool :=
  (1 <=? NST) && Nat.leb (Z.to_nat NSRC * bin_record NST) (length ws).

(** one record of the text file, in input fields: the triplet and
    [READ_STEP] lines of six floats *)
Definition txt_record (READ_STEP : Z) : nat := 3 + 6 * Z.to_nat READ_STEP.

(** what a conversion makes of input field [p] *)
Definition field_of {A : Type} (conv : string -> option A) (flds : list string) (p : nat)
  : option A :=
  match flds !! p with Some f => conv f | None => None end.

Definition field_d : list string -> nat -> option Z := field_of conv_d.

Definition field_f : list string -> nat -> option float := field_of conv_f.

Definition is_some {A : Type} (o : option A) : bool :=
  match o with Some _ => true | None => false end.

(** coordinate [c] of record [i] of the text file *)
Definition txt_coord (flds : list string) (READ_STEP : Z) (i c : nat) : Z :=
  default indet_int (field_d flds (i * txt_record READ_STEP + c)).

(** every field of record [i] of the text file converts *)
Definition record_ok (flds : list string) (READ_STEP : Z) (i : nat) : Prop :=
  (forall c, (c < 3)%nat -> is_some (field_d flds (i * txt_record READ_STEP + c)) = true)
  /\ (forall m, (m < 6 * Z.to_nat READ_STEP)%nat ->
                is_some (field_f flds (i * txt_record READ_STEP + 3 + m)) = true).

(** the text file holds [NSRC] records whose fields all convert *)
Definition txt_complete (flds : list string) (NSRC READ_STEP : Z) : bool :=
  forallb
    (fun i =>
       forallb (fun c => is_some (field_d flds (i * txt_record READ_STEP + c))) (seq 0 3)
       && forallb (fun m => is_some (field_f flds (i * txt_record READ_STEP + 3 + m)))
                  (seq 0 (6 * Z.to_nat READ_STEP)))
    (seq 0 (Z.to_nat NSRC)).

(** the raw coordinate [c] of record [i] of the source file, in the
    mode [IFAULT] *)
Definition raw_coord (IFAULT READ_STEP NST : Z) (content : string) (i c : nat) : Z :=
  if IFAULT =? 1 then bin_coord (words_of content) NST i c
  else txt_coord (fields_of content) READ_STEP i c.

(** the source file holds all its records *)
Definition complete (IFAULT NSRC READ_STEP NST : Z) (content : string) : bool :=
  if IFAULT =? 1 then bin_complete (words_of content) NSRC NST
  else txt_complete (fields_of content) NSRC READ_STEP.

(** *** Records and sub-domains *)

(** the record of catalog node [i]: its global coordinates and its row
    in each of the six sample tables *)
Definition catalog_record (READ_STEP : Z) (cat : Catalog) (i : nat)
  : Z * Z * Z * list (list float) :=
  (gx (tpsrc cat) i, gy (tpsrc cat) i, gz (tpsrc cat) i,
   map (fun c => row READ_STEP (ta cat c) i) channels).

(** the records of the owned tables of a process, with the local
    coordinates taken back to global ones ([g = l + b - 1]) *)
Definition owned_records (b : Bounds) (READ_STEP : Z) (s : Sources)
  : list (Z * Z * Z * list (list float)) :=
  map (fun k =>
         (rd indet_int (cells (m_ptpSrc s)) (Z.of_nat k * 3) + nbx b - 1,
          rd indet_int (cells (m_ptpSrc s)) (Z.of_nat k * 3 + 1) + nby b - 1,
          rd indet_int (cells (m_ptpSrc s)) (Z.of_nat k * 3 + 2) + nbz b - 1,
          map (fun c => row READ_STEP (cells (m_ptA s c)) k) channels))
      (seq 0 (Z.to_nat (m_nPsrc s))).

(** the point lies in the box of one of the processes *)
Definition in_some_box (procs : list Mpi) (x y z : Z) : Prop :=
  Exists (fun p => in_box (bounds_of p) x y z) procs.

#[global] Instance in_some_box_dec (procs : list Mpi) (x y z : Z) :
  Decision (in_some_box procs x y z).
Proof. unfold in_some_box. apply _. Defined.

(** no point lies in the boxes of two processes *)
Definition disjoint_boxes (procs : list Mpi) : Prop :=
  ForallOrdPairs
    (fun p q => forall x y z, in_box (bounds_of p) x y z -> ~ in_box (bounds_of q) x y z)
    procs.

(** the record lies in the box of one of the processes *)
Definition record_in_some_box (procs : list Mpi) (r : Z * Z * Z * list (list float)) : Prop :=
  in_some_box procs (fst (fst (fst r))) (snd (fst (fst r))) (snd (fst r)).

#[global] Instance record_in_some_box_dec (procs : list Mpi) r :
  Decision (record_in_some_box procs r).
Proof. unfold record_in_some_box. apply _. Defined.

(** the stress component [c] at a patch and local indices *)
Definition stress_at (pd : PatchDecomp) (c : channel) (l : Z * Z * Z * Z) : float :=
  let '(p, x, y, z) := l in m_stress pd c p x y z.

(** *** Further vocabulary: the log, the topology, short files *)

Definition is_free (e : event) : bool :=
  match e with EDelloc1P | EDelloc1D => true | _ => false end.

Definition is_open_close (e : event) : bool :=
  match e with EFopen _ _ | EFclose => true | _ => false end.

Definition is_diagnostic (e : event) : bool :=
  match e with EPrintf _ | ECerr _ => true | _ => false end.

(** the mode string that [inisource] passes to [fopen] *)
Definition open_mode (IFAULT : Z) : string :=
  if IFAULT =? 1 then "rb"%string else "r"%string.

(** two processes whose index ranges [start, start + range) do not
    overlap on one of the three axes *)
Definition apart (p q : Mpi) : Prop :=
  (m_startX p + m_rangeX p <= m_startX q \/ m_startX q + m_rangeX q <= m_startX p)
  \/ (m_startY p + m_rangeY p <= m_startY q \/ m_startY q + m_rangeY q <= m_startY p)
  \/ (m_startZ p + m_rangeZ p <= m_startZ q \/ m_startZ q + m_rangeZ q <= m_startZ p).

(** what [%f] makes of input field [p], or the indeterminate value *)
Definition fval (flds : list string) (p : nat) : float := default indet_float (field_f flds p).

(** channel [c] of sample line [j] of record [i] of the text file *)
Definition txt_sample (flds : list string) (READ_STEP : Z) (c : channel) (i j : nat) : float :=
  fval flds (i * txt_record READ_STEP + 3 + (j * 6 + Z.to_nat (chan_off c))).

(** the first [m] records of the text file are whole *)
Definition txt_records_ok (flds : list string) (READ_STEP : Z) (m : nat) : Prop :=
  forall i, (i < m)%nat -> record_ok flds READ_STEP i.

(** the owned nodes that [addsrc] finds at a cell, in table order *)
Definition nodes_at (s : Sources) (dim : Z) (pd : PatchDecomp) (l : Z * Z * Z * Z)
  : list nat :=
  filter (fun j => locate s dim pd j = l) (seq 0 (Z.to_nat (m_nPsrc s))).

End Vocabulary.

(** ** Concrete inputs *)

Module Scenario.
Import Binary32.

Definition nl : string := String (ascii_of_nat 10) EmptyString.

(** four bytes of a word, least significant first *)
Definition bytes_of (w : Z) : string :=
  let byte k := ascii_of_N (Z.to_N (Z.land (Z.shiftr w k) 255)) in
  String (byte 0) (String (byte 8) (String (byte 16) (String (byte 24) EmptyString))).

Definition file_of_words (ws : list Z) : string :=
  fold_right (fun w s => (bytes_of w ++ s)%string) EmptyString ws.

(** bit patterns of 1.0f ... 6.0f and 0.5f *)
Definition f1 : Z := 1065353216.
Definition f2 : Z := 1073741824.
Definition f3 : Z := 1077936128.
Definition f4 : Z := 1082130432.
Definition f5 : Z := 1084227584.
Definition f6 : Z := 1086324736.
Definition fhalf : Z := 1056964608.

(** a process whose box is x in [2,11], y in [2,11], z in [1,5],
    and its right-hand neighbour, x in [12,21] *)
Definition mpi0 : Mpi :=
  {| m_rank := 7; m_startX := 0; m_rangeX := 10; m_startY := 0; m_rangeY := 10;
     m_startZ := 1; m_rangeZ := 5 |}.
Definition mpi1 : Mpi :=
  {| m_rank := 8; m_startX := 10; m_rangeX := 10; m_startY := 0; m_rangeY := 10;
     m_startZ := 1; m_rangeZ := 5 |}.

(** the members of a [Sources] object before its constructor ran *)
Definition out0 : Sources :=
  {| m_srcProc := 99; m_nPsrc := 98; m_ptpSrc := None;
     m_ptAxx := None; m_ptAyy := None; m_ptAzz := None;
     m_ptAxz := None; m_ptAyz := None; m_ptAxy := None |}.

(** text mode: one node at (3,4,1) with two samples *)
Definition txt1 : string :=
  ("3 4 1" ++ nl ++ "1 2 3 4 5 6" ++ nl ++ "6 5 4 3 2 1" ++ nl)%string.

(** text mode: three nodes, the second outside every box, the third
    in the neighbour's box; one sample each *)
Definition txt3 : string :=
  ("3 4 1" ++ nl ++ "1 2 3 4 5 6" ++ nl ++
   "40 4 2" ++ nl ++ "2 2 2 2 2 2" ++ nl ++
   "12 5 5" ++ nl ++ "6 5 4 3 2 1" ++ nl)%string.

(** binary mode: two nodes at (3,4,1) and (5,6,2), NST = 2 *)
Definition bin2 : string :=
  file_of_words [3; 4; 1;  f1; f2; f3; f4; f5; f6;  f6; f5; f4; f3; f2; f1;
                 5; 6; 2;  f2; f2; f2; f2; f2; f2;  f3; f3; f3; f3; f3; f3].

Definition fs0 (path : string) : option string :=
  if String.eqb path "src.txt" then Some txt1
  else if String.eqb path "src3.txt" then Some txt3
  else if String.eqb path "src.bin" then Some bin2
  else None.

(** an owned table of two nodes that sit on the same grid point, and
    one of two nodes on different points; two samples per node *)
Definition src_same : Sources :=
  {| m_srcProc := 7; m_nPsrc := 2; m_ptpSrc := Some [2; 3; 5; 2; 3; 5];
     m_ptAxx := Some (of_Z <$> [1; 6; 2; 5]); m_ptAyy := Some (of_Z <$> [2; 5; 2; 5]);
     m_ptAzz := Some (of_Z <$> [3; 4; 2; 5]); m_ptAxz := Some (of_Z <$> [4; 3; 2; 5]);
     m_ptAyz := Some (of_Z <$> [5; 2; 2; 5]); m_ptAxy := Some (of_Z <$> [6; 1; 2; 5]) |}.
Definition src_two : Sources :=
  {| m_srcProc := 7; m_nPsrc := 2; m_ptpSrc := Some [2; 3; 5; 4; 5; 4];
     m_ptAxx := Some (of_Z <$> [1; 6; 2; 5]); m_ptAyy := Some (of_Z <$> [2; 5; 2; 5]);
     m_ptAzz := Some (of_Z <$> [3; 4; 2; 5]); m_ptAxz := Some (of_Z <$> [4; 3; 2; 5]);
     m_ptAyz := Some (of_Z <$> [5; 2; 2; 5]); m_ptAxy := Some (of_Z <$> [6; 1; 2; 5]) |}.

(** one patch, local indices equal to the global ones, every stress
    component 10.0 *)
Definition pd0 : PatchDecomp :=
  {| globalToPatch := fun _ _ _ => 0;
     globalToLocalX := fun x _ _ => x;
     globalToLocalY := fun _ y _ => y;
     globalToLocalZ := fun _ _ z => z;
     m_stress := fun _ _ _ _ _ => of_Z 10 |}.

(** the two processes set up from the three-node text file *)
Definition run3 (mpi : Mpi) : outcome :=
  inisource mpi fs0 0 3 1 1 3 5 "src3.txt" "" out0.

Definition out_of (o : outcome) : Sources :=
  match o with Returned _ s _ => s | Undefined _ => out0 end.

Definition log_of (o : outcome) : list event :=
  match o with Returned _ _ l => l | Undefined l => l end.

Definition out3_0 : Sources := Eval vm_compute in out_of (run3 mpi0).
Definition log3_0 : list event := Eval vm_compute in log_of (run3 mpi0).
Definition out3_1 : Sources := Eval vm_compute in out_of (run3 mpi1).
Definition log3_1 : list event := Eval vm_compute in log_of (run3 mpi1).

(** 1.0f, 0.5f and a stress value 10.0 *)
Definition one : @float platform := of_Z 1.
Definition half : @float platform := of_bits fhalf.
Definition ten : @float platform := of_Z 10.

(** the owned tables that the one-node text file gives, and the field
    after the injector ran at window positions 0 and 1 *)
Definition src1 : Sources :=
  Eval vm_compute in out_of (inisource mpi0 fs0 0 1 2 2 3 5 "src.txt" "" out0).
Definition pd1 : PatchDecomp := addsrc src1 0 one half 2 2 3 pd0.
Definition pd2 : PatchDecomp := addsrc src1 1 one half 2 2 3 pd1.

(** a process with an empty range on x *)
Definition mpi_empty : Mpi :=
  {| m_rank := 9; m_startX := 20; m_rangeX := 0; m_startY := 0; m_rangeY := 10;
     m_startZ := 1; m_rangeZ := 5 |}.

End Scenario.

(** * Properties *)

(** Closes [a = b] by evaluating [a]; the platform that the types
    mention is left alone. *)
Ltac by_evaluation :=
  match goal with
  | |- ?a = ?b => let a' := eval vm_compute in a in change (a' = b); reflexivity
  end.

(** ** Arrays *)

Section ArrayFacts.
Context {A : Type}.
Implicit Types (a : list A) (d v : A).

Lemma wr_length a i v : length (wr a i v) = length a.
Proof. unfold wr. destruct (i <? 0); [done | apply length_insert]. Qed.

Lemma rd_nat d a (n : nat) : rd d a (Z.of_nat n) = default d (a !! n).
Proof.
  unfold rd. destruct (Z.ltb_spec (Z.of_nat n) 0); [lia |].
  by rewrite Nat2Z.id.
Qed.

Lemma wr_nat a (n : nat) v : wr a (Z.of_nat n) v = <[n := v]> a.
Proof.
  unfold wr. destruct (Z.ltb_spec (Z.of_nat n) 0); [lia |].
  by rewrite Nat2Z.id.
Qed.

(** Writing the cells [base], [base+1], ..., [base+n-1] in turn. *)
Lemma wr_run (ix : nat -> Z) (g : nat -> A) (n base : nat) (done rest : list A) :
  length done = base -> (n <= length rest)%nat ->
  (forall j, (j < n)%nat -> ix j = Z.of_nat (base + j)) ->
  fold_left (fun l j => wr l (ix j) (g j)) (seq 0 n) (done ++ rest)
  = done ++ map g (seq 0 n) ++ drop n rest.
Proof.
  intros Hd. induction n as [| n IH]; intros Hn Hix.
  - simpl. by rewrite drop_0.
  - rewrite seq_S, fold_left_app, IH by (intros; try apply Hix; lia).
    simpl. rewrite Hix, wr_nat by lia.
    destruct (lookup_lt_is_Some_2 rest n) as [x Hx]; [lia |].
    rewrite (drop_S _ _ _ Hx), map_app. simpl.
    rewrite !app_assoc.
    rewrite insert_app_r_alt; rewrite !length_app, length_map, length_seq; [| lia].
    replace (base + n - (length done + n))%nat with 0%nat by lia.
    simpl. by rewrite <- !app_assoc.
Qed.

End ArrayFacts.

(** ** The paths through [inisource] *)

Section Paths.
Context `{Platform}.
Variables (mpi : Mpi) (fs : string -> option string).
Variables (IFAULT NSRC READ_STEP NST maxdim NZ : Z) (INSRC INSRC_I2 : string).
Variable out : Sources.

Local Abbreviation run := (inisource mpi fs IFAULT NSRC READ_STEP NST maxdim NZ INSRC INSRC_I2 out).

Lemma inisource_early : NSRC < 1 -> run = Returned 0 out [].
Proof.
  intros Hn. unfold inisource.
  destruct (Z.ltb_spec NSRC 1); [done | lia].
Qed.

Lemma inisource_mode2 : 1 <= NSRC -> IFAULT = 2 -> run = Returned 1 out [ECerr not_implemented].
Proof.
  intros Hn ->. unfold inisource.
  destruct (Z.ltb_spec NSRC 1); [lia | done].
Qed.

Lemma inisource_open_failed :
  1 <= NSRC -> IFAULT = 0 \/ IFAULT = 1 -> fs INSRC = None ->
  run = Returned 0 out
          (catalog_allocs NSRC maxdim READ_STEP
             ++ [EFopen INSRC (if IFAULT =? 1 then "rb"%string else "r"%string)]
             ++ (if IFAULT =? 1 then [EAlloc1D (NST * 6)] else [])
             ++ [EPrintf (cant_open INSRC)]).
Proof.
  intros Hn Hm Hfs. unfold inisource.
  destruct (Z.ltb_spec NSRC 1); [lia |].
  destruct Hm as [-> | ->]; simpl; by rewrite Hfs.
Qed.

Lemma inisource_loaded content :
  1 <= NSRC -> IFAULT = 0 \/ IFAULT = 1 -> fs INSRC = Some content ->
  run = Returned 0
          (fst (resolve (bounds_of mpi) (m_rank mpi) NSRC maxdim READ_STEP
                  (loaded_catalog IFAULT NSRC READ_STEP NST maxdim NZ INSRC content)))
          (loaded_log IFAULT NSRC READ_STEP NST maxdim NZ INSRC content
             ++ snd (resolve (bounds_of mpi) (m_rank mpi) NSRC maxdim READ_STEP
                       (loaded_catalog IFAULT NSRC READ_STEP NST maxdim NZ INSRC content))).
Proof.
  intros Hn Hm Hfs. unfold inisource, loaded_catalog, loaded_log.
  destruct (Z.ltb_spec NSRC 1); [lia |].
  destruct Hm as [-> | ->]; simpl; rewrite Hfs;
    destruct (resolve _ _ _ _ _ _) as [o l]; simpl; by rewrite <- ?app_assoc.
Qed.

(** The value returned is 1 exactly in the unsupported mode, and 0 on
    every other path that returns. *)
Lemma inisource_ret r o l :
  run = Returned r o l ->
  (r = 1 /\ IFAULT = 2 /\ 1 <= NSRC) \/ (r = 0 /\ (IFAULT <> 2 \/ NSRC < 1)).
Proof.
  unfold inisource.
  destruct (Z.ltb_spec NSRC 1); [intros [= <- _ _]; right; lia |].
  destruct (Z.leb_spec IFAULT 1).
  - destruct (Z.eqb_spec IFAULT 1).
    + destruct (fs INSRC); [destruct (resolve _ _ _ _ _ _) |];
        intros [= <- _ _]; right; lia.
    + destruct (Z.eqb_spec IFAULT 0); [| done].
      destruct (fs INSRC); [destruct (resolve _ _ _ _ _ _) |];
        intros [= <- _ _]; right; lia.
  - destruct (Z.eqb_spec IFAULT 2); intros [= <- _ _]; [left | right]; lia.
Qed.

End Paths.

(** ** The two passes over the catalog *)

Section Resolver.
Context `{Platform}.
Variables (b : Bounds) (rank READ_STEP : Z).

Lemma owned_in_box (tp : list Z) (i : nat) :
  owned b 3 tp i = true <-> in_box b (gx tp i) (gy tp i) (gz tp i).
Proof.
  unfold owned, in_box, gx, gy, gz.
  rewrite !andb_true_iff, !Z.geb_le, !Z.leb_le. tauto.
Qed.

(** Channel-wise loops act on each channel by itself. *)
Lemma fold_chan (F : channel -> nat -> list float -> list float)
    (l : list nat) (t : channel -> list float) (c : channel) :
  fold_left (fun t j c => F c j (t c)) l t c = fold_left (fun x j => F c j x) l (t c).
Proof. revert t. induction l as [| j l IH]; intros t; [done | simpl; by rewrite IH]. Qed.

Lemma pass1_fold (tp : list Z) (l : list nat) (st : Z * Z) :
  fold_left (pass1_node b rank 3 tp) l st
  = (match List.filter (owned b 3 tp) l with [] => fst st | _ => rank end,
     snd st + Z.of_nat (length (List.filter (owned b 3 tp) l))).
Proof.
  revert st. induction l as [| i l IH]; intros [s n]; simpl.
  - f_equal. lia.
  - rewrite IH. unfold pass1_node. destruct (owned b 3 tp i); simpl.
    + f_equal; [by destruct (List.filter _ l) | lia].
    + done.
Qed.

Lemma filter_owned (tp : list Z) (l : list nat) :
  List.filter (owned b 3 tp) l
  = filter (fun i => in_box b (gx tp i) (gy tp i) (gz tp i)) l.
Proof.
  induction l as [| i l IH]; [done |].
  cbn [List.filter]. rewrite filter_cons, IH.
  destruct (owned b 3 tp i) eqn:Hi.
  - rewrite decide_True; [done | by apply owned_in_box].
  - rewrite decide_False; [done |]. intros Hin. apply owned_in_box in Hin. congruence.
Qed.

Lemma pass1_spec (NSRC : Z) (tp : list Z) :
  pass1 b rank NSRC 3 tp
  = (match owned_nodes b NSRC tp with [] => -1 | _ => rank end,
     Z.of_nat (length (owned_nodes b NSRC tp))).
Proof. unfold pass1, owned_nodes. by rewrite pass1_fold, filter_owned. Qed.

Lemma length_row (t : list float) (i : nat) :
  length (row READ_STEP t i) = Z.to_nat READ_STEP.
Proof. unfold row. by rewrite length_map, length_seq. Qed.

Lemma copy_node_run (tp : list Z) (i k0 : nat) (dP rP : list Z) :
  length dP = (3 * k0)%nat -> (3 <= length rP)%nat ->
  copy_node b 3 i (Z.of_nat k0) tp (dP ++ rP) = dP ++ remap b tp i ++ drop 3 rP.
Proof.
  intros Hd Hr. destruct rP as [| r0 [| r1 [| r2 rP]]]; simpl in Hr; try lia.
  unfold copy_node, remap, gx, gy, gz.
  replace (Z.of_nat k0 * 3) with (Z.of_nat (length dP + 0)) by lia.
  replace (Z.of_nat (length dP + 0) + 1) with (Z.of_nat (length dP + 1)) by lia.
  replace (Z.of_nat (length dP + 0) + 2) with (Z.of_nat (length dP + 2)) by lia.
  rewrite !wr_nat. by rewrite !insert_app_r.
Qed.

Lemma copy_samples_run (t tp : channel -> list float) (c : channel)
    (i k0 : nat) (dA rA : list float) :
  tp c = dA ++ rA -> length dA = (Z.to_nat READ_STEP * k0)%nat ->
  (Z.to_nat READ_STEP <= length rA)%nat ->
  copy_samples READ_STEP i (Z.of_nat k0) t tp c
  = dA ++ row READ_STEP (t c) i ++ drop (Z.to_nat READ_STEP) rA.
Proof.
  intros Htp Hd Hr. unfold copy_samples.
  rewrite (fold_chan (fun c j x =>
    wr x (Z.of_nat k0 * READ_STEP + Z.of_nat j)
       (rd indet_float (t c) (Z.of_nat i * READ_STEP + Z.of_nat j)))).
  rewrite Htp. unfold row.
  apply (wr_run (fun j => Z.of_nat k0 * READ_STEP + Z.of_nat j)
                (fun j => rd indet_float (t c) (Z.of_nat i * READ_STEP + Z.of_nat j))
                _ _ _ _ Hd Hr).
  intros j Hj. nia.
Qed.

(** The invariant of the second pass: the tables hold, in front, the
    records of the nodes found so far, and [k] counts them. *)
Lemma pass2_fold (cat : Catalog) (l : list nat) :
  forall (st : Z * Owned) (k0 : nat) (dP rP : list Z) (dA rA : channel -> list float),
    let own := List.filter (owned b 3 (tpsrc cat)) l in
    fst st = Z.of_nat k0 ->
    tpsrcp (snd st) = dP ++ rP ->
    length dP = (3 * k0)%nat ->
    (3 * length own <= length rP)%nat ->
    (forall c, tap (snd st) c = dA c ++ rA c
               /\ length (dA c) = (Z.to_nat READ_STEP * k0)%nat
               /\ (Z.to_nat READ_STEP * length own <= length (rA c))%nat) ->
    let r := fold_left (pass2_node b 3 READ_STEP cat) l st in
    fst r = Z.of_nat (k0 + length own)
    /\ tpsrcp (snd r)
       = dP ++ flat_map (remap b (tpsrc cat)) own ++ drop (3 * length own) rP
    /\ forall c, tap (snd r) c
                 = dA c ++ flat_map (row READ_STEP (ta cat c)) own
                        ++ drop (Z.to_nat READ_STEP * length own) (rA c).
Proof.
  induction l as [| i l IH]; intros st k0 dP rP dA rA own Hk HP HdP HrP HA r.
  - subst own r. cbn [fold_left List.filter length flat_map].
    rewrite Nat.add_0_r, !Nat.mul_0_r, !drop_0.
    split; [done |]. split; [done |]. intros c. by destruct (HA c) as (-> & _ & _).
  - subst own r. cbn [fold_left List.filter] in *.
    unfold pass2_node at 2 4 6.
    destruct (owned b 3 (tpsrc cat) i) eqn:Hi; [| by apply IH].
    cbn [length flat_map] in *.
    set (own := List.filter (owned b 3 (tpsrc cat)) l) in *.
    edestruct (IH (fst st + 1,
                   {| tpsrcp := copy_node b 3 i (fst st) (tpsrc cat) (tpsrcp (snd st));
                      tap := copy_samples READ_STEP i (fst st) (ta cat) (tap (snd st)) |})
                  (S k0) (dP ++ remap b (tpsrc cat) i) (drop 3 rP)
                  (fun c => dA c ++ row READ_STEP (ta cat c) i)
                  (fun c => drop (Z.to_nat READ_STEP) (rA c)))
      as (Hk' & HP' & HA').
    + cbn [fst]. lia.
    + cbn [snd tpsrcp]. rewrite Hk, HP, copy_node_run by lia. by rewrite app_assoc.
    + rewrite length_app. cbn [remap length]. lia.
    + rewrite length_drop. fold own. lia.
    + intros c. destruct (HA c) as (Hc & Hd & Hr). cbn [snd tap].
      rewrite Hk, (copy_samples_run _ _ c i k0 (dA c) (rA c)) by (done || lia).
      rewrite length_app, length_drop, length_row.
      split; [by rewrite app_assoc | lia].
    + fold own in Hk', HP', HA'.
      split; [rewrite Hk'; lia |]. split.
      * rewrite HP', drop_drop, <- !app_assoc. cbn [remap app].
        by replace (3 + 3 * length own)%nat with (3 * S (length own))%nat by lia.
      * intros c. rewrite HA', drop_drop, <- !app_assoc.
        by replace (Z.to_nat READ_STEP + Z.to_nat READ_STEP * length own)%nat
          with (Z.to_nat READ_STEP * S (length own))%nat by lia.
Qed.

Lemma pass2_spec (NSRC : Z) (cat : Catalog) :
  let own := owned_nodes b NSRC (tpsrc cat) in
  let r := pass2 b NSRC 3 READ_STEP (Z.of_nat (length own)) cat in
  fst r = Z.of_nat (length own)
  /\ tpsrcp (snd r) = flat_map (remap b (tpsrc cat)) own
  /\ forall c, tap (snd r) c = flat_map (row READ_STEP (ta cat c)) own.
Proof.
  intros own r. subst r. unfold pass2.
  assert (Hown : List.filter (owned b 3 (tpsrc cat)) (seq 0 (Z.to_nat NSRC)) = own)
    by apply filter_owned.
  assert (HlenD : length (Alloc1D (Z.of_nat (length own) * READ_STEP))
                  = (Z.to_nat READ_STEP * length own)%nat).
  { unfold Alloc1D. rewrite length_replicate.
    destruct (Z.le_gt_cases 0 READ_STEP); [| replace (Z.to_nat READ_STEP) with 0%nat; lia].
    rewrite Z2Nat.inj_mul, Nat2Z.id by lia. lia. }
  assert (HlenP : length (Alloc1P (Z.of_nat (length own) * 3)) = (3 * length own)%nat).
  { unfold Alloc1P. rewrite length_replicate. lia. }
  edestruct (pass2_fold cat (seq 0 (Z.to_nat NSRC))
               (0, {| tpsrcp := Alloc1P (Z.of_nat (length own) * 3);
                      tap := fun _ => Alloc1D (Z.of_nat (length own) * READ_STEP) |})
               0%nat [] (Alloc1P (Z.of_nat (length own) * 3))
               (fun _ : channel => @nil float)
               (fun _ : channel => Alloc1D (Z.of_nat (length own) * READ_STEP)))
    as (Hk & HP & HA); try done.
  - rewrite Hown. lia.
  - intros c. rewrite Hown. split; [done |]. split; [done | lia].
  - rewrite Hown in Hk, HP, HA.
    split; [done |]. split.
    + rewrite HP. cbn [app]. by rewrite drop_ge, app_nil_r by lia.
    + intros c. rewrite HA. cbn [app]. by rewrite drop_ge, app_nil_r by lia.
Qed.

(** What [resolve] hands back: nothing when no node is inside the
    box, the compacted tables otherwise. *)
Lemma resolve_spec (NSRC : Z) (cat : Catalog) :
  let own := owned_nodes b NSRC (tpsrc cat) in
  let npsrc := Z.of_nat (length own) in
  resolve b rank NSRC 3 READ_STEP cat
  = match own with
    | [] =>
        ({| m_srcProc := -1; m_nPsrc := 0; m_ptpSrc := None;
            m_ptAxx := None; m_ptAyy := None; m_ptAzz := None;
            m_ptAxz := None; m_ptAyz := None; m_ptAxy := None |},
         replicate 6 EDelloc1D ++ [EDelloc1P])
    | _ =>
        ({| m_srcProc := rank; m_nPsrc := npsrc;
            m_ptpSrc := Some (flat_map (remap b (tpsrc cat)) own);
            m_ptAxx := Some (flat_map (row READ_STEP (ta cat XX)) own);
            m_ptAyy := Some (flat_map (row READ_STEP (ta cat YY)) own);
            m_ptAzz := Some (flat_map (row READ_STEP (ta cat ZZ)) own);
            m_ptAxz := Some (flat_map (row READ_STEP (ta cat XZ)) own);
            m_ptAyz := Some (flat_map (row READ_STEP (ta cat YZ)) own);
            m_ptAxy := Some (flat_map (row READ_STEP (ta cat XY)) own) |},
         EAlloc1P (npsrc * 3) :: replicate 6 (EAlloc1D (npsrc * READ_STEP))
           ++ replicate 6 EDelloc1D ++ [EDelloc1P])
    end.
Proof.
  intros own npsrc. unfold resolve. rewrite pass1_spec. fold own. fold npsrc.
  destruct (pass2_spec NSRC cat) as (_ & HP & HA). fold own in HP, HA. fold npsrc in HP, HA.
  destruct own as [| i own'] eqn:Hown; [done |].
  destruct (Z.gtb_spec npsrc 0) as [_ | Hle]; [| simpl in npsrc; lia].
  by rewrite HP, !HA.
Qed.

End Resolver.

(** ** What the loading phase logs *)

Section LoadingLog.
Context `{Platform}.
Variables (maxdim READ_STEP NST NZ : Z).

Lemma binary_node_log (P : event -> bool) (st : BinSt) (i : nat) :
  (forall n got, P (EFread n got) = false) ->
  List.filter P (b_log (binary_node maxdim READ_STEP NST NZ st i)) = List.filter P (b_log st).
Proof.
  intros HP. unfold binary_node.
  destruct (fread int_of_bits _ _ _) as [[n1 t1] f1].
  destruct (n1 =? 0); [| destruct (fread float_of_bits _ _ _) as [[n2 t2] f2];
                         destruct (n2 =? 0)];
    cbn [b_log]; rewrite List.filter_app; cbn [List.filter]; rewrite !HP;
    by rewrite app_nil_r.
Qed.

Lemma load_binary_log (P : event -> bool) (NSRC : Z) (st : BinSt) :
  (forall n got, P (EFread n got) = false) ->
  List.filter P (b_log (load_binary NSRC maxdim READ_STEP NST NZ st)) = List.filter P (b_log st).
Proof.
  intros HP. unfold load_binary. generalize (seq 0 (Z.to_nat NSRC)) as l.
  intros l. revert st. induction l as [| i l IH]; intros st; [done |].
  cbn [fold_left]. by rewrite IH, binary_node_log.
Qed.

Lemma filter_replicate_false (P : event -> bool) (n : nat) (e : event) :
  P e = false -> List.filter P (replicate n e) = [].
Proof. intros He. induction n as [| n IH]; [done |]. cbn. by rewrite He. Qed.

Lemma text_node_log (P : event -> bool) (st : TxtSt) (i : nat) :
  (forall n, P (EFscanf n) = false) ->
  List.filter P (t_log (text_node maxdim READ_STEP NZ st i)) = List.filter P (t_log st).
Proof.
  intros HP. unfold text_node.
  destruct (fscanf conv_d _ _ _) as [t1 f1].
  destruct (scan_samples _ _ _) as [t2 f2].
  cbn [t_log]. rewrite List.filter_app. cbn [List.filter].
  by rewrite HP, filter_replicate_false, app_nil_r.
Qed.

Lemma load_text_log (P : event -> bool) (NSRC : Z) (st : TxtSt) :
  (forall n, P (EFscanf n) = false) ->
  List.filter P (t_log (load_text NSRC maxdim READ_STEP NZ st)) = List.filter P (t_log st).
Proof.
  intros HP. unfold load_text. generalize (seq 0 (Z.to_nat NSRC)) as l.
  intros l. revert st. induction l as [| i l IH]; intros st; [done |].
  cbn [fold_left]. by rewrite IH, text_node_log.
Qed.

(** The loading phase allocates the catalog and, in binary mode, the
    block [tmpta], and nothing else. *)
Lemma loaded_log_allocs (IFAULT NSRC : Z) (INSRC content : string) :
  List.filter is_alloc (loaded_log IFAULT NSRC READ_STEP NST maxdim NZ INSRC content)
  = loading_allocs IFAULT NSRC READ_STEP NST maxdim.
Proof.
  unfold loaded_log, loading_allocs, read_binary, read_text.
  destruct (IFAULT =? 1); rewrite List.filter_app.
  - by rewrite load_binary_log.
  - by rewrite load_text_log.
Qed.

End LoadingLog.

(** ** Reading records back out of a compacted table *)

Section Blocks.
Context {A B : Type}.

Lemma flat_map_block (f : A -> list B) (m : nat) (l : list A) (k c : nat) (x : A) :
  (forall y, length (f y) = m) -> l !! k = Some x -> (c < m)%nat ->
  flat_map f l !! (k * m + c)%nat = f x !! c.
Proof.
  intros Hf. revert k. induction l as [| y l IH]; intros k Hk Hc; [done |].
  cbn [flat_map]. destruct k as [| k].
  - injection Hk as ->. apply lookup_app_l. rewrite Hf. lia.
  - rewrite lookup_app_r by (rewrite Hf; lia).
    rewrite Hf. replace (S k * m + c - m)%nat with (k * m + c)%nat by lia.
    by apply IH.
Qed.

Lemma length_flat_map_block (f : A -> list B) (m : nat) (l : list A) :
  (forall y, length (f y) = m) -> length (flat_map f l) = (length l * m)%nat.
Proof.
  intros Hf. induction l as [| y l IH]; [done |].
  cbn [flat_map length]. rewrite length_app, Hf, IH. lia.
Qed.

Lemma rd_flat_map_block (d : B) (f : A -> list B) (m : Z) (l : list A)
    (k c : nat) (x : A) :
  (forall y, length (f y) = Z.to_nat m) -> l !! k = Some x -> Z.of_nat c < m ->
  rd d (flat_map f l) (Z.of_nat k * m + Z.of_nat c) = default d (f x !! c).
Proof.
  intros Hf Hk Hc.
  replace (Z.of_nat k * m + Z.of_nat c) with (Z.of_nat (k * Z.to_nat m + c)) by lia.
  rewrite rd_nat. by rewrite (flat_map_block f (Z.to_nat m) l k c x) by (done || lia).
Qed.

End Blocks.

Section Rows.
Context `{Platform}.
Variables (b : Bounds) (READ_STEP : Z).

Lemma row_lookup (t : list float) (i j : nat) :
  Z.of_nat j < READ_STEP ->
  row READ_STEP t i !! j = Some (rd indet_float t (Z.of_nat i * READ_STEP + Z.of_nat j)).
Proof.
  intros Hj. unfold row.
  change (map ?f ?l) with (f <$> l).
  rewrite list_lookup_fmap, lookup_seq_lt by lia. done.
Qed.

(** Row [k] of a compacted sample table is the row of the catalog
    node it was copied from. *)
Lemma row_flat_map (t : list float) (own : list nat) (k i : nat) :
  own !! k = Some i ->
  row READ_STEP (flat_map (row READ_STEP t) own) k = row READ_STEP t i.
Proof.
  intros Hk. unfold row at 1 3. apply map_ext_in. intros j Hj.
  apply in_seq in Hj.
  rewrite (rd_flat_map_block _ _ READ_STEP own k j i)
    by (done || lia || apply length_row).
  by rewrite row_lookup by lia.
Qed.

(** Triple [k] of a compacted coordinate table holds the local
    coordinates of the catalog node it was copied from. *)
Lemma remap_flat_map (tp : list Z) (own : list nat) (k i : nat) :
  own !! k = Some i ->
  let tbl := flat_map (remap b tp) own in
  rd indet_int tbl (Z.of_nat k * 3) = gx tp i - nbx b + 1
  /\ rd indet_int tbl (Z.of_nat k * 3 + 1) = gy tp i - nby b + 1
  /\ rd indet_int tbl (Z.of_nat k * 3 + 2) = gz tp i - nbz b + 1.
Proof.
  intros Hk tbl. subst tbl.
  pose proof (rd_flat_map_block indet_int (remap b tp) 3 own k 0 i) as H0.
  pose proof (rd_flat_map_block indet_int (remap b tp) 3 own k 1 i) as H1.
  pose proof (rd_flat_map_block indet_int (remap b tp) 3 own k 2 i) as H2.
  change (Z.of_nat 0) with 0 in H0. change (Z.of_nat 1) with 1 in H1.
  change (Z.of_nat 2) with 2 in H2. rewrite Z.add_0_r in H0.
  rewrite H0, H1, H2 by (done || lia). done.
Qed.

End Rows.

(** ** Early exits, rejected mode and return values *)

(** C9.  With a node count below 1, [inisource] returns 0 at once: the
    log is empty (no allocation, no file opened, nothing read) and the
    nine outputs are what they were. *)
Theorem inisource_no_nodes_is_noop `{Platform} (mpi : Mpi) (fs : string -> option string)
    (IFAULT NSRC READ_STEP NST maxdim NZ : Z) (INSRC INSRC_I2 : string) (out : Sources) :
  NSRC < 1 ->
  inisource mpi fs IFAULT NSRC READ_STEP NST maxdim NZ INSRC INSRC_I2 out
  = Returned 0 out [].
Proof. apply inisource_early. Qed.

Lemma inisource_no_nodes_is_noop_witness :
  inisource Scenario.mpi0 Scenario.fs0 1 0 2 2 3 5 "src.bin" "" Scenario.out0
  = Returned 0 Scenario.out0 [].
Proof. apply inisource_no_nodes_is_noop. lia. Defined.

(** C7.  In mode 2 with at least one node, [inisource] writes the
    diagnostic that names the path that is not implemented, returns 1,
    and does nothing else: the log holds that one event and the outputs
    are untouched.  The value 1 is returned on no other path. *)
Theorem inisource_mode2_rejected `{Platform} (mpi : Mpi) (fs : string -> option string)
    (NSRC READ_STEP NST maxdim NZ : Z) (INSRC INSRC_I2 : string) (out : Sources) :
  1 <= NSRC ->
  inisource mpi fs 2 NSRC READ_STEP NST maxdim NZ INSRC INSRC_I2 out
  = Returned 1 out [ECerr not_implemented]
  /\ String.index 0 "IFAULT == 2 is not implemented" not_implemented = Some 7%nat
  /\ forall mpi' fs' IFAULT' NSRC' READ_STEP' NST' maxdim' NZ' INSRC' INSRC_I2' out' r o l,
       inisource mpi' fs' IFAULT' NSRC' READ_STEP' NST' maxdim' NZ' INSRC' INSRC_I2' out'
       = Returned r o l ->
       IFAULT' <> 2 -> r = 0.
Proof.
  intros Hn. split; [by apply inisource_mode2 |]. split; [done |].
  intros mpi' fs' IFAULT' NSRC' READ_STEP' NST' maxdim' NZ' INSRC' INSRC_I2' out' r o l Hrun Hm.
  apply inisource_ret in Hrun. lia.
Qed.

Lemma inisource_mode2_rejected_witness :
  inisource Scenario.mpi0 Scenario.fs0 2 1 2 2 3 5 "src.bin" "" Scenario.out0
  = Returned 1 Scenario.out0 [ECerr not_implemented].
Proof. apply inisource_mode2_rejected. lia. Defined.

(** C10.  On the two early exits (node count below 1; file that cannot
    be opened in mode 0 or 1) [inisource] returns 0 and leaves the nine
    outputs as they were, so the members of the [Sources] object under
    construction keep what they held; a run that loads the file returns
    0 as well, so the returned value does not tell these outcomes
    apart. *)
Theorem inisource_early_exits_look_like_success `{Platform}
    (mpi : Mpi) (fs : string -> option string)
    (IFAULT NSRC READ_STEP NST maxdim NZ : Z) (INSRC INSRC_I2 : string) (out : Sources) :
  NSRC < 1 \/ (1 <= NSRC /\ (IFAULT = 0 \/ IFAULT = 1) /\ fs INSRC = None) ->
  (exists log,
      inisource mpi fs IFAULT NSRC READ_STEP NST maxdim NZ INSRC INSRC_I2 out
      = Returned 0 out log)
  /\ (exists log,
        Sources_new mpi fs IFAULT NSRC READ_STEP NST NZ INSRC INSRC_I2 out
        = Returned 0 out log)
  /\ forall mpi' fs' IFAULT' NSRC' READ_STEP' NST' maxdim' NZ' INSRC' INSRC_I2' out' content,
       1 <= NSRC' -> IFAULT' = 0 \/ IFAULT' = 1 -> fs' INSRC' = Some content ->
       exists o l,
         inisource mpi' fs' IFAULT' NSRC' READ_STEP' NST' maxdim' NZ' INSRC' INSRC_I2' out'
         = Returned 0 o l.
Proof.
  intros Hexit. split; [| split].
  - destruct Hexit as [Hn | (Hn & Hm & Hfs)].
    + exists []. by apply inisource_early.
    + eexists. by apply inisource_open_failed.
  - unfold Sources_new. destruct Hexit as [Hn | (Hn & Hm & Hfs)].
    + exists []. by apply inisource_early.
    + eexists. by apply inisource_open_failed.
  - intros mpi' fs' IFAULT' NSRC' READ_STEP' NST' maxdim' NZ' INSRC' INSRC_I2' out' content
           Hn Hm Hfs.
    eexists _, _. by eapply inisource_loaded.
Qed.

Lemma inisource_early_exits_look_like_success_witness :
  exists log,
    inisource Scenario.mpi0 Scenario.fs0 0 1 2 2 3 5 "missing.txt" "" Scenario.out0
    = Returned 0 Scenario.out0 log.
Proof.
  apply inisource_early_exits_look_like_success.
  right. split; [lia |]. split; [by left | reflexivity].
Defined.

(** C8 (the code at a file that cannot be opened).  The diagnostic
    names the file, nothing is read and the outputs are untouched, but
    the value returned is 0, the value that a run which loads its file
    returns too. *)
Theorem open_failure_returns_the_success_value :
  inisource Scenario.mpi0 Scenario.fs0 1 2 2 2 3 5 "missing.bin" "" Scenario.out0
  = Returned 0 Scenario.out0
      (catalog_allocs 2 3 2
         ++ [EFopen "missing.bin" "rb"; EAlloc1D 12;
             EPrintf (cant_open "missing.bin")])
  /\ returned
       (inisource Scenario.mpi0 Scenario.fs0 1 2 2 2 3 5 "src.bin" "" Scenario.out0)
     = Some (0, 2).
Proof. split; by_evaluation. Qed.

(** ** Ownership and compaction *)

Lemma filter_none {A : Type} (P : A -> Prop) `{forall x, Decision (P x)} (l : list A) :
  (forall x, In x l -> ~ P x) -> filter P l = [].
Proof.
  induction l as [| x l IH]; intros Hl; [done |].
  rewrite filter_cons_False by (apply Hl; by left).
  apply IH. intros y Hy. apply Hl. by right.
Qed.

Section Setup.
Context `{Platform}.
Variables (mpi : Mpi) (fs : string -> option string).
Variables (IFAULT NSRC READ_STEP NST NZ : Z) (INSRC INSRC_I2 content : string).
Variable out : Sources.
Hypothesis Hnodes : 1 <= NSRC.
Hypothesis Hmode : IFAULT = 0 \/ IFAULT = 1.
Hypothesis Hfile : fs INSRC = Some content.

Local Abbreviation cat := (loaded_catalog IFAULT NSRC READ_STEP NST 3 NZ INSRC content).
Local Abbreviation own := (owned_nodes (bounds_of mpi) NSRC (tpsrc cat)).

(** A run that loads its file, with the outputs in terms of the
    catalog and of the nodes inside the box. *)
Lemma inisource_setup :
  exists out' log',
    inisource mpi fs IFAULT NSRC READ_STEP NST 3 NZ INSRC INSRC_I2 out
    = Returned 0 out'
        (loaded_log IFAULT NSRC READ_STEP NST 3 NZ INSRC content ++ log')
    /\ List.filter is_alloc log'
       = match own with
         | [] => []
         | _ => EAlloc1P (Z.of_nat (length own) * 3)
                :: replicate 6 (EAlloc1D (Z.of_nat (length own) * READ_STEP))
         end
    /\ m_srcProc out' = match own with [] => -1 | _ => m_rank mpi end
    /\ m_nPsrc out' = Z.of_nat (length own)
    /\ m_ptpSrc out'
       = match own with
         | [] => None
         | _ => Some (flat_map (remap (bounds_of mpi) (tpsrc cat)) own)
         end
    /\ forall c, m_ptA out' c
                 = match own with
                   | [] => None
                   | _ => Some (flat_map (row READ_STEP (ta cat c)) own)
                   end.
Proof.
  eexists _, _. split; [by apply inisource_loaded |].
  rewrite resolve_spec. destruct own as [| i l]; cbn [fst snd].
  - repeat split. by intros [].
  - repeat split. by intros [].
Qed.

End Setup.

(** C2.  After a load, [NPSRC] is the number of catalog nodes for which
    the six inclusive comparisons hold, the test of the code being true
    for a node exactly when they do; when they hold for no node,
    [SRCPROC] is -1, [NPSRC] is 0, the seven table pointers are [NULL]
    and the only allocations of the call are those of the loading
    phase. *)
Theorem ownership_is_six_inclusive_comparisons `{Platform}
    (mpi : Mpi) (fs : string -> option string)
    (IFAULT NSRC READ_STEP NST NZ : Z) (INSRC INSRC_I2 content : string) (out : Sources) :
  1 <= NSRC -> IFAULT = 0 \/ IFAULT = 1 -> fs INSRC = Some content ->
  let b := bounds_of mpi in
  let tp := tpsrc (loaded_catalog IFAULT NSRC READ_STEP NST 3 NZ INSRC content) in
  exists out' log,
    inisource mpi fs IFAULT NSRC READ_STEP NST 3 NZ INSRC INSRC_I2 out = Returned 0 out' log
    /\ (forall i, owned b 3 tp i = true
                  <-> (nbx b <= gx tp i /\ gx tp i <= nex b)
                      /\ (nby b <= gy tp i /\ gy tp i <= ney b)
                      /\ (nbz b <= gz tp i /\ gz tp i <= nez b))
    /\ m_nPsrc out'
       = Z.of_nat (length (filter (fun i => in_box b (gx tp i) (gy tp i) (gz tp i))
                                  (seq 0 (Z.to_nat NSRC))))
    /\ ((forall i, (i < Z.to_nat NSRC)%nat -> ~ in_box b (gx tp i) (gy tp i) (gz tp i)) ->
        m_srcProc out' = -1
        /\ m_nPsrc out' = 0
        /\ m_ptpSrc out' = None
        /\ (forall c, m_ptA out' c = None)
        /\ List.filter is_alloc log = loading_allocs IFAULT NSRC READ_STEP NST 3).
Proof.
  intros Hn Hm Hfs b tp.
  destruct (inisource_setup mpi fs IFAULT NSRC READ_STEP NST NZ INSRC INSRC_I2 content out
              Hn Hm Hfs) as (out' & log' & Hrun & Hlog & Hproc & Hcount & Htp & Hta).
  eexists out', _. split; [exact Hrun |].
  split; [intros i; apply owned_in_box |].
  split; [exact Hcount |].
  intros Hnone.
  assert (Hown : owned_nodes b NSRC tp = []).
  { unfold owned_nodes. apply filter_none. intros i Hi.
    apply Hnone. apply in_seq in Hi. lia. }
  fold b tp in Hlog, Hproc, Hcount, Htp, Hta.
  rewrite Hown in Hlog, Hproc, Hcount, Htp, Hta.
  repeat split; try done.
  rewrite List.filter_app, loaded_log_allocs, Hlog. apply app_nil_r.
Qed.

Lemma ownership_is_six_inclusive_comparisons_witness :
  exists out' log,
    inisource Scenario.mpi0 Scenario.fs0 0 3 1 1 3 5 "src3.txt" "" Scenario.out0
    = Returned 0 out' log
    /\ m_nPsrc out' = 1.
Proof.
  destruct (ownership_is_six_inclusive_comparisons Scenario.mpi0 Scenario.fs0
              0 3 1 1 5 "src3.txt" "" Scenario.txt3 Scenario.out0)
    as (out' & log & Hrun & _ & Hcount & _); [lia | by left | reflexivity |].
  exists out', log. split; [exact Hrun | exact Hcount].
Defined.

(** C3.  After a load, the owned tables hold one record for each
    catalog node inside the box and no other, [NPSRC] of them, in
    catalog order: record [k] comes from the [k]-th such node [i], its
    three coordinates are [g - b + 1] for the node's global coordinate
    [g] and the lower bound [b] of the axis, and its row in each of the
    six sample tables is the node's row of the catalog. *)
Theorem second_pass_copies_owned_in_order `{Platform}
    (mpi : Mpi) (fs : string -> option string)
    (IFAULT NSRC READ_STEP NST NZ : Z) (INSRC INSRC_I2 content : string) (out : Sources) :
  1 <= NSRC -> IFAULT = 0 \/ IFAULT = 1 -> fs INSRC = Some content ->
  let b := bounds_of mpi in
  let cat := loaded_catalog IFAULT NSRC READ_STEP NST 3 NZ INSRC content in
  let tp := tpsrc cat in
  let own := filter (fun i => in_box b (gx tp i) (gy tp i) (gz tp i))
                    (seq 0 (Z.to_nat NSRC)) in
  exists out' log,
    inisource mpi fs IFAULT NSRC READ_STEP NST 3 NZ INSRC INSRC_I2 out = Returned 0 out' log
    /\ m_nPsrc out' = Z.of_nat (length own)
    /\ length (cells (m_ptpSrc out')) = (length own * 3)%nat
    /\ (forall c, length (cells (m_ptA out' c)) = (length own * Z.to_nat READ_STEP)%nat)
    /\ forall k i, own !! k = Some i ->
         rd indet_int (cells (m_ptpSrc out')) (Z.of_nat k * 3) = gx tp i - nbx b + 1
         /\ rd indet_int (cells (m_ptpSrc out')) (Z.of_nat k * 3 + 1) = gy tp i - nby b + 1
         /\ rd indet_int (cells (m_ptpSrc out')) (Z.of_nat k * 3 + 2) = gz tp i - nbz b + 1
         /\ forall c, row READ_STEP (cells (m_ptA out' c)) k = row READ_STEP (ta cat c) i.
Proof.
  intros Hn Hm Hfs b cat tp own.
  destruct (inisource_setup mpi fs IFAULT NSRC READ_STEP NST NZ INSRC INSRC_I2 content out
              Hn Hm Hfs) as (out' & log' & Hrun & _ & _ & Hcount & Htp & Hta).
  fold cat tp b in Hcount, Htp, Hta. change (owned_nodes b NSRC tp) with own in *.
  assert (HP : cells (m_ptpSrc out') = flat_map (remap b tp) own).
  { rewrite Htp. by destruct own. }
  assert (HA : forall c, cells (m_ptA out' c) = flat_map (row READ_STEP (ta cat c)) own).
  { intros c. rewrite Hta. by destruct own. }
  eexists out', _. split; [exact Hrun |]. split; [exact Hcount |].
  split; [rewrite HP; by apply length_flat_map_block |].
  split; [intros c; rewrite HA; apply length_flat_map_block; apply length_row |].
  intros k i Hk. rewrite HP.
  destruct (remap_flat_map b tp own k i Hk) as (Hx & Hy & Hz).
  repeat split; try done.
  intros c. rewrite HA. by apply row_flat_map.
Qed.

Lemma second_pass_copies_owned_in_order_witness :
  exists out' log,
    inisource Scenario.mpi0 Scenario.fs0 1 2 2 2 3 5 "src.bin" "" Scenario.out0
    = Returned 0 out' log
    /\ m_nPsrc out' = 2.
Proof.
  destruct (second_pass_copies_owned_in_order Scenario.mpi0 Scenario.fs0
              1 2 2 2 5 "src.bin" "" Scenario.bin2 Scenario.out0)
    as (out' & log & Hrun & Hcount & _); [lia | by right | reflexivity |].
  exists out', log. split; [exact Hrun | exact Hcount].
Defined.

(** ** Loading a complete binary file *)

Section Slices.
Context {A : Type}.

(** A slice of a list, cell by cell. *)
Lemma take_drop_cells (d : A) (l : list A) (n k : nat) :
  (n + k <= length l)%nat ->
  take k (drop n l) = map (fun c => default d (l !! (n + c)%nat)) (seq 0 k).
Proof.
  intros Hl. apply list_eq. intros j.
  change (map ?f ?x) with (f <$> x). rewrite list_lookup_fmap.
  destruct (Nat.lt_ge_cases j k) as [Hj | Hj].
  - rewrite lookup_take_lt, lookup_drop, lookup_seq_lt by lia. cbn.
    destruct (lookup_lt_is_Some_2 l (n + j)) as [x ->]; [lia | done].
  - rewrite lookup_take_ge, lookup_seq_ge by lia. done.
Qed.

Lemma rd_cells (d : A) (g : nat -> A) (k j : nat) :
  (j < k)%nat -> rd d (map g (seq 0 k)) (Z.of_nat j) = g j.
Proof.
  intros Hj. rewrite rd_nat. change (map ?f ?x) with (f <$> x).
  by rewrite list_lookup_fmap, lookup_seq_lt by lia.
Qed.

End Slices.

Section LoadBinary.
Context `{Platform}.
Variables (READ_STEP NST NZ : Z) (ws : list Z).
Hypothesis Hnst : 1 <= NST.

Local Abbreviation R := (bin_record NST).
Local Abbreviation coords :=
  (fun i => [bin_coord ws NST i 0; bin_coord ws NST i 1; NZ + 1 - bin_coord ws NST i 2]).
Local Abbreviation samples :=
  (fun c i => map (fun j => rd indet_float (bin_block ws NST i) (Z.of_nat j * 6 + chan_off c))
                  (seq 0 (Z.to_nat READ_STEP))).

Lemma to_nat_mul (a c : Z) : 0 <= a -> Z.to_nat (a * c) = (Z.to_nat c * Z.to_nat a)%nat.
Proof.
  intros Ha. destruct (Z.le_gt_cases 0 c).
  - rewrite Z2Nat.inj_mul by lia. lia.
  - replace (Z.to_nat c) with 0%nat by lia. nia.
Qed.

Lemma length_Alloc1P (n : Z) : length (Alloc1P n) = Z.to_nat n.
Proof. apply length_replicate. Qed.

Lemma length_Alloc1D (n : Z) : length (Alloc1D n) = Z.to_nat n.
Proof. apply length_replicate. Qed.

Lemma store_node_run (i : nat) (tmpsrc dP rP : list Z) :
  length dP = (3 * i)%nat -> (3 <= length rP)%nat ->
  store_node 3 NZ i tmpsrc (dP ++ rP)
  = dP ++ [rd indet_int tmpsrc 0; rd indet_int tmpsrc 1; NZ + 1 - rd indet_int tmpsrc 2]
       ++ drop 3 rP.
Proof.
  intros Hd Hr. destruct rP as [| r0 [| r1 [| r2 rP]]]; simpl in Hr; try lia.
  unfold store_node.
  replace (Z.of_nat i * 3) with (Z.of_nat (length dP + 0)) by lia.
  replace (Z.of_nat (length dP + 0) + 1) with (Z.of_nat (length dP + 1)) by lia.
  replace (Z.of_nat (length dP + 0) + 2) with (Z.of_nat (length dP + 2)) by lia.
  rewrite !wr_nat. by rewrite !insert_app_r.
Qed.

Lemma store_samples_run (tmpta : list float) (t : channel -> list float) (c : channel)
    (i : nat) (dA rA : list float) :
  t c = dA ++ rA -> length dA = (Z.to_nat READ_STEP * i)%nat ->
  (Z.to_nat READ_STEP <= length rA)%nat ->
  store_samples READ_STEP i tmpta t c
  = dA ++ map (fun j => rd indet_float tmpta (Z.of_nat j * 6 + chan_off c))
              (seq 0 (Z.to_nat READ_STEP))
       ++ drop (Z.to_nat READ_STEP) rA.
Proof.
  intros Ht Hd Hr. unfold store_samples.
  rewrite (fold_chan (fun c j x =>
    wr x (Z.of_nat i * READ_STEP + Z.of_nat j)
       (rd indet_float tmpta (Z.of_nat j * 6 + chan_off c)))).
  rewrite Ht.
  apply (wr_run (fun j => Z.of_nat i * READ_STEP + Z.of_nat j)
                (fun j => rd indet_float tmpta (Z.of_nat j * 6 + chan_off c))
                _ _ _ _ Hd Hr).
  intros j Hj. nia.
Qed.

Lemma chan_off_range (c : channel) : 0 <= chan_off c < 6.
Proof. destruct c; simpl; lia. Qed.

(** One node of a complete file: both reads are full, the triplet and
    the first [READ_STEP] samples go to the catalog. *)
Lemma binary_node_complete (i : nat) (st : BinSt) (dP rP : list Z)
    (dA rA : channel -> list float) :
  ((i + 1) * R <= length ws)%nat ->
  b_file st = drop (i * R) ws ->
  length (b_tmpsrc st) = 3%nat ->
  length (b_tmpta st) = (6 * Z.to_nat NST)%nat ->
  tpsrc (b_cat st) = dP ++ rP -> length dP = (3 * i)%nat -> (3 <= length rP)%nat ->
  (forall c, ta (b_cat st) c = dA c ++ rA c
             /\ length (dA c) = (Z.to_nat READ_STEP * i)%nat
             /\ (Z.to_nat READ_STEP <= length (rA c))%nat) ->
  let st' := binary_node 3 READ_STEP NST NZ st i in
  b_file st' = drop ((i + 1) * R) ws
  /\ length (b_tmpsrc st') = 3%nat
  /\ length (b_tmpta st') = (6 * Z.to_nat NST)%nat
  /\ tpsrc (b_cat st') = dP ++ coords i ++ drop 3 rP
  /\ (forall c, ta (b_cat st') c = dA c ++ samples c i ++ drop (Z.to_nat READ_STEP) (rA c))
  /\ b_log st' = b_log st ++ [EFread 3 3; EFread (NST * 6) (NST * 6)].
Proof.
  intros Hws Hfile Hsrc Hta HP HdP HrP HA st'. subst st'.
  unfold binary_node, fread. rewrite Hfile.
  assert (HR : R = (3 + 6 * Z.to_nat NST)%nat) by done.
  change (Z.to_nat 3) with 3%nat.
  rewrite (take_drop_cells 0 ws (i * R) 3) by lia.
  rewrite length_map, length_seq.
  rewrite (drop_ge (b_tmpsrc st)), app_nil_r by lia.
  change (Z.of_nat 3 =? 0) with false. cbv iota.
  rewrite !drop_drop.
  replace (Z.to_nat (NST * 6)) with (6 * Z.to_nat NST)%nat by lia.
  rewrite (take_drop_cells 0 ws (i * R + 3) (6 * Z.to_nat NST)) by lia.
  rewrite !length_map, !length_seq.
  rewrite (drop_ge (b_tmpta st)), app_nil_r by lia.
  destruct (Z.eqb_spec (Z.of_nat (6 * Z.to_nat NST)) 0) as [Hz | _]; [lia |].
  cbn [b_file b_tmpsrc b_tmpta b_cat b_log tpsrc ta].
  repeat match goal with |- context [?f <$> map ?g ?l] =>
    change (f <$> map g l) with (map f (map g l)) end.
  rewrite !List.map_map.
  split; [f_equal; lia |].
  split; [by rewrite length_map, length_seq |].
  split; [by rewrite length_map, length_seq |].
  split.
  - rewrite HP, store_node_run by done.
    change 0 with (Z.of_nat 0). change 1 with (Z.of_nat 1) at 2.
    change 2 with (Z.of_nat 2) at 1.
    rewrite !rd_cells by lia. done.
  - split.
    + intros c. destruct (HA c) as (Hc & Hd & Hr).
      by rewrite (store_samples_run _ _ c i (dA c) (rA c)) by done.
    + replace (Z.of_nat (6 * Z.to_nat NST)) with (NST * 6) by lia. done.
Qed.

(** The invariant of the loading loop on a complete file: after [n]
    nodes the stream stands behind [n] whole records and the catalog
    holds, in front, what was kept of them. *)
Lemma load_binary_prefix (NSRC : Z) (st0 : BinSt) (n : nat) :
  (Z.to_nat NSRC * R <= length ws)%nat -> (n <= Z.to_nat NSRC)%nat ->
  b_file st0 = ws ->
  length (b_tmpsrc st0) = 3%nat ->
  length (b_tmpta st0) = (6 * Z.to_nat NST)%nat ->
  length (tpsrc (b_cat st0)) = (3 * Z.to_nat NSRC)%nat ->
  (forall c, length (ta (b_cat st0) c) = (Z.to_nat READ_STEP * Z.to_nat NSRC)%nat) ->
  let st := fold_left (binary_node 3 READ_STEP NST NZ) (seq 0 n) st0 in
  b_file st = drop (n * R) ws
  /\ length (b_tmpsrc st) = 3%nat
  /\ length (b_tmpta st) = (6 * Z.to_nat NST)%nat
  /\ tpsrc (b_cat st) = flat_map coords (seq 0 n) ++ drop (3 * n) (tpsrc (b_cat st0))
  /\ (forall c, ta (b_cat st) c
                = flat_map (samples c) (seq 0 n)
                    ++ drop (Z.to_nat READ_STEP * n) (ta (b_cat st0) c))
  /\ b_log st
     = b_log st0
         ++ flat_map (fun _ => [EFread 3 3; EFread (NST * 6) (NST * 6)]) (seq 0 n).
Proof.
  intros Hws Hn Hfile Hsrc Hta HlenP HlenA.
  induction n as [| n IH]; intros st; subst st.
  - cbn [seq fold_left flat_map]. rewrite !Nat.mul_0_r, !drop_0, app_nil_r.
    repeat split; done.
  - rewrite seq_S, fold_left_app. cbn [fold_left Nat.add].
    destruct IH as (Hf & Hs & Ht & HP & HA & Hlog); [lia |].
    set (st := fold_left (binary_node 3 READ_STEP NST NZ) (seq 0 n) st0) in *.
    destruct (binary_node_complete n st
                (flat_map coords (seq 0 n)) (drop (3 * n) (tpsrc (b_cat st0)))
                (fun c => flat_map (samples c) (seq 0 n))
                (fun c => drop (Z.to_nat READ_STEP * n) (ta (b_cat st0) c)))
      as (Hf' & Hs' & Ht' & HP' & HA' & Hlog'); try done.
    + nia.
    + rewrite (length_flat_map_block _ 3) by done. rewrite length_seq. lia.
    + rewrite length_drop. lia.
    + intros c. split; [apply HA |]. split.
      * rewrite (length_flat_map_block _ (Z.to_nat READ_STEP))
          by (intros; by rewrite length_map, length_seq).
        rewrite length_seq. lia.
      * rewrite length_drop, HlenA. nia.
    + split; [rewrite Hf'; f_equal; lia |].
      split; [done |]. split; [done |].
      split; [| split].
      * rewrite HP', flat_map_app, drop_drop, <- !app_assoc. cbn [flat_map app].
        by replace (3 * n + 3)%nat with (3 * S n)%nat by lia.
      * intros c. rewrite HA', flat_map_app, drop_drop, <- !app_assoc.
        cbn [flat_map]. rewrite app_nil_r.
        by replace (Z.to_nat READ_STEP * n + Z.to_nat READ_STEP)%nat
          with (Z.to_nat READ_STEP * S n)%nat by lia.
      * rewrite Hlog', Hlog, flat_map_app, <- !app_assoc. done.
Qed.

(** The catalog, the stream and the log after a complete binary file
    was loaded. *)
Lemma read_binary_complete (NSRC : Z) (INSRC content : string) :
  1 <= NSRC ->
  ws = words_of content ->
  bin_complete ws NSRC NST = true ->
  let st := read_binary NSRC 3 READ_STEP NST NZ INSRC content in
  b_file st = drop (Z.to_nat NSRC * R) ws
  /\ tpsrc (b_cat st) = flat_map coords (seq 0 (Z.to_nat NSRC))
  /\ (forall c, ta (b_cat st) c = flat_map (samples c) (seq 0 (Z.to_nat NSRC)))
  /\ b_log st
     = catalog_allocs NSRC 3 READ_STEP ++ [EFopen INSRC "rb"; EAlloc1D (NST * 6)]
         ++ flat_map (fun _ => [EFread 3 3; EFread (NST * 6) (NST * 6)])
                     (seq 0 (Z.to_nat NSRC)).
Proof.
  intros Hnodes Hcontent Hok st. subst st. unfold read_binary, load_binary.
  unfold bin_complete in Hok. apply andb_true_iff in Hok as [_ Hlen].
  apply Nat.leb_le in Hlen.
  match goal with |- context [fold_left _ _ ?s] => set (st0 := s) end.
  destruct (load_binary_prefix NSRC st0 (Z.to_nat NSRC))
    as (Hf & _ & _ & HP & HA & Hlog); try done.
  - subst st0. cbn [b_tmpta]. rewrite length_Alloc1D. lia.
  - subst st0. cbn [b_cat tpsrc fresh_catalog]. rewrite length_Alloc1P. lia.
  - intros c. subst st0. cbn [b_cat ta fresh_catalog].
    rewrite length_Alloc1D. apply to_nat_mul. lia.
  - split; [done |]. split; [| split].
    + rewrite HP. rewrite drop_ge, app_nil_r; [done |].
      subst st0. cbn [b_cat tpsrc fresh_catalog]. rewrite length_Alloc1P. lia.
    + intros c. rewrite HA. rewrite drop_ge, app_nil_r; [done |].
      subst st0. cbn [b_cat ta fresh_catalog]. rewrite length_Alloc1D, to_nat_mul; lia.
    + rewrite Hlog. subst st0. cbn [b_log]. by rewrite <- app_assoc.
Qed.

End LoadBinary.

(** ** Loading a complete text file *)

Section Scanning.
Context {A St : Type}.
Variable conv : string -> option A.

(** When every field converts, [fscanf] consumes one field per
    conversion. *)
Lemma fscanf_snd (stores : list (A -> St -> St)) :
  forall (flds : list string) (s : St),
    (forall p, (p < length stores)%nat -> is_some (field_of conv flds p) = true) ->
    snd (fscanf conv stores flds s) = drop (length stores) flds.
Proof.
  induction stores as [| store more IH]; intros flds s Hok; [done |].
  pose proof (Hok 0%nat ltac:(simpl; lia)) as H0.
  destruct flds as [| f rest]; [done |].
  unfold field_of in H0. cbn in H0. cbn [fscanf].
  destruct (conv f) as [v |]; [| done].
  cbn [length drop]. apply IH.
  intros p Hp. apply (Hok (S p)). simpl. lia.
Qed.

Lemma field_of_drop (fl : list string) (n p : nat) :
  field_of conv (drop n fl) p = field_of conv fl (n + p).
Proof. unfold field_of. by rewrite lookup_drop. Qed.

End Scanning.

Section LoadText.
Context `{Platform}.
Variables (READ_STEP NZ : Z) (flds : list string).

Local Abbreviation Rt := (txt_record READ_STEP).
Local Abbreviation tcoords :=
  (fun i => [txt_coord flds READ_STEP i 0; txt_coord flds READ_STEP i 1;
             NZ + 1 - txt_coord flds READ_STEP i 2]).

(** line 181 on three fields that convert *)
Lemma fscanf_tmpsrc (fl : list string) (tmpsrc : list Z) :
  length tmpsrc = 3%nat ->
  (forall c, (c < 3)%nat -> is_some (field_d fl c) = true) ->
  fscanf conv_d tmpsrc_targets fl tmpsrc
  = ([default indet_int (field_d fl 0); default indet_int (field_d fl 1);
      default indet_int (field_d fl 2)],
     drop 3 fl).
Proof.
  intros Hlen Hok.
  pose proof (Hok 0%nat ltac:(lia)) as H0.
  pose proof (Hok 1%nat ltac:(lia)) as H1.
  pose proof (Hok 2%nat ltac:(lia)) as H2.
  destruct tmpsrc as [| t0 [| t1 [| t2 [| t3 tmpsrc]]]]; try done.
  destruct fl as [| f0 [| f1 [| f2 fl]]]; try done.
  unfold field_d, field_of in *. cbn in H0, H1, H2 |- *.
  destruct (conv_d f0); [| done]. destruct (conv_d f1); [| done].
  destruct (conv_d f2); [| done]. done.
Qed.

(** lines 186-192 on fields that all convert *)
Lemma scan_samples_snd (i : nat) (l : list nat) :
  forall (st : (channel -> list float) * list string),
    (forall m, (m < 6 * length l)%nat -> is_some (field_f (snd st) m) = true) ->
    snd (fold_left (fun st j => fscanf conv_f (sample_targets READ_STEP i j) (snd st) (fst st))
                   l st)
    = drop (6 * length l) (snd st).
Proof.
  induction l as [| j l IH]; intros st Hok; [done |].
  cbn [fold_left length]. rewrite IH.
  - rewrite fscanf_snd by (intros p Hp; apply Hok; cbn in *; lia).
    rewrite drop_drop. f_equal. cbn [length]. unfold sample_targets, channels.
    cbn [map length]. lia.
  - intros m Hm. rewrite fscanf_snd by (intros p Hp; apply Hok; cbn in *; lia).
    unfold field_f. change (length (sample_targets READ_STEP i j)) with 6%nat.
    rewrite (field_of_drop conv_f (snd st) 6 m). apply Hok. cbn [length]. lia.
Qed.

Lemma txt_complete_record (NSRC : Z) (i : nat) :
  txt_complete flds NSRC READ_STEP = true -> (i < Z.to_nat NSRC)%nat ->
  record_ok flds READ_STEP i.
Proof.
  intros Hok Hi. unfold txt_complete in Hok.
  rewrite forallb_forall in Hok.
  specialize (Hok i ltac:(apply in_seq; lia)).
  apply andb_true_iff in Hok as [Hd Hf].
  rewrite forallb_forall in Hd. rewrite forallb_forall in Hf.
  split.
  - intros c Hc. apply Hd. apply in_seq. lia.
  - intros m Hm. apply Hf. apply in_seq. lia.
Qed.

(** One node of a complete file: the triplet goes to the catalog with
    its third coordinate flipped, the stream moves on by one record. *)
Lemma text_node_complete (i : nat) (st : TxtSt) (dP rP : list Z) :
  record_ok flds READ_STEP i ->
  t_file st = drop (i * Rt) flds ->
  length (t_tmpsrc st) = 3%nat ->
  tpsrc (t_cat st) = dP ++ rP -> length dP = (3 * i)%nat -> (3 <= length rP)%nat ->
  let st' := text_node 3 READ_STEP NZ st i in
  t_file st' = drop ((i + 1) * Rt) flds
  /\ length (t_tmpsrc st') = 3%nat
  /\ tpsrc (t_cat st') = dP ++ tcoords i ++ drop 3 rP.
Proof.
  intros [Hd Hf] Hfile Hsrc HP HdP HrP st'. subst st'.
  unfold text_node. rewrite Hfile.
  rewrite fscanf_tmpsrc; [| done |].
  2: { intros c Hc. unfold field_d. rewrite field_of_drop. by apply Hd. }
  destruct (scan_samples READ_STEP i _) as [t f2] eqn:Hscan.
  apply (f_equal snd) in Hscan. cbn [snd] in Hscan.
  unfold scan_samples in Hscan. rewrite scan_samples_snd in Hscan.
  2: { intros m Hm. rewrite length_seq in Hm. cbn [snd]. unfold field_f.
       rewrite !field_of_drop.
       replace (i * Rt + (3 + m))%nat with (i * Rt + 3 + m)%nat by lia.
       by apply Hf. }
  cbn [snd] in Hscan. rewrite length_seq, !drop_drop in Hscan.
  cbn [t_file t_tmpsrc t_cat tpsrc].
  split; [rewrite <- Hscan; f_equal; unfold txt_record; lia |].
  split; [done |].
  rewrite HP, store_node_run by done.
  unfold txt_coord, field_d. rewrite !field_of_drop. done.
Qed.

(** The invariant of the loading loop on a complete file. *)
Lemma load_text_prefix (NSRC : Z) (st0 : TxtSt) (n : nat) :
  txt_complete flds NSRC READ_STEP = true -> (n <= Z.to_nat NSRC)%nat ->
  t_file st0 = flds ->
  length (t_tmpsrc st0) = 3%nat ->
  length (tpsrc (t_cat st0)) = (3 * Z.to_nat NSRC)%nat ->
  let st := fold_left (text_node 3 READ_STEP NZ) (seq 0 n) st0 in
  t_file st = drop (n * Rt) flds
  /\ length (t_tmpsrc st) = 3%nat
  /\ tpsrc (t_cat st) = flat_map tcoords (seq 0 n) ++ drop (3 * n) (tpsrc (t_cat st0)).
Proof.
  intros Hok Hn Hfile Hsrc HlenP.
  induction n as [| n IH]; intros st; subst st.
  - cbn [seq fold_left flat_map]. rewrite !Nat.mul_0_r, !drop_0. done.
  - rewrite seq_S, fold_left_app. cbn [fold_left Nat.add].
    destruct IH as (Hf & Hs & HP); [lia |].
    set (st := fold_left (text_node 3 READ_STEP NZ) (seq 0 n) st0) in *.
    destruct (text_node_complete n st
                (flat_map tcoords (seq 0 n)) (drop (3 * n) (tpsrc (t_cat st0))))
      as (Hf' & Hs' & HP'); try done.
    + apply (txt_complete_record NSRC); [done | lia].
    + rewrite (length_flat_map_block _ 3) by done. rewrite length_seq. lia.
    + rewrite length_drop. lia.
    + split; [rewrite Hf'; f_equal; lia |]. split; [done |].
      rewrite HP', flat_map_app, drop_drop, <- !app_assoc. cbn [flat_map app].
      by replace (3 * n + 3)%nat with (3 * S n)%nat by lia.
Qed.

(** The coordinates of the catalog after a complete text file was
    loaded. *)
Lemma read_text_complete (NSRC : Z) (INSRC content : string) :
  flds = fields_of content ->
  txt_complete flds NSRC READ_STEP = true ->
  tpsrc (t_cat (read_text NSRC 3 READ_STEP NZ INSRC content))
  = flat_map tcoords (seq 0 (Z.to_nat NSRC)).
Proof.
  intros Hcontent Hok. unfold read_text, load_text.
  match goal with |- context [fold_left _ _ ?s] => set (st0 := s) end.
  destruct (load_text_prefix NSRC st0 (Z.to_nat NSRC)) as (_ & _ & HP); try done.
  - subst st0. cbn [t_cat tpsrc fresh_catalog]. rewrite length_Alloc1P. lia.
  - rewrite HP, drop_ge, app_nil_r; [done |].
    subst st0. cbn [t_cat tpsrc fresh_catalog]. rewrite length_Alloc1P. lia.
Qed.

End LoadText.

(** ** The loader: what is read and what is kept *)

Lemma filter_reads (n m : Z) (l : list nat) :
  List.filter is_read (flat_map (fun _ => [EFread 3 3; EFread n m]) l)
  = flat_map (fun _ => [EFread 3 3; EFread n m]) l.
Proof. induction l as [| x l IH]; [done |]. cbn. by rewrite IH. Qed.

Lemma resolve_reads_nothing `{Platform} (b : Bounds) (rank NSRC READ_STEP : Z)
    (cat : Catalog) :
  List.filter is_read (snd (resolve b rank NSRC 3 READ_STEP cat)) = [].
Proof. rewrite resolve_spec. by destruct (owned_nodes _ _ _). Qed.

(** C6.  In binary mode, on a file that holds its [NSRC] records, the
    loader issues for every node one read of three items and one read
    of [NST*6] items, both full, so the stream ends behind [NSRC] whole
    records of [3 + NST*6] items; each sample table of the catalog has
    [READ_STEP] cells per node, and they hold the first [READ_STEP]
    samples of the node's block: cell [i*READ_STEP+j] of the table of
    xx, yy, zz, xz, yz, xy is float [j*6], [j*6+1], [j*6+2], [j*6+3],
    [j*6+4], [j*6+5] of the block of record [i]. *)
Theorem binary_load_reads_all_keeps_read_step `{Platform}
    (mpi : Mpi) (fs : string -> option string)
    (NSRC READ_STEP NST NZ : Z) (INSRC INSRC_I2 content : string) (out : Sources) :
  1 <= NSRC -> READ_STEP <= NST -> fs INSRC = Some content ->
  bin_complete (words_of content) NSRC NST = true ->
  let ws := words_of content in
  let st := read_binary NSRC 3 READ_STEP NST NZ INSRC content in
  let reads := flat_map (fun _ => [EFread 3 3; EFread (NST * 6) (NST * 6)])
                        (seq 0 (Z.to_nat NSRC)) in
  (exists out' log,
      inisource mpi fs 1 NSRC READ_STEP NST 3 NZ INSRC INSRC_I2 out = Returned 0 out' log
      /\ List.filter is_read log = reads)
  /\ b_file st = drop (Z.to_nat NSRC * (3 + 6 * Z.to_nat NST)) ws
  /\ (forall c, length (ta (b_cat st) c) = (Z.to_nat NSRC * Z.to_nat READ_STEP)%nat)
  /\ forall c i j, (i < Z.to_nat NSRC)%nat -> (j < Z.to_nat READ_STEP)%nat ->
       rd indet_float (ta (b_cat st) c) (Z.of_nat i * READ_STEP + Z.of_nat j)
       = float_of_bits
           (default 0 (ws !! (i * (3 + 6 * Z.to_nat NST) + 3
                              + (j * 6 + match c with
                                         | XX => 0 | YY => 1 | ZZ => 2
                                         | XZ => 3 | YZ => 4 | XY => 5
                                         end))%nat)).
Proof.
  intros Hn Hstep Hfs Hok ws st reads.
  assert (Hnst : 1 <= NST).
  { unfold bin_complete in Hok. apply andb_true_iff in Hok as [Hok _]. lia. }
  destruct (read_binary_complete READ_STEP NST NZ ws Hnst NSRC INSRC content
              Hn eq_refl Hok) as (Hfile & _ & HA & Hlog).
  fold st in Hfile, HA, Hlog.
  split; [| split; [exact Hfile | split]].
  - eexists _, _. split; [by eapply inisource_loaded; [| right |] |].
    rewrite List.filter_app, resolve_reads_nothing, app_nil_r.
    unfold loaded_log. cbn [Z.eqb Pos.eqb]. fold st. rewrite Hlog.
    rewrite !List.filter_app, filter_reads. unfold catalog_allocs.
    cbn [List.filter replicate is_read app]. apply app_nil_r.
  - intros c. rewrite HA, (length_flat_map_block _ (Z.to_nat READ_STEP)).
    + by rewrite length_seq.
    + intros y. by rewrite length_map, length_seq.
  - intros c i j Hi Hj.
    replace (match c with XX => 0 | YY => 1 | ZZ => 2 | XZ => 3 | YZ => 4 | XY => 5 end)%nat
      with (Z.to_nat (chan_off c)) by (by destruct c).
    rewrite HA.
    rewrite (rd_flat_map_block _ _ READ_STEP _ i j i).
    + change (map ?f ?x) with (f <$> x) at 1.
      rewrite list_lookup_fmap, lookup_seq_lt by lia. cbn [fmap option_fmap option_map default].
      pose proof (chan_off_range c) as Hoff.
      replace (Z.of_nat (0 + j) * 6 + chan_off c)
        with (Z.of_nat (j * 6 + Z.to_nat (chan_off c))) by lia.
      unfold bin_block. by rewrite rd_cells by lia.
    + intros y. by rewrite length_map, length_seq.
    + apply lookup_seq_lt. lia.
    + lia.
Qed.

Lemma binary_load_reads_all_keeps_read_step_witness :
  exists out' log,
    inisource Scenario.mpi0 Scenario.fs0 1 2 1 2 3 5 "src.bin" "" Scenario.out0
    = Returned 0 out' log
    /\ List.filter is_read log = [EFread 3 3; EFread 12 12; EFread 3 3; EFread 12 12].
Proof.
  apply (binary_load_reads_all_keeps_read_step Scenario.mpi0 Scenario.fs0
           2 1 2 5 "src.bin" "" Scenario.bin2 Scenario.out0);
    [lia | lia | reflexivity | by_evaluation].
Defined.

(** ** The z coordinate *)

Section Flip.
Context `{Platform}.
Variables (IFAULT NSRC READ_STEP NST NZ : Z) (INSRC content : string).
Hypothesis Hnodes : 1 <= NSRC.
Hypothesis Hmode : IFAULT = 0 \/ IFAULT = 1.
Hypothesis Hcomplete : complete IFAULT NSRC READ_STEP NST content = true.

Local Abbreviation raw := (raw_coord IFAULT READ_STEP NST content).
Local Abbreviation tp := (tpsrc (loaded_catalog IFAULT NSRC READ_STEP NST 3 NZ INSRC content)).

(** The coordinate table of the catalog after a complete file was
    loaded, in either mode. *)
Lemma loaded_coords :
  tp = flat_map (fun i => [raw i 0%nat; raw i 1%nat; NZ + 1 - raw i 2%nat])
                (seq 0 (Z.to_nat NSRC)).
Proof.
  unfold loaded_catalog, raw_coord, complete in *.
  destruct Hmode as [-> | ->]; cbn [Z.eqb Pos.eqb] in *.
  - by apply read_text_complete.
  - assert (Hnst : 1 <= NST).
    { unfold bin_complete in Hcomplete. apply andb_true_iff in Hcomplete as [Hok _]. lia. }
    by destruct (read_binary_complete READ_STEP NST NZ (words_of content) Hnst
                   NSRC INSRC content Hnodes eq_refl Hcomplete) as (_ & HP & _).
Qed.

Lemma loaded_node (i : nat) :
  (i < Z.to_nat NSRC)%nat ->
  gx tp i = raw i 0%nat /\ gy tp i = raw i 1%nat /\ gz tp i = NZ + 1 - raw i 2%nat.
Proof.
  intros Hi. unfold gx, gy, gz. rewrite loaded_coords.
  set (f := fun i => [raw i 0%nat; raw i 1%nat; NZ + 1 - raw i 2%nat]).
  assert (Hk : seq 0 (Z.to_nat NSRC) !! i = Some i) by (by apply lookup_seq_lt).
  pose proof (rd_flat_map_block indet_int f 3 _ i 0 i ltac:(done) Hk ltac:(lia)) as H0.
  pose proof (rd_flat_map_block indet_int f 3 _ i 1 i ltac:(done) Hk ltac:(lia)) as H1.
  pose proof (rd_flat_map_block indet_int f 3 _ i 2 i ltac:(done) Hk ltac:(lia)) as H2.
  change (Z.of_nat 0) with 0 in H0. change (Z.of_nat 1) with 1 in H1.
  change (Z.of_nat 2) with 2 in H2. rewrite Z.add_0_r in H0.
  by rewrite H0, H1, H2.
Qed.

End Flip.

(** C4.  In both modes, on a file that holds its [NSRC] records, the
    catalog stores the first two coordinates of every record as read
    and the third as [NZ + 1 - z] for the raw [z] of the record, so a
    raw [z] of 1 is stored as [NZ]; the flip is not applied again: the
    owned table holds, for the node copied into record [k], the stored
    value shifted to local indexing, [(NZ + 1 - z) - nbz + 1], and
    [addsrc] looks the node up at that value minus 1. *)
Theorem z_is_flipped_once_at_load `{Platform}
    (mpi : Mpi) (fs : string -> option string)
    (IFAULT NSRC READ_STEP NST NZ : Z) (INSRC INSRC_I2 content : string) (out : Sources) :
  1 <= NSRC -> IFAULT = 0 \/ IFAULT = 1 -> fs INSRC = Some content ->
  complete IFAULT NSRC READ_STEP NST content = true ->
  let b := bounds_of mpi in
  let tp := tpsrc (loaded_catalog IFAULT NSRC READ_STEP NST 3 NZ INSRC content) in
  let raw := raw_coord IFAULT READ_STEP NST content in
  (forall i, (i < Z.to_nat NSRC)%nat ->
     gx tp i = raw i 0%nat /\ gy tp i = raw i 1%nat /\ gz tp i = NZ + 1 - raw i 2%nat)
  /\ (forall i, (i < Z.to_nat NSRC)%nat -> raw i 2%nat = 1 -> gz tp i = NZ)
  /\ exists out' log,
       inisource mpi fs IFAULT NSRC READ_STEP NST 3 NZ INSRC INSRC_I2 out
       = Returned 0 out' log
       /\ forall k i, owned_nodes b NSRC tp !! k = Some i ->
            rd indet_int (cells (m_ptpSrc out')) (Z.of_nat k * 3 + 2)
            = (NZ + 1 - raw i 2%nat) - nbz b + 1
            /\ forall pd, snd (locate out' 3 pd k)
                 = globalToLocalZ pd
                     (rd indet_int (cells (m_ptpSrc out')) (Z.of_nat k * 3) - 1)
                     (rd indet_int (cells (m_ptpSrc out')) (Z.of_nat k * 3 + 1) - 1)
                     ((NZ + 1 - raw i 2%nat) - nbz b + 1 - 1).
Proof.
  intros Hn Hm Hfs Hok b tp raw.
  pose proof (loaded_node IFAULT NSRC READ_STEP NST NZ INSRC content Hn Hm Hok) as Hnode.
  change (forall i, (i < Z.to_nat NSRC)%nat ->
            gx tp i = raw i 0%nat /\ gy tp i = raw i 1%nat /\ gz tp i = NZ + 1 - raw i 2%nat)
    in Hnode.
  destruct (inisource_setup mpi fs IFAULT NSRC READ_STEP NST NZ INSRC INSRC_I2 content out
              Hn Hm Hfs) as (out' & log' & Hrun & _ & _ & _ & Htp & _).
  change (m_ptpSrc out' = match owned_nodes b NSRC tp with
                          | [] => None
                          | _ => Some (flat_map (remap b tp) (owned_nodes b NSRC tp))
                          end) in Htp.
  clearbody tp raw b.
  split; [exact Hnode |]. split.
  - intros i Hi Hone. destruct (Hnode i Hi) as (_ & _ & Hz). lia.
  - eexists out', _. split; [exact Hrun |].
    intros k i Hk.
    assert (HP : cells (m_ptpSrc out') = flat_map (remap b tp) (owned_nodes b NSRC tp)).
    { rewrite Htp. by destruct (owned_nodes b NSRC tp). }
    destruct (remap_flat_map b tp _ k i Hk) as (_ & _ & Hz).
    assert (Hi : (i < Z.to_nat NSRC)%nat).
    { apply list_elem_of_lookup_2 in Hk. unfold owned_nodes in Hk.
      apply list_elem_of_filter in Hk as [_ Hk]. apply list_elem_of_In, in_seq in Hk. lia. }
    destruct (Hnode i Hi) as (_ & _ & Hgz).
    assert (Hcell : rd indet_int (cells (m_ptpSrc out')) (Z.of_nat k * 3 + 2)
                    = NZ + 1 - raw i 2%nat - nbz b + 1).
    { rewrite HP, Hz, Hgz. done. }
    split; [exact Hcell |].
    intros pd. unfold locate. cbn [snd]. by rewrite Hcell.
Qed.

Lemma z_is_flipped_once_at_load_witness :
  gz (H := Binary32.platform)
     (tpsrc (loaded_catalog (H := Binary32.platform) 1 2 2 2 3 5 "src.bin" Scenario.bin2))
     0
  = 5 + 1 - raw_coord (H := Binary32.platform) 1 2 2 Scenario.bin2 0 2%nat.
Proof.
  destruct (z_is_flipped_once_at_load Scenario.mpi0 Scenario.fs0
              1 2 2 2 5 "src.bin" "" Scenario.bin2 Scenario.out0)
    as (Hnode & _); [lia | by right | reflexivity | by_evaluation |].
  destruct (Hnode 0%nat) as (_ & _ & Hz); [cbn; lia | exact Hz].
Defined.

(** ** Processes with disjoint boxes *)

Section Partition.
Context {A B : Type}.
Variable P : B -> A -> Prop.
Context `{forall p x, Decision (P p x)}.

Lemma concat_map_nil (ps : list B) : concat (map (fun _ => @nil A) ps) = [].
Proof. induction ps as [| p ps IH]; [done | exact IH]. Qed.

Lemma concat_map_app (f g : B -> list A) (ps : list B) :
  Permutation (concat (map (fun p => f p ++ g p) ps))
              (concat (map f ps) ++ concat (map g ps)).
Proof.
  induction ps as [| p ps IH]; [done |].
  cbn [map concat]. rewrite IH, <- !app_assoc.
  apply Permutation_app_head. rewrite !app_assoc.
  apply Permutation_app_tail. apply Permutation_app_comm.
Qed.

(** An element that at most one process accepts is handed out once if
    some process accepts it, and not at all otherwise. *)
Lemma concat_singletons (x : A) (ps : list B) :
  ForallOrdPairs (fun p q => P p x -> ~ P q x) ps ->
  concat (map (fun p => if decide (P p x) then [x] else []) ps)
  = if decide (Exists (fun p => P p x) ps) then [x] else [].
Proof.
  induction 1 as [| p ps Hp Hps IH].
  - cbn. rewrite decide_False; [done | by intros ?%Exists_nil].
  - cbn [map concat]. rewrite IH.
    destruct (decide (P p x)) as [Hx | Hx],
             (decide (Exists (fun p => P p x) ps)) as [Hex | Hex],
             (decide (Exists (fun p => P p x) (p :: ps))) as [Hex' | Hex'];
      try done.
    all: exfalso.
    all: try (apply Hex'; first [by apply Exists_cons_hd | by apply Exists_cons_tl]).
    all: try (inversion Hex'; by subst).
    all: apply Exists_exists in Hex as (q & Hq & Hqx).
    all: rewrite Forall_forall in Hp; by apply (Hp q Hq).
Qed.

Lemma partition_by_filters (l : list A) (ps : list B) :
  (forall x, ForallOrdPairs (fun p q => P p x -> ~ P q x) ps) ->
  Permutation (concat (map (fun p => filter (P p) l) ps))
              (filter (fun x => Exists (fun p => P p x) ps) l).
Proof.
  intros Hdis. induction l as [| x l IH].
  - by rewrite concat_map_nil.
  - transitivity (concat (map (fun p => (if decide (P p x) then [x] else [])
                                          ++ filter (P p) l) ps)).
    { apply Permutation_refl'. f_equal. apply map_ext. intros p.
      rewrite filter_cons. by destruct (decide (P p x)). }
    rewrite concat_map_app, concat_singletons, IH by done.
    rewrite filter_cons. by destruct (decide (Exists _ ps)).
Qed.

End Partition.

Lemma map_seq_lookup {A B : Type} (f : nat -> B) (g : A -> B) (l : list A) :
  (forall k x, l !! k = Some x -> f k = g x) ->
  map f (seq 0 (length l)) = map g l.
Proof.
  intros Hfg. apply list_eq. intros k.
  change (map ?h ?x) with (h <$> x). rewrite !list_lookup_fmap.
  destruct (l !! k) as [x |] eqn:Hk.
  - rewrite lookup_seq_lt by (by eapply lookup_lt_Some). cbn. f_equal. by apply Hfg.
  - rewrite lookup_seq_ge; [done |]. by apply lookup_ge_None.
Qed.

Lemma filter_map_comm {A B : Type} (f : A -> B) (Q : B -> Prop)
    `{forall y, Decision (Q y)} (l : list A) :
  filter Q (map f l) = map f (filter (fun x => Q (f x)) l).
Proof.
  induction l as [| x l IH]; [done |].
  cbn [map]. rewrite !filter_cons, IH. by destruct (decide (Q (f x))).
Qed.

Section Processes.
Context `{Platform}.
Variables (fs : string -> option string).
Variables (IFAULT NSRC READ_STEP NST NZ : Z) (INSRC INSRC_I2 content : string).
Hypothesis Hnodes : 1 <= NSRC.
Hypothesis Hmode : IFAULT = 0 \/ IFAULT = 1.
Hypothesis Hfile : fs INSRC = Some content.

Local Abbreviation cat := (loaded_catalog IFAULT NSRC READ_STEP NST 3 NZ INSRC content).

(** The owned tables of a process, read back as records, are the
    records of the catalog nodes inside its box. *)
Lemma owned_records_of_process (mpi : Mpi) (out0 o : Sources) (log : list event) :
  inisource mpi fs IFAULT NSRC READ_STEP NST 3 NZ INSRC INSRC_I2 out0 = Returned 0 o log ->
  owned_records (bounds_of mpi) READ_STEP o
  = map (catalog_record READ_STEP cat) (owned_nodes (bounds_of mpi) NSRC (tpsrc cat)).
Proof.
  intros Hrun.
  destruct (inisource_setup mpi fs IFAULT NSRC READ_STEP NST NZ INSRC INSRC_I2 content out0
              Hnodes Hmode Hfile) as (out' & log' & Hrun' & _ & _ & Hcount & Htp & Hta).
  rewrite Hrun in Hrun'. injection Hrun' as <- _.
  set (b := bounds_of mpi) in *. set (own := owned_nodes b NSRC (tpsrc cat)) in *.
  assert (HP : cells (m_ptpSrc o) = flat_map (remap b (tpsrc cat)) own).
  { rewrite Htp. by destruct own. }
  assert (HA : forall c, cells (m_ptA o c) = flat_map (row READ_STEP (ta cat c)) own).
  { intros c. rewrite Hta. by destruct own. }
  unfold owned_records. rewrite Hcount, Nat2Z.id.
  apply map_seq_lookup. intros k i Hk.
  rewrite HP. destruct (remap_flat_map b (tpsrc cat) own k i Hk) as (-> & -> & ->).
  unfold catalog_record. f_equal; [f_equal; [f_equal |] |]; try lia.
  apply map_ext. intros c. rewrite HA. by apply row_flat_map.
Qed.

Lemma owned_records_of_processes (procs : list Mpi) (outs : list Sources) :
  Forall2 (fun mpi o => exists out0 log,
             inisource mpi fs IFAULT NSRC READ_STEP NST 3 NZ INSRC INSRC_I2 out0
             = Returned 0 o log) procs outs ->
  concat (zip_with (fun mpi o => owned_records (bounds_of mpi) READ_STEP o) procs outs)
  = map (catalog_record READ_STEP cat)
        (concat (map (fun mpi => owned_nodes (bounds_of mpi) NSRC (tpsrc cat)) procs)).
Proof.
  induction 1 as [| mpi o procs outs (out0 & log & Hrun) _ IH]; [done |].
  cbn [zip_with concat map]. rewrite map_app, IH. f_equal.
  by eapply owned_records_of_process.
Qed.

Lemma disjoint_boxes_at (procs : list Mpi) (x y z : Z) :
  disjoint_boxes procs ->
  ForallOrdPairs (fun p q => in_box (bounds_of p) x y z -> ~ in_box (bounds_of q) x y z)
                 procs.
Proof.
  induction 1 as [| p ps Hp _ IH]; constructor; [| done].
  eapply Forall_impl; [exact Hp |]. intros q Hq. apply Hq.
Qed.

End Processes.

(** C5.  Let the processes have boxes of which no two share a point,
    and let each run [inisource] on the same file.  The records of
    their owned tables, taken back to global coordinates and put
    together, are, up to order, the records of the catalog nodes that
    lie in the box of some process, each as often as it is in the
    catalog: none is missing, none is extra and none is held twice. *)
Theorem owned_sets_partition_the_catalog `{Platform}
    (fs : string -> option string)
    (IFAULT NSRC READ_STEP NST NZ : Z) (INSRC INSRC_I2 content : string)
    (procs : list Mpi) (outs : list Sources) :
  1 <= NSRC -> IFAULT = 0 \/ IFAULT = 1 -> fs INSRC = Some content ->
  disjoint_boxes procs ->
  Forall2 (fun mpi o => exists out0 log,
             inisource mpi fs IFAULT NSRC READ_STEP NST 3 NZ INSRC INSRC_I2 out0
             = Returned 0 o log) procs outs ->
  let cat := loaded_catalog IFAULT NSRC READ_STEP NST 3 NZ INSRC content in
  Permutation
    (concat (zip_with (fun mpi o => owned_records (bounds_of mpi) READ_STEP o) procs outs))
    (filter (record_in_some_box procs)
            (map (catalog_record READ_STEP cat) (seq 0 (Z.to_nat NSRC)))).
Proof.
  intros Hn Hm Hfs Hdis Hruns cat.
  rewrite (owned_records_of_processes fs IFAULT NSRC READ_STEP NST NZ INSRC INSRC_I2 content
             Hn Hm Hfs procs outs Hruns).
  rewrite filter_map_comm. apply Permutation_map. fold cat.
  unfold owned_nodes.
  rewrite (partition_by_filters
             (fun mpi i => in_box (bounds_of mpi) (gx (tpsrc cat) i) (gy (tpsrc cat) i)
                             (gz (tpsrc cat) i))).
  - apply Permutation_refl'. apply list_filter_iff. intros i. done.
  - intros i. by apply disjoint_boxes_at.
Qed.

Lemma owned_sets_partition_the_catalog_witness :
  Permutation
    (concat (zip_with (fun mpi o => owned_records (bounds_of mpi) 1 o)
               [Scenario.mpi0; Scenario.mpi1]
               [Scenario.out3_0; Scenario.out3_1]))
    (filter (record_in_some_box [Scenario.mpi0; Scenario.mpi1])
            (map (catalog_record 1 (loaded_catalog 0 3 1 1 3 5 "src3.txt" Scenario.txt3))
                 (seq 0 (Z.to_nat 3)))).
Proof.
  apply (owned_sets_partition_the_catalog Scenario.fs0 0 3 1 1 5 "src3.txt" ""
           Scenario.txt3).
  - lia.
  - by left.
  - reflexivity.
  - repeat constructor. intros x y z. unfold in_box, bounds_of. cbn. lia.
  - constructor; [| constructor; [| constructor]].
    + exists Scenario.out0, Scenario.log3_0. by_evaluation.
    + exists Scenario.out0, Scenario.log3_1. by_evaluation.
Defined.

(** ** Injection *)

Section Injection.
Context `{Platform}.
Variables (s : Sources) (i : Z) (DH DT : float) (READ_STEP dim : Z) (pd : PatchDecomp).

Local Abbreviation upto n := (addsrc_upto n s i DH DT READ_STEP dim pd).
Local Abbreviation loc := (locate s dim pd).

Lemma same_cell_eq (p x y z p' x' y' z' : Z) :
  same_cell p x y z p' x' y' z' = true <-> (p', x', y', z') = (p, x, y, z).
Proof.
  unfold same_cell. rewrite !andb_true_iff, !Z.eqb_eq.
  split; [intros [[[-> ->] ->] ->]; done | intros [= -> -> -> ->]; done].
Qed.

Lemma addsrc_upto_S (n : nat) :
  upto (S n) = addsrc_node s i (vtst DH DT) READ_STEP dim (upto n) n.
Proof. unfold addsrc_upto. by rewrite seq_S, fold_left_app. Qed.

(** The loop does not touch the coordinate lookups. *)
Lemma locate_upto (n j : nat) : locate s dim (upto n) j = loc j.
Proof.
  induction n as [| n IH]; [done |].
  rewrite addsrc_upto_S. rewrite <- IH. unfold addsrc_node.
  destruct (locate s dim (upto n) n) as [[[p x] y] z]. done.
Qed.

(** One pass of the loop body: the six components at the node's cell
    lose the scaled sample of their own channel, every other cell
    keeps its value. *)
Lemma addsrc_node_stress (n : nat) (c : channel) (l : Z * Z * Z * Z) :
  stress_at (upto (S n)) c l
  = if decide (l = loc n)
    then fsub (stress_at (upto n) c (loc n)) (fmul (vtst DH DT) (sample s READ_STEP c n i))
    else stress_at (upto n) c l.
Proof.
  rewrite addsrc_upto_S. unfold addsrc_node. rewrite locate_upto.
  destruct (loc n) as [[[p x] y] z] eqn:Hloc. destruct l as [[[p' x'] y'] z'].
  cbn [stress_at m_stress]. unfold sub_at.
  destruct (same_cell p x y z p' x' y' z') eqn:Hc.
  - apply same_cell_eq in Hc. by rewrite decide_True.
  - rewrite decide_False; [done |]. intros Heq. apply same_cell_eq in Heq. congruence.
Qed.

(** A cell on which none of the first [n] nodes sits is unchanged. *)
Lemma stress_untouched (n : nat) (c : channel) (l : Z * Z * Z * Z) :
  (forall j, (j < n)%nat -> loc j <> l) ->
  stress_at (upto n) c l = stress_at pd c l.
Proof.
  induction n as [| n IH]; intros Hl; [done |].
  rewrite addsrc_node_stress, decide_False.
  - apply IH. intros j Hj. apply Hl. lia.
  - intros ->. apply (Hl n); [lia | done].
Qed.

(** The cell of a node that shares it with no other of the first [n]
    nodes has lost that node's scaled sample and nothing else. *)
Lemma stress_single (n j : nat) (c : channel) :
  (j < n)%nat ->
  (forall j', (j' < n)%nat -> j' <> j -> loc j' <> loc j) ->
  stress_at (upto n) c (loc j)
  = fsub (stress_at pd c (loc j)) (fmul (vtst DH DT) (sample s READ_STEP c j i)).
Proof.
  induction n as [| n IH]; intros Hj Hother; [lia |].
  rewrite addsrc_node_stress.
  destruct (Nat.eq_dec j n) as [-> | Hne].
  - rewrite decide_True by done. f_equal.
    apply stress_untouched. intros j' Hj'. apply Hother; lia.
  - rewrite decide_False.
    + apply IH; [lia |]. intros j' Hj'. apply Hother. lia.
    + intros Heq. apply (Hother n); [lia | lia | done].
Qed.

End Injection.

(** C1.  For every owned node [j] and every channel [c], the pass of
    [addsrc] over node [j] replaces the value [S] of stress component
    [c] at the node's cell by [S - (DT/(DH*DH*DH)) * a[j*READ_STEP+i]],
    where [a] is the sample table of the same channel [c]
    ([m_ptAxx] for xx, [m_ptAyy] for yy, ...), and leaves component [c]
    at every other cell as it was.  The node's cell is the patch and
    the three local indices that the four lookups of the patch
    decomposition give at [m_ptpSrc[j*dim] - 1], [m_ptpSrc[j*dim+1] - 1],
    [m_ptpSrc[j*dim+2] - 1].  The call is these passes for [j] = 0 ..
    [m_nPsrc]-1 in turn.  For a node that shares its cell with no other
    owned node, [S] is the value before the call and the result is the
    value after it. *)
Theorem addsrc_subtracts_scaled_sample `{Platform}
    (s : Sources) (i : Z) (DH DT : float) (NST READ_STEP dim : Z) (pd : PatchDecomp)
    (j : nat) (c : channel) :
  (j < Z.to_nat (m_nPsrc s))%nat ->
  let before := addsrc_upto j s i DH DT READ_STEP dim pd in
  let after := addsrc_upto (S j) s i DH DT READ_STEP dim pd in
  let cell_of (n : nat) :=
    let idx := rd indet_int (cells (m_ptpSrc s)) (Z.of_nat n * dim) - 1 in
    let idy := rd indet_int (cells (m_ptpSrc s)) (Z.of_nat n * dim + 1) - 1 in
    let idz := rd indet_int (cells (m_ptpSrc s)) (Z.of_nat n * dim + 2) - 1 in
    (globalToPatch pd idx idy idz, globalToLocalX pd idx idy idz,
     globalToLocalY pd idx idy idz, globalToLocalZ pd idx idy idz) in
  let cell := cell_of j in
  let a := cells match c with
                 | XX => m_ptAxx s | YY => m_ptAyy s | ZZ => m_ptAzz s
                 | XZ => m_ptAxz s | YZ => m_ptAyz s | XY => m_ptAxy s
                 end in
  let scaled := fmul (fdiv DT (fmul (fmul DH DH) DH))
                     (rd indet_float a (Z.of_nat j * READ_STEP + i)) in
  stress_at after c cell = fsub (stress_at before c cell) scaled
  /\ (forall l, l <> cell -> stress_at after c l = stress_at before c l)
  /\ addsrc s i DH DT NST READ_STEP dim pd
     = addsrc_upto (Z.to_nat (m_nPsrc s)) s i DH DT READ_STEP dim pd
  /\ ((forall j', (j' < Z.to_nat (m_nPsrc s))%nat -> j' <> j -> cell_of j' <> cell) ->
      stress_at (addsrc s i DH DT NST READ_STEP dim pd) c cell
      = fsub (stress_at pd c cell) scaled).
Proof.
  intros Hj before after cell_of cell a scaled.
  assert (Hcell : cell_of = locate s dim pd) by reflexivity.
  assert (Ha : a = cells (m_ptA s c)) by (subst a; by destruct c).
  clearbody cell_of a. subst cell_of a before after cell scaled.
  split; [| split; [| split]].
  - rewrite addsrc_node_stress. by rewrite decide_True.
  - intros l Hl. rewrite addsrc_node_stress. by rewrite decide_False.
  - done.
  - intros Hother. unfold addsrc. by apply stress_single.
Qed.

Lemma addsrc_subtracts_scaled_sample_witness :
  stress_at (addsrc_upto 1 Scenario.src_two 0 Scenario.one Scenario.half 2 3 Scenario.pd0)
            XX
            (globalToPatch Scenario.pd0 1 2 4, globalToLocalX Scenario.pd0 1 2 4,
             globalToLocalY Scenario.pd0 1 2 4, globalToLocalZ Scenario.pd0 1 2 4)
  = fsub (stress_at Scenario.pd0 XX
            (globalToPatch Scenario.pd0 1 2 4, globalToLocalX Scenario.pd0 1 2 4,
             globalToLocalY Scenario.pd0 1 2 4, globalToLocalZ Scenario.pd0 1 2 4))
         (fmul (fdiv Scenario.half
                     (fmul (fmul Scenario.one Scenario.one) Scenario.one))
               (rd indet_float (cells (m_ptAxx Scenario.src_two)) (Z.of_nat 0 * 2 + 0))).
Proof.
  destruct (addsrc_subtracts_scaled_sample Scenario.src_two 0 Scenario.one Scenario.half
              2 2 3 Scenario.pd0 0 XX) as (Hstep & _); [cbn; lia |].
  exact Hstep.
Defined.

(** The scenario of the text file with one node and two sample lines:
    with [DT/DH^3 = 0.5] the xx component at the node goes from 10 to
    9.5 and then to 6.5, and the xy component from 10 to 7 and then to
    6.5. *)
Example two_steps_on_one_node :
  let cell := locate Scenario.src1 3 Scenario.pd0 0 in
  cell = (0, 1, 2, 4)
  /\ stress_at Scenario.pd1 XX cell = Binary32.of_bits 1092091904
  /\ stress_at Scenario.pd2 XX cell = Binary32.of_bits 1087373312
  /\ stress_at Scenario.pd1 XY cell = Binary32.of_bits 1088421888
  /\ stress_at Scenario.pd2 XY cell = Binary32.of_bits 1087373312
  /\ stress_at Scenario.pd2 XX (0, 1, 2, 3) = Scenario.ten.
Proof. cbv zeta. repeat split; by_evaluation. Qed.

(** Two owned nodes on one grid point: the cell loses both samples,
    one after the other. *)
Example two_nodes_on_one_cell :
  let pd' := addsrc Scenario.src_same 0 Scenario.one Scenario.half 2 2 3 Scenario.pd0 in
  let cell := locate Scenario.src_same 3 Scenario.pd0 0 in
  locate Scenario.src_same 3 Scenario.pd0 1 = cell
  /\ stress_at pd' XX cell
     = fsub (fsub Scenario.ten (fmul Scenario.half (Binary32.of_Z 1)))
            (fmul Scenario.half (Binary32.of_Z 2)).
Proof. cbv zeta. split; by_evaluation. Qed.

(** * Further properties of [inisource] and [addsrc] *)

(** ** Selectors outside 0, 1 and 2 *)

(** X1.  With at least one node, a selector of 3 or more makes
    [inisource] return 0 at once, with no effect and the outputs as
    they were: the unknown mode is not reported.  A negative selector
    passes the test [IFAULT<=1], allocates the catalog and then tests
    [file], which no branch has set. *)
Theorem inisource_other_selectors `{Platform} (mpi : Mpi) (fs : string -> option string)
    (IFAULT NSRC READ_STEP NST maxdim NZ : Z) (INSRC INSRC_I2 : string) (out : Sources) :
  1 <= NSRC -> IFAULT < 0 \/ 3 <= IFAULT ->
  inisource mpi fs IFAULT NSRC READ_STEP NST maxdim NZ INSRC INSRC_I2 out
  = if IFAULT <? 0 then Undefined (catalog_allocs NSRC maxdim READ_STEP)
    else Returned 0 out [].
Proof.
  intros Hn Hm. unfold inisource.
  destruct (Z.ltb_spec NSRC 1); [lia |].
  destruct (Z.ltb_spec IFAULT 0).
  - destruct (Z.leb_spec IFAULT 1); [| lia].
    destruct (Z.eqb_spec IFAULT 1); [lia |].
    destruct (Z.eqb_spec IFAULT 0); [lia | done].
  - destruct (Z.leb_spec IFAULT 1); [lia |].
    destruct (Z.eqb_spec IFAULT 2); [lia | done].
Qed.

Lemma inisource_other_selectors_witness :
  inisource Scenario.mpi0 Scenario.fs0 3 1 2 2 3 5 "src.bin" "" Scenario.out0
  = Returned 0 Scenario.out0 [].
Proof.
  apply (inisource_other_selectors Scenario.mpi0 Scenario.fs0 3 1 2 2 3 5); lia.
Defined.

(** ** What a load hands back *)

Section Handed.
Context `{Platform}.
Variables (mpi : Mpi) (fs : string -> option string).
Variables (IFAULT NSRC READ_STEP NST NZ : Z) (INSRC INSRC_I2 content : string).
Variable out : Sources.
Hypothesis Hnodes : 1 <= NSRC.
Hypothesis Hmode : IFAULT = 0 \/ IFAULT = 1.
Hypothesis Hfile : fs INSRC = Some content.

Local Abbreviation cat := (loaded_catalog IFAULT NSRC READ_STEP NST 3 NZ INSRC content).
Local Abbreviation own := (owned_nodes (bounds_of mpi) NSRC (tpsrc cat)).

Lemma owned_node_in_box (k i : nat) :
  own !! k = Some i ->
  (i < Z.to_nat NSRC)%nat
  /\ in_box (bounds_of mpi) (gx (tpsrc cat) i) (gy (tpsrc cat) i) (gz (tpsrc cat) i).
Proof.
  intros Hk. apply list_elem_of_lookup_2 in Hk. unfold owned_nodes in Hk.
  apply list_elem_of_filter in Hk as [Hbox Hk].
  apply list_elem_of_In, in_seq in Hk. split; [lia | done].
Qed.

(** The run of [inisource] with its outputs as tables over the nodes
    inside the box. *)
Lemma inisource_tables :
  exists out' log',
    inisource mpi fs IFAULT NSRC READ_STEP NST 3 NZ INSRC INSRC_I2 out
    = Returned 0 out' (loaded_log IFAULT NSRC READ_STEP NST 3 NZ INSRC content ++ log')
    /\ m_nPsrc out' = Z.of_nat (length own)
    /\ m_srcProc out' = match own with [] => -1 | _ => m_rank mpi end
    /\ cells (m_ptpSrc out') = flat_map (remap (bounds_of mpi) (tpsrc cat)) own
    /\ (forall c, cells (m_ptA out' c) = flat_map (row READ_STEP (ta cat c)) own)
    /\ log' = match own with
              | [] => replicate 6 EDelloc1D ++ [EDelloc1P]
              | _ => EAlloc1P (Z.of_nat (length own) * 3)
                     :: replicate 6 (EAlloc1D (Z.of_nat (length own) * READ_STEP))
                     ++ replicate 6 EDelloc1D ++ [EDelloc1P]
              end.
Proof.
  eexists _, _. split; [by apply inisource_loaded |].
  rewrite resolve_spec. destruct own as [| i l]; cbn [fst snd].
  - repeat split. by intros [].
  - repeat split. by intros [].
Qed.

End Handed.

(** X2.  After a load, [NPSRC] lies between 0 and [NSRC], and
    [SRCPROC] is -1 when [NPSRC] is 0 and the rank of the process
    otherwise. *)
Theorem npsrc_and_srcproc_agree `{Platform} (mpi : Mpi) (fs : string -> option string)
    (IFAULT NSRC READ_STEP NST NZ : Z) (INSRC INSRC_I2 content : string) (out : Sources) :
  1 <= NSRC -> IFAULT = 0 \/ IFAULT = 1 -> fs INSRC = Some content ->
  exists out' log,
    inisource mpi fs IFAULT NSRC READ_STEP NST 3 NZ INSRC INSRC_I2 out = Returned 0 out' log
    /\ 0 <= m_nPsrc out' <= NSRC
    /\ m_srcProc out' = if m_nPsrc out' =? 0 then -1 else m_rank mpi.
Proof.
  intros Hn Hm Hfs.
  destruct (inisource_tables mpi fs IFAULT NSRC READ_STEP NST NZ INSRC INSRC_I2 content out
              Hn Hm Hfs) as (out' & log' & Hrun & Hcount & Hproc & _).
  eexists out', _. split; [exact Hrun |].
  rewrite Hcount, Hproc. split.
  - pose proof (length_filter
                  (fun i => in_box (bounds_of mpi)
                              (gx (tpsrc (loaded_catalog IFAULT NSRC READ_STEP NST 3 NZ
                                            INSRC content)) i)
                              (gy (tpsrc (loaded_catalog IFAULT NSRC READ_STEP NST 3 NZ
                                            INSRC content)) i)
                              (gz (tpsrc (loaded_catalog IFAULT NSRC READ_STEP NST 3 NZ
                                            INSRC content)) i))
                  (seq 0 (Z.to_nat NSRC))) as Hlen.
    rewrite length_seq in Hlen. unfold owned_nodes. lia.
  - by destruct (owned_nodes _ _ _).
Qed.

Lemma npsrc_and_srcproc_agree_witness :
  exists out' log,
    inisource Scenario.mpi1 Scenario.fs0 0 3 1 1 3 5 "src3.txt" "" Scenario.out0
    = Returned 0 out' log
    /\ 0 <= m_nPsrc out' <= 3.
Proof.
  destruct (npsrc_and_srcproc_agree Scenario.mpi1 Scenario.fs0
              0 3 1 1 5 "src3.txt" "" Scenario.txt3 Scenario.out0)
    as (out' & log & Hrun & Hrange & _); [lia | by left | reflexivity |].
  exists out', log. split; [exact Hrun | exact Hrange].
Defined.

(** X3.  After a load, every coordinate in the owned table lies between
    1 and the range of the process on its axis, so the zero-based
    indices that [addsrc] passes to the patch decomposition lie between
    0 and the range minus 1. *)
Theorem local_coordinates_within_range `{Platform} (mpi : Mpi) (fs : string -> option string)
    (IFAULT NSRC READ_STEP NST NZ : Z) (INSRC INSRC_I2 content : string) (out : Sources) :
  1 <= NSRC -> IFAULT = 0 \/ IFAULT = 1 -> fs INSRC = Some content ->
  exists out' log,
    inisource mpi fs IFAULT NSRC READ_STEP NST 3 NZ INSRC INSRC_I2 out = Returned 0 out' log
    /\ forall k, 0 <= k < m_nPsrc out' ->
         1 <= rd indet_int (cells (m_ptpSrc out')) (k * 3) <= m_rangeX mpi
         /\ 1 <= rd indet_int (cells (m_ptpSrc out')) (k * 3 + 1) <= m_rangeY mpi
         /\ 1 <= rd indet_int (cells (m_ptpSrc out')) (k * 3 + 2) <= m_rangeZ mpi.
Proof.
  intros Hn Hm Hfs.
  destruct (inisource_tables mpi fs IFAULT NSRC READ_STEP NST NZ INSRC INSRC_I2 content out
              Hn Hm Hfs) as (out' & log' & Hrun & Hcount & _ & HP & _).
  eexists out', _. split; [exact Hrun |].
  intros k Hk. rewrite Hcount in Hk.
  set (tp := tpsrc (loaded_catalog IFAULT NSRC READ_STEP NST 3 NZ INSRC content)) in *.
  destruct (lookup_lt_is_Some_2 (owned_nodes (bounds_of mpi) NSRC tp) (Z.to_nat k))
    as [i Hi]; [lia |].
  destruct (owned_node_in_box mpi IFAULT NSRC READ_STEP NST NZ INSRC content _ _ Hi)
    as (_ & Hbox). fold tp in Hbox.
  destruct (remap_flat_map (bounds_of mpi) tp _ _ _ Hi) as (Hx & Hy & Hz).
  rewrite Z2Nat.id in Hx, Hy, Hz by lia.
  rewrite HP, Hx, Hy, Hz.
  unfold in_box, bounds_of in *. cbn [nbx nex nby ney nbz nez] in *. lia.
Qed.

Lemma local_coordinates_within_range_witness :
  exists out' log,
    inisource Scenario.mpi0 Scenario.fs0 1 2 2 2 3 5 "src.bin" "" Scenario.out0
    = Returned 0 out' log
    /\ 1 <= rd (@indet_int Binary32.platform) (cells (m_ptpSrc out')) (1 * 3 + 2) <= 5.
Proof.
  destruct (local_coordinates_within_range Scenario.mpi0 Scenario.fs0
              1 2 2 2 5 "src.bin" "" Scenario.bin2 Scenario.out0)
    as (out' & log & Hrun & Hloc); [lia | by right | reflexivity |].
  exists out', log. split; [exact Hrun |].
  assert (Hk : 0 <= 1 < m_nPsrc out').
  { apply (f_equal returned) in Hrun.
    assert (Hret : returned
                     (inisource Scenario.mpi0 Scenario.fs0 1 2 2 2 3 5 "src.bin" ""
                        Scenario.out0) = Some (0, 2)) by by_evaluation.
    rewrite Hret in Hrun. cbn in Hrun. injection Hrun as Hrun. lia. }
  by destruct (Hloc 1 Hk) as (_ & _ & Hz).
Defined.

(** X4.  A process whose range is empty on one of the axes owns no
    node, whatever the catalog holds: after a load [SRCPROC] is -1,
    [NPSRC] is 0 and the seven table pointers are [NULL]. *)
Theorem empty_range_owns_nothing `{Platform} (mpi : Mpi) (fs : string -> option string)
    (IFAULT NSRC READ_STEP NST NZ : Z) (INSRC INSRC_I2 content : string) (out : Sources) :
  1 <= NSRC -> IFAULT = 0 \/ IFAULT = 1 -> fs INSRC = Some content ->
  m_rangeX mpi <= 0 \/ m_rangeY mpi <= 0 \/ m_rangeZ mpi <= 0 ->
  exists out' log,
    inisource mpi fs IFAULT NSRC READ_STEP NST 3 NZ INSRC INSRC_I2 out = Returned 0 out' log
    /\ m_srcProc out' = -1
    /\ m_nPsrc out' = 0
    /\ m_ptpSrc out' = None
    /\ forall c, m_ptA out' c = None.
Proof.
  intros Hn Hm Hfs Hempty.
  destruct (inisource_setup mpi fs IFAULT NSRC READ_STEP NST NZ INSRC INSRC_I2 content out
              Hn Hm Hfs) as (out' & log' & Hrun & _ & Hproc & Hcount & Htp & Hta).
  assert (Hown : owned_nodes (bounds_of mpi) NSRC
                   (tpsrc (loaded_catalog IFAULT NSRC READ_STEP NST 3 NZ INSRC content))
                 = []).
  { unfold owned_nodes. apply filter_none. intros i _.
    unfold in_box, bounds_of. cbn [nbx nex nby ney nbz nez]. lia. }
  rewrite Hown in Hproc, Hcount, Htp, Hta.
  eexists out', _. split; [exact Hrun |]. done.
Qed.

Lemma empty_range_owns_nothing_witness :
  exists out' log,
    inisource Scenario.mpi_empty Scenario.fs0 0 3 1 1 3 5 "src3.txt" "" Scenario.out0
    = Returned 0 out' log
    /\ m_srcProc out' = -1.
Proof.
  destruct (empty_range_owns_nothing Scenario.mpi_empty Scenario.fs0
              0 3 1 1 5 "src3.txt" "" Scenario.txt3 Scenario.out0)
    as (out' & log & Hrun & Hproc & _);
    [lia | by left | reflexivity | left; cbn; lia |].
  exists out', log. split; [exact Hrun | exact Hproc].
Defined.

(** X5.  Processes whose index ranges [start, start + range) do not
    overlap, pair by pair, on at least one axis have boxes of which no
    two share a point: the offset of 2 on x and y shifts every box
    alike. *)
Theorem apart_processes_have_disjoint_boxes (procs : list Mpi) :
  ForallOrdPairs apart procs -> disjoint_boxes procs.
Proof.
  unfold disjoint_boxes.
  induction 1 as [| p ps Hp _ IH]; constructor; [| exact IH].
  eapply Forall_impl; [exact Hp |]. intros q Hq x y z.
  unfold apart, in_box, bounds_of in *. cbn [nbx nex nby ney nbz nez]. lia.
Qed.

Lemma apart_processes_have_disjoint_boxes_witness :
  disjoint_boxes [Scenario.mpi0; Scenario.mpi1; Scenario.mpi_empty].
Proof.
  apply apart_processes_have_disjoint_boxes.
  repeat constructor; unfold apart; cbn; lia.
Defined.

(** ** The injector over the whole table *)

Section WholeCall.
Context `{Platform}.
Variables (s : Sources) (i : Z) (DH DT : float) (READ_STEP dim : Z) (pd : PatchDecomp).

Local Abbreviation upto n := (addsrc_upto n s i DH DT READ_STEP dim pd).

Lemma lookups_upto (n : nat) :
  globalToPatch (upto n) = globalToPatch pd
  /\ globalToLocalX (upto n) = globalToLocalX pd
  /\ globalToLocalY (upto n) = globalToLocalY pd
  /\ globalToLocalZ (upto n) = globalToLocalZ pd.
Proof.
  induction n as [| n IH]; [done |].
  rewrite addsrc_upto_S. unfold addsrc_node.
  destruct (locate s dim (upto n) n) as [[[p x] y] z]. exact IH.
Qed.

Lemma stress_accumulated (n : nat) (c : channel) (l : Z * Z * Z * Z) :
  stress_at (upto n) c l
  = fold_left (fun S j => fsub S (fmul (vtst DH DT) (sample s READ_STEP c j i)))
              (filter (fun j => locate s dim pd j = l) (seq 0 n))
              (stress_at pd c l).
Proof.
  induction n as [| n IH]; [done |].
  rewrite addsrc_node_stress, seq_S, filter_app, fold_left_app, <- IH.
  cbn [Nat.add]. rewrite filter_cons, filter_nil.
  destruct (decide (l = locate s dim pd n)) as [-> | Hne].
  - by rewrite decide_True.
  - by rewrite decide_False.
Qed.

End WholeCall.

(** X6.  [addsrc] changes the stress field only at the cells of owned
    nodes: at a cell where no owned node sits, all six components are
    after the call what they were before, and the coordinate lookups of
    the patch decomposition are never changed. *)
Theorem addsrc_touches_only_owned_cells `{Platform}
    (s : Sources) (i : Z) (DH DT : float) (NST READ_STEP dim : Z) (pd : PatchDecomp)
    (l : Z * Z * Z * Z) :
  (forall j, (j < Z.to_nat (m_nPsrc s))%nat -> locate s dim pd j <> l) ->
  let pd' := addsrc s i DH DT NST READ_STEP dim pd in
  (forall c, stress_at pd' c l = stress_at pd c l)
  /\ globalToPatch pd' = globalToPatch pd
  /\ globalToLocalX pd' = globalToLocalX pd
  /\ globalToLocalY pd' = globalToLocalY pd
  /\ globalToLocalZ pd' = globalToLocalZ pd.
Proof.
  intros Hl pd'. subst pd'. unfold addsrc.
  split; [| apply lookups_upto].
  intros c. by apply stress_untouched.
Qed.

Lemma addsrc_touches_only_owned_cells_witness :
  stress_at (addsrc Scenario.src_two 0 Scenario.one Scenario.half 2 2 3 Scenario.pd0)
            XY (0, 7, 7, 7)
  = stress_at Scenario.pd0 XY (0, 7, 7, 7).
Proof.
  destruct (addsrc_touches_only_owned_cells Scenario.src_two 0 Scenario.one Scenario.half
              2 2 3 Scenario.pd0 (0, 7, 7, 7)) as (Hsame & _).
  - intros j Hj. assert (j = 0 \/ j = 1)%nat as [-> | ->] by (cbn in Hj; lia); by vm_compute.
  - exact (Hsame XY).
Defined.

(** X7.  After [addsrc], component [c] at any cell is its value before
    the call from which the scaled samples of the owned nodes sitting
    at that cell were subtracted one after the other, in table order;
    nodes that share a cell accumulate. *)
Theorem addsrc_accumulates_in_table_order `{Platform}
    (s : Sources) (i : Z) (DH DT : float) (NST READ_STEP dim : Z) (pd : PatchDecomp)
    (c : channel) (l : Z * Z * Z * Z) :
  stress_at (addsrc s i DH DT NST READ_STEP dim pd) c l
  = fold_left
      (fun S j =>
         fsub S (fmul (fdiv DT (fmul (fmul DH DH) DH))
                      (rd indet_float (cells (m_ptA s c)) (Z.of_nat j * READ_STEP + i))))
      (nodes_at s dim pd l)
      (stress_at pd c l).
Proof. unfold addsrc, nodes_at. apply stress_accumulated. Qed.

(** ** Setup followed by injection *)



(** X9.  For a process in whose box no catalog node lies, setup
    followed by [addsrc] leaves the stress field and the patch
    decomposition exactly as they were, at every window position. *)
Theorem unowned_process_injects_nothing `{Platform} (mpi : Mpi) (fs : string -> option string)
    (IFAULT NSRC READ_STEP NST NZ : Z) (INSRC INSRC_I2 content : string) (out : Sources) :
  1 <= NSRC -> IFAULT = 0 \/ IFAULT = 1 -> fs INSRC = Some content ->
  let tp := tpsrc (loaded_catalog IFAULT NSRC READ_STEP NST 3 NZ INSRC content) in
  (forall i, (i < Z.to_nat NSRC)%nat ->
     ~ in_box (bounds_of mpi) (gx tp i) (gy tp i) (gz tp i)) ->
  exists out' log,
    inisource mpi fs IFAULT NSRC READ_STEP NST 3 NZ INSRC INSRC_I2 out = Returned 0 out' log
    /\ forall i0 DH DT pd, addsrc out' i0 DH DT NST READ_STEP 3 pd = pd.
Proof.
  intros Hn Hm Hfs tp Hnone.
  destruct (inisource_tables mpi fs IFAULT NSRC READ_STEP NST NZ INSRC INSRC_I2 content out
              Hn Hm Hfs) as (out' & log' & Hrun & Hcount & _).
  eexists out', _. split; [exact Hrun |].
  intros i0 DH DT pd. unfold addsrc. rewrite Hcount.
  replace (owned_nodes (bounds_of mpi) NSRC
             (tpsrc (loaded_catalog IFAULT NSRC READ_STEP NST 3 NZ INSRC content)))
    with (@nil nat); [done |].
  symmetry. unfold owned_nodes. apply filter_none. intros i Hi.
  apply Hnone. apply in_seq in Hi. lia.
Qed.

Lemma unowned_process_injects_nothing_witness :
  exists out' log,
    inisource Scenario.mpi_empty Scenario.fs0 0 3 1 1 3 5 "src3.txt" "" Scenario.out0
    = Returned 0 out' log
    /\ forall i0 DH DT pd, addsrc out' i0 DH DT 1 1 3 pd = pd.
Proof.
  apply (unowned_process_injects_nothing Scenario.mpi_empty Scenario.fs0
           0 3 1 1 5 "src3.txt" "" Scenario.txt3 Scenario.out0);
    [lia | by left | reflexivity |].
  intros i _. unfold in_box, bounds_of. cbn [nbx nex nby ney nbz nez Scenario.mpi_empty
    m_startX m_rangeX]. lia.
Defined.

(** ** Storage and the file handle *)

Section LogShape.
Context `{Platform}.
Variables (IFAULT NSRC READ_STEP NST maxdim NZ : Z) (INSRC content : string).
Hypothesis Hmode : IFAULT = 0 \/ IFAULT = 1.

(** Whatever the file holds, the loading phase logs its allocations,
    one [fopen], reads, the release of [tmpta] in binary mode and one
    [fclose]. *)
Lemma loaded_log_filter (P : event -> bool) :
  (forall n got, P (EFread n got) = false) -> (forall n, P (EFscanf n) = false) ->
  List.filter P (loaded_log IFAULT NSRC READ_STEP NST maxdim NZ INSRC content)
  = List.filter P
      (catalog_allocs NSRC maxdim READ_STEP ++ [EFopen INSRC (open_mode IFAULT)]
         ++ (if IFAULT =? 1 then [EAlloc1D (NST * 6); EDelloc1D] else []) ++ [EFclose]).
Proof.
  intros Hread Hscan. unfold loaded_log, read_binary, read_text, open_mode.
  destruct Hmode as [-> | ->]; cbn [Z.eqb Pos.eqb].
  - rewrite List.filter_app, load_text_log by done. cbn [t_log].
    rewrite <- List.filter_app. by rewrite <- ?app_assoc.
  - rewrite List.filter_app, load_binary_log by done. cbn [b_log].
    rewrite <- List.filter_app. by rewrite <- ?app_assoc.
Qed.

End LogShape.

(** X10.  In a run that loads its file, every block allocated for the
    catalog, and [tmpta] in binary mode, is released before the return,
    and what stays allocated is the seven owned tables, and only when
    the process owns a node.  The allocation and release events of the
    run are, in this order: [Alloc1P] for [tpsrc] and six [Alloc1D] for
    the catalog's sample tables; in binary mode [Alloc1D] for [tmpta]
    and, after the reads, its [Delloc1D]; when [NPSRC > 0], [Alloc1P]
    and six [Alloc1D] for the owned tables; six [Delloc1D] for the
    catalog's sample tables and one [Delloc1P] for [tpsrc]. *)
Theorem load_releases_all_but_owned_tables `{Platform}
    (mpi : Mpi) (fs : string -> option string)
    (IFAULT NSRC READ_STEP NST NZ : Z) (INSRC INSRC_I2 content : string) (out : Sources) :
  1 <= NSRC -> IFAULT = 0 \/ IFAULT = 1 -> fs INSRC = Some content ->
  exists out' log,
    inisource mpi fs IFAULT NSRC READ_STEP NST 3 NZ INSRC INSRC_I2 out = Returned 0 out' log
    /\ List.filter is_free log
       = (if IFAULT =? 1 then [EDelloc1D] else [])
         ++ [EDelloc1D; EDelloc1D; EDelloc1D; EDelloc1D; EDelloc1D; EDelloc1D; EDelloc1P]
    /\ List.filter is_alloc log
       = [EAlloc1P (NSRC * 3);
          EAlloc1D (NSRC * READ_STEP); EAlloc1D (NSRC * READ_STEP);
          EAlloc1D (NSRC * READ_STEP); EAlloc1D (NSRC * READ_STEP);
          EAlloc1D (NSRC * READ_STEP); EAlloc1D (NSRC * READ_STEP)]
         ++ (if IFAULT =? 1 then [EAlloc1D (NST * 6)] else [])
         ++ (if m_nPsrc out' =? 0 then []
             else [EAlloc1P (m_nPsrc out' * 3);
                   EAlloc1D (m_nPsrc out' * READ_STEP); EAlloc1D (m_nPsrc out' * READ_STEP);
                   EAlloc1D (m_nPsrc out' * READ_STEP); EAlloc1D (m_nPsrc out' * READ_STEP);
                   EAlloc1D (m_nPsrc out' * READ_STEP); EAlloc1D (m_nPsrc out' * READ_STEP)])
    /\ List.filter (fun e => is_alloc e || is_free e) log
       = [EAlloc1P (NSRC * 3);
          EAlloc1D (NSRC * READ_STEP); EAlloc1D (NSRC * READ_STEP);
          EAlloc1D (NSRC * READ_STEP); EAlloc1D (NSRC * READ_STEP);
          EAlloc1D (NSRC * READ_STEP); EAlloc1D (NSRC * READ_STEP)]
         ++ (if IFAULT =? 1 then [EAlloc1D (NST * 6); EDelloc1D] else [])
         ++ (if m_nPsrc out' =? 0 then []
             else [EAlloc1P (m_nPsrc out' * 3);
                   EAlloc1D (m_nPsrc out' * READ_STEP); EAlloc1D (m_nPsrc out' * READ_STEP);
                   EAlloc1D (m_nPsrc out' * READ_STEP); EAlloc1D (m_nPsrc out' * READ_STEP);
                   EAlloc1D (m_nPsrc out' * READ_STEP); EAlloc1D (m_nPsrc out' * READ_STEP)])
         ++ [EDelloc1D; EDelloc1D; EDelloc1D; EDelloc1D; EDelloc1D; EDelloc1D; EDelloc1P].
Proof.
  intros Hn Hm Hfs.
  destruct (inisource_tables mpi fs IFAULT NSRC READ_STEP NST NZ INSRC INSRC_I2 content out
              Hn Hm Hfs) as (out' & log' & Hrun & Hcount & _ & _ & _ & Hlog).
  eexists out', _. split; [exact Hrun |].
  rewrite !List.filter_app.
  rewrite (loaded_log_filter IFAULT NSRC READ_STEP NST 3 NZ INSRC content Hm is_free),
    (loaded_log_filter IFAULT NSRC READ_STEP NST 3 NZ INSRC content Hm is_alloc),
    (loaded_log_filter IFAULT NSRC READ_STEP NST 3 NZ INSRC content Hm
       (fun e => is_alloc e || is_free e)) by done.
  rewrite Hcount, Hlog. unfold catalog_allocs.
  destruct (owned_nodes _ _ _) as [| i0 own]; destruct Hm as [-> | ->]; done.
Qed.

Lemma load_releases_all_but_owned_tables_witness :
  exists out' log,
    inisource Scenario.mpi0 Scenario.fs0 1 2 2 2 3 5 "src.bin" "" Scenario.out0
    = Returned 0 out' log
    /\ List.filter is_free log
       = [EDelloc1D; EDelloc1D; EDelloc1D; EDelloc1D; EDelloc1D; EDelloc1D; EDelloc1D;
          EDelloc1P].
Proof.
  destruct (load_releases_all_but_owned_tables Scenario.mpi0 Scenario.fs0
              1 2 2 2 5 "src.bin" "" Scenario.bin2 Scenario.out0)
    as (out' & log & Hrun & Hfree & _); [lia | by right | reflexivity |].
  exists out', log. split; [exact Hrun | exact Hfree].
Defined.

(** X11.  When the file cannot be opened, [inisource] returns with the
    catalog, and [tmpta] in binary mode, still allocated: the log holds
    the allocations of the loading phase, one [fopen], the diagnostic,
    and no release, no read and no [fclose]. *)
Theorem open_failure_releases_nothing `{Platform}
    (mpi : Mpi) (fs : string -> option string)
    (IFAULT NSRC READ_STEP NST maxdim NZ : Z) (INSRC INSRC_I2 : string) (out : Sources) :
  1 <= NSRC -> IFAULT = 0 \/ IFAULT = 1 -> fs INSRC = None ->
  exists log,
    inisource mpi fs IFAULT NSRC READ_STEP NST maxdim NZ INSRC INSRC_I2 out
    = Returned 0 out log
    /\ List.filter is_alloc log = loading_allocs IFAULT NSRC READ_STEP NST maxdim
    /\ List.filter is_free log = []
    /\ List.filter is_read log = []
    /\ List.filter is_open_close log = [EFopen INSRC (open_mode IFAULT)]
    /\ List.filter is_diagnostic log = [EPrintf (cant_open INSRC)].
Proof.
  intros Hn Hm Hfs. eexists. split; [by apply inisource_open_failed |].
  unfold loading_allocs, catalog_allocs, open_mode.
  destruct Hm as [-> | ->]; done.
Qed.

Lemma open_failure_releases_nothing_witness :
  exists log,
    inisource Scenario.mpi0 Scenario.fs0 0 1 2 2 3 5 "missing.txt" "" Scenario.out0
    = Returned 0 Scenario.out0 log
    /\ List.filter is_alloc log = loading_allocs 0 1 2 2 3.
Proof.
  destruct (open_failure_releases_nothing Scenario.mpi0 Scenario.fs0
              0 1 2 2 3 5 "missing.txt" "" Scenario.out0)
    as (log & Hrun & Halloc & _); [lia | by left | reflexivity |].
  exists log. split; [exact Hrun | exact Halloc].
Defined.

(** X12.  In a run that loads its file, whatever the file holds, the
    file is opened once, with mode "rb" in binary mode and "r" in
    text mode, and closed once, and no diagnostic is written: nodes
    that fall outside the box and records that the file does not hold
    are passed over in silence. *)
Theorem load_opens_and_closes_once_in_silence `{Platform}
    (mpi : Mpi) (fs : string -> option string)
    (IFAULT NSRC READ_STEP NST NZ : Z) (INSRC INSRC_I2 content : string) (out : Sources) :
  1 <= NSRC -> IFAULT = 0 \/ IFAULT = 1 -> fs INSRC = Some content ->
  exists out' log,
    inisource mpi fs IFAULT NSRC READ_STEP NST 3 NZ INSRC INSRC_I2 out = Returned 0 out' log
    /\ List.filter is_open_close log = [EFopen INSRC (open_mode IFAULT); EFclose]
    /\ List.filter is_diagnostic log = [].
Proof.
  intros Hn Hm Hfs.
  destruct (inisource_tables mpi fs IFAULT NSRC READ_STEP NST NZ INSRC INSRC_I2 content out
              Hn Hm Hfs) as (out' & log' & Hrun & _ & _ & _ & _ & Hlog).
  eexists out', _. split; [exact Hrun |].
  rewrite !List.filter_app.
  rewrite (loaded_log_filter IFAULT NSRC READ_STEP NST 3 NZ INSRC content Hm is_open_close),
          (loaded_log_filter IFAULT NSRC READ_STEP NST 3 NZ INSRC content Hm is_diagnostic)
    by done.
  rewrite Hlog. unfold catalog_allocs.
  destruct (owned_nodes _ _ _) as [| i0 own]; destruct Hm as [-> | ->]; done.
Qed.

Lemma load_opens_and_closes_once_in_silence_witness :
  exists out' log,
    inisource Scenario.mpi0 Scenario.fs0 0 3 1 1 3 5 "src3.txt" "" Scenario.out0
    = Returned 0 out' log
    /\ List.filter is_diagnostic log = [].
Proof.
  destruct (load_opens_and_closes_once_in_silence Scenario.mpi0 Scenario.fs0
              0 3 1 1 5 "src3.txt" "" Scenario.txt3 Scenario.out0)
    as (out' & log & Hrun & _ & Hdiag); [lia | by left | reflexivity |].
  exists out', log. split; [exact Hrun | exact Hdiag].
Defined.

(** ** Files that hold fewer records than [NSRC] *)

Section ShortBinary.
Context `{Platform}.
Variables (READ_STEP NST NZ : Z) (ws : list Z).
Hypothesis Hnst : 1 <= NST.

Local Abbreviation R := (bin_record NST).
Local Abbreviation coords :=
  (fun i => [bin_coord ws NST i 0; bin_coord ws NST i 1; NZ + 1 - bin_coord ws NST i 2]).
Local Abbreviation samples :=
  (fun c i => map (fun j => rd indet_float (bin_block ws NST i) (Z.of_nat j * 6 + chan_off c))
                  (seq 0 (Z.to_nat READ_STEP))).

(** The loading loop over the first [n] nodes when the file holds at
    least [n] records; the catalog may be larger. *)
Lemma load_binary_records (st0 : BinSt) (n : nat) :
  (n * R <= length ws)%nat ->
  b_file st0 = ws ->
  length (b_tmpsrc st0) = 3%nat ->
  length (b_tmpta st0) = (6 * Z.to_nat NST)%nat ->
  (3 * n <= length (tpsrc (b_cat st0)))%nat ->
  (forall c, (Z.to_nat READ_STEP * n <= length (ta (b_cat st0) c))%nat) ->
  let st := fold_left (binary_node 3 READ_STEP NST NZ) (seq 0 n) st0 in
  b_file st = drop (n * R) ws
  /\ length (b_tmpsrc st) = 3%nat
  /\ length (b_tmpta st) = (6 * Z.to_nat NST)%nat
  /\ tpsrc (b_cat st) = flat_map coords (seq 0 n) ++ drop (3 * n) (tpsrc (b_cat st0))
  /\ (forall c, ta (b_cat st) c
                = flat_map (samples c) (seq 0 n)
                    ++ drop (Z.to_nat READ_STEP * n) (ta (b_cat st0) c))
  /\ b_log st
     = b_log st0
         ++ flat_map (fun _ => [EFread 3 3; EFread (NST * 6) (NST * 6)]) (seq 0 n).
Proof.
  intros Hws Hfile Hsrc Hta.
  induction n as [| n IH]; intros HlenP HlenA st; subst st.
  - cbn [seq fold_left flat_map]. rewrite !Nat.mul_0_r, !drop_0, app_nil_r.
    repeat split; done.
  - rewrite seq_S, fold_left_app. cbn [fold_left Nat.add].
    destruct IH as (Hf & Hs & Ht & HP & HA & Hlog);
      [lia | lia | intros c; specialize (HlenA c); lia |].
    set (st := fold_left (binary_node 3 READ_STEP NST NZ) (seq 0 n) st0) in *.
    destruct (binary_node_complete READ_STEP NST NZ ws Hnst n st
                (flat_map coords (seq 0 n)) (drop (3 * n) (tpsrc (b_cat st0)))
                (fun c => flat_map (samples c) (seq 0 n))
                (fun c => drop (Z.to_nat READ_STEP * n) (ta (b_cat st0) c)))
      as (Hf' & Hs' & Ht' & HP' & HA' & Hlog'); try done.
    + lia.
    + rewrite (length_flat_map_block _ 3) by done. rewrite length_seq. lia.
    + rewrite length_drop. lia.
    + intros c. split; [apply HA |]. split.
      * rewrite (length_flat_map_block _ (Z.to_nat READ_STEP))
          by (intros; by rewrite length_map, length_seq).
        rewrite length_seq. lia.
      * rewrite length_drop. specialize (HlenA c). lia.
    + split; [rewrite Hf'; f_equal; lia |].
      split; [done |]. split; [done |].
      split; [| split].
      * rewrite HP', flat_map_app, drop_drop, <- !app_assoc. cbn [flat_map app].
        by replace (3 * n + 3)%nat with (3 * S n)%nat by lia.
      * intros c. rewrite HA', flat_map_app, drop_drop, <- !app_assoc.
        cbn [flat_map]. rewrite app_nil_r.
        by replace (Z.to_nat READ_STEP * n + Z.to_nat READ_STEP)%nat
          with (Z.to_nat READ_STEP * S n)%nat by lia.
      * rewrite Hlog', Hlog, flat_map_app, <- !app_assoc. done.
Qed.

(** A node at the end of the stream: the first read obtains nothing,
    the second is not issued, the catalog is not written. *)
Lemma binary_node_eof (st : BinSt) (i : nat) :
  b_file st = [] ->
  binary_node 3 READ_STEP NST NZ st i
  = {| b_file := []; b_tmpsrc := b_tmpsrc st; b_tmpta := b_tmpta st; b_cat := b_cat st;
       b_log := b_log st ++ [EFread 3 0] |}.
Proof. intros Hf. unfold binary_node, fread. rewrite Hf. done. Qed.

Lemma load_binary_eof (l : list nat) :
  forall st, b_file st = [] ->
    let st' := fold_left (binary_node 3 READ_STEP NST NZ) l st in
    b_cat st' = b_cat st
    /\ b_log st' = b_log st ++ flat_map (fun _ => [EFread 3 0]) l.
Proof.
  induction l as [| i l IH]; intros st Hf st'; subst st'.
  - cbn. by rewrite app_nil_r.
  - cbn [fold_left flat_map]. rewrite binary_node_eof by done.
    destruct (IH {| b_file := []; b_tmpsrc := b_tmpsrc st; b_tmpta := b_tmpta st;
                    b_cat := b_cat st; b_log := b_log st ++ [EFread 3 0] |} eq_refl)
      as (Hcat & Hlog).
    split; [exact Hcat |]. rewrite Hlog. cbn [b_log]. by rewrite <- app_assoc.
Qed.

(** The catalog and the log after a file of exactly [m] records was
    loaded into a catalog of [NSRC] nodes. *)
Lemma read_binary_short (NSRC : Z) (INSRC content : string) (m : nat) :
  1 <= NSRC -> ws = words_of content ->
  length ws = (m * R)%nat -> (m <= Z.to_nat NSRC)%nat ->
  let st := read_binary NSRC 3 READ_STEP NST NZ INSRC content in
  tpsrc (b_cat st)
  = flat_map coords (seq 0 m) ++ replicate (3 * (Z.to_nat NSRC - m)) indet_int
  /\ (forall c, ta (b_cat st) c
                = flat_map (samples c) (seq 0 m)
                    ++ replicate (Z.to_nat READ_STEP * (Z.to_nat NSRC - m)) indet_float)
  /\ b_log st
     = catalog_allocs NSRC 3 READ_STEP ++ [EFopen INSRC "rb"; EAlloc1D (NST * 6)]
         ++ flat_map (fun _ => [EFread 3 3; EFread (NST * 6) (NST * 6)]) (seq 0 m)
         ++ flat_map (fun _ => [EFread 3 0]) (seq m (Z.to_nat NSRC - m)).
Proof.
  intros Hn Hcontent Hlen Hm st. subst st. unfold read_binary, load_binary.
  match goal with |- context [fold_left _ _ ?s] => set (st0 := s) end.
  replace (seq 0 (Z.to_nat NSRC)) with (seq 0 m ++ seq m (Z.to_nat NSRC - m))
    by (rewrite <- seq_app; f_equal; lia).
  rewrite fold_left_app.
  assert (HlenP : length (tpsrc (b_cat st0)) = (3 * Z.to_nat NSRC)%nat).
  { subst st0. cbn [b_cat tpsrc fresh_catalog]. rewrite length_Alloc1P. lia. }
  assert (HlenA : forall c, length (ta (b_cat st0) c)
                            = (Z.to_nat READ_STEP * Z.to_nat NSRC)%nat).
  { intros c. subst st0. cbn [b_cat ta fresh_catalog].
    rewrite length_Alloc1D. apply to_nat_mul. lia. }
  destruct (load_binary_records st0 m) as (Hf & _ & _ & HP & HA & Hlog); try done.
  - lia.
  - subst st0. cbn [b_tmpta]. rewrite length_Alloc1D. lia.
  - lia.
  - intros c. rewrite HlenA. nia.
  - set (st1 := fold_left (binary_node 3 READ_STEP NST NZ) (seq 0 m) st0) in *.
    assert (Heof : b_file st1 = []).
    { rewrite Hf. apply drop_ge. lia. }
    destruct (load_binary_eof (seq m (Z.to_nat NSRC - m)) st1 Heof) as (Hcat & Hlog').
    rewrite Hcat, Hlog', Hlog. split; [| split].
    + rewrite HP. f_equal. subst st0. cbn [b_cat tpsrc fresh_catalog].
      unfold Alloc1P. rewrite drop_replicate. f_equal. lia.
    + intros c. rewrite HA. f_equal. subst st0. cbn [b_cat ta fresh_catalog].
      unfold Alloc1D. rewrite drop_replicate. f_equal.
      rewrite to_nat_mul by lia. nia.
    + subst st0. cbn [b_log]. by rewrite <- !app_assoc.
Qed.

End ShortBinary.

Section Tail.
Context {A : Type}.

Lemma rd_app_l (d : A) (a b : list A) (p : nat) :
  (p < length a)%nat -> rd d (a ++ b) (Z.of_nat p) = rd d a (Z.of_nat p).
Proof. intros Hp. rewrite !rd_nat. by rewrite lookup_app_l. Qed.

Lemma rd_app_replicate (d : A) (a : list A) (k : nat) (x : A) (p : nat) :
  (length a <= p < length a + k)%nat -> rd d (a ++ replicate k x) (Z.of_nat p) = x.
Proof.
  intros Hp. rewrite rd_nat, lookup_app_r by lia.
  by rewrite lookup_replicate_2 by lia.
Qed.

Lemma filter_flat_map_const {B : Type} (P : A -> bool) (blk : list A) (l : list B) :
  List.filter P blk = blk ->
  List.filter P (flat_map (fun _ => blk) l) = flat_map (fun _ => blk) l.
Proof.
  intros Hblk. induction l as [| x l IH]; [done |].
  cbn [flat_map]. by rewrite List.filter_app, Hblk, IH.
Qed.

End Tail.

(** X13.  In binary mode, when the file holds exactly [m] records and
    [NSRC] is larger, [inisource] still returns 0: the first [m] nodes
    are loaded, and for each node after them one read of three items is
    issued that obtains nothing, the read of the samples is not issued,
    and the node's three coordinates and its sample cells keep what the
    allocator left in them, to be tested for ownership like the
    others. *)
Theorem short_binary_file_leaves_nodes_unwritten `{Platform}
    (mpi : Mpi) (fs : string -> option string)
    (NSRC READ_STEP NST NZ : Z) (INSRC INSRC_I2 content : string) (out : Sources)
    (m : nat) :
  1 <= NSRC -> 1 <= NST -> fs INSRC = Some content ->
  length (words_of content) = (m * bin_record NST)%nat -> (m <= Z.to_nat NSRC)%nat ->
  let ws := words_of content in
  let cat := loaded_catalog 1 NSRC READ_STEP NST 3 NZ INSRC content in
  let tp := tpsrc cat in
  (exists out' log,
      inisource mpi fs 1 NSRC READ_STEP NST 3 NZ INSRC INSRC_I2 out = Returned 0 out' log
      /\ List.filter is_read log
         = flat_map (fun _ => [EFread 3 3; EFread (NST * 6) (NST * 6)]) (seq 0 m)
             ++ flat_map (fun _ => [EFread 3 0]) (seq m (Z.to_nat NSRC - m)))
  /\ (forall i, (i < m)%nat ->
        gx tp i = bin_coord ws NST i 0
        /\ gy tp i = bin_coord ws NST i 1
        /\ gz tp i = NZ + 1 - bin_coord ws NST i 2)
  /\ (forall i, (m <= i < Z.to_nat NSRC)%nat ->
        gx tp i = indet_int /\ gy tp i = indet_int /\ gz tp i = indet_int
        /\ forall c j, (j < Z.to_nat READ_STEP)%nat ->
             rd indet_float (ta cat c) (Z.of_nat i * READ_STEP + Z.of_nat j) = indet_float).
Proof.
  intros Hn Hnst Hfs Hlen Hm ws cat tp.
  destruct (read_binary_short READ_STEP NST NZ ws Hnst NSRC INSRC content m
              Hn eq_refl Hlen Hm) as (HP & HA & Hlog).
  change (tp = flat_map
                 (fun i => [bin_coord ws NST i 0; bin_coord ws NST i 1;
                            NZ + 1 - bin_coord ws NST i 2]) (seq 0 m)
               ++ replicate (3 * (Z.to_nat NSRC - m)) indet_int) in HP.
  set (blocks := flat_map
                   (fun i => [bin_coord ws NST i 0; bin_coord ws NST i 1;
                              NZ + 1 - bin_coord ws NST i 2]) (seq 0 m)) in HP.
  assert (Hblocks : length blocks = (m * 3)%nat).
  { subst blocks. rewrite (length_flat_map_block _ 3) by done. by rewrite length_seq. }
  split; [| split].
  - eexists _, _. split; [by eapply inisource_loaded; [| right |] |].
    rewrite List.filter_app, resolve_reads_nothing, app_nil_r.
    unfold loaded_log. cbn [Z.eqb Pos.eqb]. rewrite Hlog.
    rewrite !List.filter_app, !filter_flat_map_const by done.
    unfold catalog_allocs. cbn [List.filter replicate is_read app]. apply app_nil_r.
  - intros i Hi. unfold gx, gy, gz. rewrite HP.
    replace (Z.of_nat i * 3) with (Z.of_nat (i * 3)) by lia.
    replace (Z.of_nat (i * 3) + 1) with (Z.of_nat (i * 3 + 1)) by lia.
    replace (Z.of_nat (i * 3) + 2) with (Z.of_nat (i * 3 + 2)) by lia.
    rewrite !rd_app_l by lia. rewrite !rd_nat. subst blocks.
    replace (i * 3)%nat with (i * 3 + 0)%nat at 1 by lia.
    rewrite !(flat_map_block _ 3 (seq 0 m) i _ i) by (done || lia || by apply lookup_seq_lt).
    done.
  - intros i Hi. unfold gx, gy, gz. rewrite HP.
    replace (Z.of_nat i * 3) with (Z.of_nat (i * 3)) by lia.
    replace (Z.of_nat (i * 3) + 1) with (Z.of_nat (i * 3 + 1)) by lia.
    replace (Z.of_nat (i * 3) + 2) with (Z.of_nat (i * 3 + 2)) by lia.
    rewrite !rd_app_replicate by lia.
    repeat split. intros c j Hj.
    change (ta cat c) with (ta (b_cat (read_binary NSRC 3 READ_STEP NST NZ INSRC content)) c).
    rewrite HA.
    replace (Z.of_nat i * READ_STEP + Z.of_nat j)
      with (Z.of_nat (i * Z.to_nat READ_STEP + j)) by lia.
    apply rd_app_replicate.
    rewrite (length_flat_map_block _ (Z.to_nat READ_STEP))
      by (intros; by rewrite length_map, length_seq).
    rewrite length_seq. nia.
Qed.

Lemma short_binary_file_leaves_nodes_unwritten_witness :
  exists out' log,
    inisource Scenario.mpi0 Scenario.fs0 1 3 2 2 3 5 "src.bin" "" Scenario.out0
    = Returned 0 out' log
    /\ List.filter is_read log
       = [EFread 3 3; EFread 12 12; EFread 3 3; EFread 12 12; EFread 3 0].
Proof.
  apply (short_binary_file_leaves_nodes_unwritten Scenario.mpi0 Scenario.fs0
           3 2 2 5 "src.bin" "" Scenario.bin2 Scenario.out0 2);
    [lia | lia | reflexivity | by_evaluation | cbn; lia].
Defined.

(** ** Text mode: the samples, and the end of the input *)

Section TextFull.
Context `{Platform}.
Variables (READ_STEP NZ : Z) (flds : list string).

Local Abbreviation Rt := (txt_record READ_STEP).
Local Abbreviation tcoords :=
  (fun i => [txt_coord flds READ_STEP i 0; txt_coord flds READ_STEP i 1;
             NZ + 1 - txt_coord flds READ_STEP i 2]).
Local Abbreviation tsamples :=
  (fun c i => map (txt_sample flds READ_STEP c i) (seq 0 (Z.to_nat READ_STEP))).
Local Abbreviation scans :=
  (fun _ : nat => EFscanf 3 :: replicate (Z.to_nat READ_STEP) (EFscanf 6)).

(** lines 187-190 on six fields that convert: each channel receives the
    field at its place in the line *)
Lemma fscanf_samples (i j : nat) (fl : list string) (t : channel -> list float) :
  (forall p, (p < 6)%nat -> is_some (field_f fl p) = true) ->
  snd (fscanf conv_f (sample_targets READ_STEP i j) fl t) = drop 6 fl
  /\ forall c, fst (fscanf conv_f (sample_targets READ_STEP i j) fl t) c
               = wr (t c) (Z.of_nat i * READ_STEP + Z.of_nat j)
                    (fval fl (Z.to_nat (chan_off c))).
Proof.
  intros Hok.
  pose proof (Hok 0%nat ltac:(lia)) as H0. pose proof (Hok 1%nat ltac:(lia)) as H1.
  pose proof (Hok 2%nat ltac:(lia)) as H2. pose proof (Hok 3%nat ltac:(lia)) as H3.
  pose proof (Hok 4%nat ltac:(lia)) as H4. pose proof (Hok 5%nat ltac:(lia)) as H5.
  destruct fl as [| f0 [| f1 [| f2 [| f3 [| f4 [| f5 fl]]]]]]; try done.
  unfold fval, field_f, field_of in *. cbn in H0, H1, H2, H3, H4, H5.
  unfold sample_targets, channels. cbn [map fscanf].
  destruct (conv_f f0) as [v0 |] eqn:E0; [| done].
  destruct (conv_f f1) as [v1 |] eqn:E1; [| done].
  destruct (conv_f f2) as [v2 |] eqn:E2; [| done].
  destruct (conv_f f3) as [v3 |] eqn:E3; [| done].
  destruct (conv_f f4) as [v4 |] eqn:E4; [| done].
  destruct (conv_f f5) as [v5 |] eqn:E5; [| done].
  split; [done |].
  intros c. destruct c; unfold set_chan, channel_eqb; cbn [fst chan_off Z.eqb Pos.eqb];
    [ change (Z.to_nat 0) with 0%nat | change (Z.to_nat 1) with 1%nat
    | change (Z.to_nat 2) with 2%nat | change (Z.to_nat 3) with 3%nat
    | change (Z.to_nat 4) with 4%nat | change (Z.to_nat 5) with 5%nat ];
    cbn [lookup list_lookup]; by rewrite ?E0, ?E1, ?E2, ?E3, ?E4, ?E5.
Qed.

(** lines 186-192 on lines that all convert: the stream moves on by six
    fields per line and every channel receives its column *)
Lemma scan_samples_full (i n : nat) (t : channel -> list float) (fl0 : list string) :
  (forall p, (p < 6 * n)%nat -> is_some (field_f fl0 p) = true) ->
  let r := fold_left
             (fun st j => fscanf conv_f (sample_targets READ_STEP i j) (snd st) (fst st))
             (seq 0 n) (t, fl0) in
  snd r = drop (6 * n) fl0
  /\ forall c, fst r c
               = fold_left
                   (fun x j => wr x (Z.of_nat i * READ_STEP + Z.of_nat j)
                                  (fval fl0 (j * 6 + Z.to_nat (chan_off c))))
                   (seq 0 n) (t c).
Proof.
  induction n as [| n IH]; intros Hok r; subst r; [done |].
  rewrite seq_S, fold_left_app. cbn [fold_left Nat.add].
  destruct IH as (Hs & Hf); [intros p Hp; apply Hok; lia |].
  set (st := fold_left _ (seq 0 n) (t, fl0)) in *.
  destruct (fscanf_samples i n (snd st) (fst st)) as (Hs' & Hf').
  { intros p Hp. rewrite Hs. unfold field_f. rewrite field_of_drop. apply Hok. lia. }
  split.
  - rewrite Hs', Hs, drop_drop. f_equal. lia.
  - intros c. rewrite fold_left_app. cbn [fold_left]. rewrite Hf', Hf, Hs.
    f_equal. unfold fval, field_f. rewrite field_of_drop. do 2 f_equal. lia.
Qed.

(** At the end of the input no conversion stores anything. *)
Lemma scan_samples_eof (i : nat) (l : list nat) (t : channel -> list float) :
  fold_left (fun st j => fscanf conv_f (sample_targets READ_STEP i j) (snd st) (fst st))
            l (t, []) = (t, []).
Proof. induction l as [| j l IH]; [done |]. cbn [fold_left]. exact IH. Qed.

(** One node of a file that holds its record: coordinates, samples,
    [tmpsrc], stream and log. *)
Lemma text_node_full (i : nat) (st : TxtSt) (dP rP : list Z)
    (dA rA : channel -> list float) :
  record_ok flds READ_STEP i ->
  t_file st = drop (i * Rt) flds ->
  length (t_tmpsrc st) = 3%nat ->
  tpsrc (t_cat st) = dP ++ rP -> length dP = (3 * i)%nat -> (3 <= length rP)%nat ->
  (forall c, ta (t_cat st) c = dA c ++ rA c
             /\ length (dA c) = (Z.to_nat READ_STEP * i)%nat
             /\ (Z.to_nat READ_STEP <= length (rA c))%nat) ->
  let st' := text_node 3 READ_STEP NZ st i in
  t_file st' = drop ((i + 1) * Rt) flds
  /\ t_tmpsrc st' = [txt_coord flds READ_STEP i 0; txt_coord flds READ_STEP i 1;
                     txt_coord flds READ_STEP i 2]
  /\ tpsrc (t_cat st') = dP ++ tcoords i ++ drop 3 rP
  /\ (forall c, ta (t_cat st') c
                = dA c ++ tsamples c i ++ drop (Z.to_nat READ_STEP) (rA c))
  /\ t_log st' = t_log st ++ scans i.
Proof.
  intros [Hd Hf] Hfile Hsrc HP HdP HrP HA st'. subst st'.
  unfold text_node. rewrite Hfile.
  rewrite fscanf_tmpsrc; [| done |].
  2: { intros c Hc. unfold field_d. rewrite field_of_drop. by apply Hd. }
  destruct (scan_samples READ_STEP i _) as [t f2] eqn:Hscan.
  unfold scan_samples in Hscan.
  destruct (scan_samples_full i (Z.to_nat READ_STEP) (ta (t_cat st))
              (drop 3 (drop (i * Rt) flds))) as (Hs & Ht).
  { intros p Hp. unfold field_f. rewrite !field_of_drop.
    replace (i * Rt + (3 + p))%nat with (i * Rt + 3 + p)%nat by lia. by apply Hf. }
  rewrite Hscan in Hs, Ht. cbn [fst snd] in Hs, Ht.
  cbn [t_file t_tmpsrc t_cat tpsrc ta t_log].
  split; [rewrite Hs, !drop_drop; f_equal; unfold txt_record; lia |].
  split; [unfold txt_coord, field_d; by rewrite !field_of_drop |].
  split; [| split; [| done]].
  - rewrite HP, store_node_run by done.
    unfold txt_coord, field_d. rewrite !field_of_drop. done.
  - intros c. destruct (HA c) as (Hc & Hdc & Hrc). rewrite Ht, Hc.
    rewrite (wr_run (fun j => Z.of_nat i * READ_STEP + Z.of_nat j)
                    (fun j => fval (drop 3 (drop (i * Rt) flds))
                                   (j * 6 + Z.to_nat (chan_off c)))
                    _ _ _ _ Hdc Hrc) by (intros; nia).
    do 2 f_equal. apply map_ext. intros j. unfold txt_sample, fval, field_f.
    rewrite !field_of_drop. do 2 f_equal. lia.
Qed.

(** A node at the end of the input: [tmpsrc] keeps the triplet read
    last, and that triplet is stored for the node; no sample is
    stored. *)
Lemma text_node_eof (i : nat) (st : TxtSt) :
  t_file st = [] ->
  text_node 3 READ_STEP NZ st i
  = {| t_file := []; t_tmpsrc := t_tmpsrc st;
       t_cat := {| tpsrc := store_node 3 NZ i (t_tmpsrc st) (tpsrc (t_cat st));
                   ta := ta (t_cat st) |};
       t_log := t_log st ++ scans i |}.
Proof.
  intros Hf. unfold text_node. rewrite Hf. cbn [fscanf tmpsrc_targets].
  unfold scan_samples. by rewrite scan_samples_eof.
Qed.

End TextFull.

Section TextLoop.
Context `{Platform}.
Variables (READ_STEP NZ : Z) (flds : list string).

Local Abbreviation Rt := (txt_record READ_STEP).
Local Abbreviation tcoords :=
  (fun i => [txt_coord flds READ_STEP i 0; txt_coord flds READ_STEP i 1;
             NZ + 1 - txt_coord flds READ_STEP i 2]).
Local Abbreviation tsamples :=
  (fun c i => map (txt_sample flds READ_STEP c i) (seq 0 (Z.to_nat READ_STEP))).
Local Abbreviation scans :=
  (fun _ : nat => EFscanf 3 :: replicate (Z.to_nat READ_STEP) (EFscanf 6)).

(** The loading loop over the first [n] nodes when the file holds at
    least [n] whole records; the catalog may be larger. *)
Lemma load_text_records (st0 : TxtSt) (n : nat) :
  txt_records_ok flds READ_STEP n ->
  t_file st0 = flds ->
  length (t_tmpsrc st0) = 3%nat ->
  (3 * n <= length (tpsrc (t_cat st0)))%nat ->
  (forall c, (Z.to_nat READ_STEP * n <= length (ta (t_cat st0) c))%nat) ->
  let st := fold_left (text_node 3 READ_STEP NZ) (seq 0 n) st0 in
  t_file st = drop (n * Rt) flds
  /\ length (t_tmpsrc st) = 3%nat
  /\ (forall n', n = S n' ->
        t_tmpsrc st = [txt_coord flds READ_STEP n' 0; txt_coord flds READ_STEP n' 1;
                       txt_coord flds READ_STEP n' 2])
  /\ tpsrc (t_cat st) = flat_map tcoords (seq 0 n) ++ drop (3 * n) (tpsrc (t_cat st0))
  /\ (forall c, ta (t_cat st) c
                = flat_map (tsamples c) (seq 0 n)
                    ++ drop (Z.to_nat READ_STEP * n) (ta (t_cat st0) c))
  /\ t_log st = t_log st0 ++ flat_map scans (seq 0 n).
Proof.
  intros Hok Hfile Hsrc.
  induction n as [| n IH]; intros HlenP HlenA st; subst st.
  - cbn [seq fold_left flat_map]. rewrite !Nat.mul_0_r, !drop_0, app_nil_r.
    repeat split; done.
  - rewrite seq_S, fold_left_app. cbn [fold_left Nat.add].
    destruct IH as (Hf & Hs & _ & HP & HA & Hlog);
      [intros i Hi; apply Hok; lia | lia | intros c; specialize (HlenA c); lia |].
    set (st := fold_left (text_node 3 READ_STEP NZ) (seq 0 n) st0) in *.
    destruct (text_node_full READ_STEP NZ flds n st
                (flat_map tcoords (seq 0 n)) (drop (3 * n) (tpsrc (t_cat st0)))
                (fun c => flat_map (tsamples c) (seq 0 n))
                (fun c => drop (Z.to_nat READ_STEP * n) (ta (t_cat st0) c)))
      as (Hf' & Hs' & HP' & HA' & Hlog'); try done.
    + apply Hok. lia.
    + rewrite (length_flat_map_block _ 3) by done. rewrite length_seq. lia.
    + rewrite length_drop. lia.
    + intros c. split; [apply HA |]. split.
      * rewrite (length_flat_map_block _ (Z.to_nat READ_STEP))
          by (intros; by rewrite length_map, length_seq).
        rewrite length_seq. lia.
      * rewrite length_drop. specialize (HlenA c). lia.
    + split; [rewrite Hf'; f_equal; lia |].
      split; [by rewrite Hs' |].
      split; [by intros n' [= <-] |].
      split; [| split].
      * rewrite HP', flat_map_app, drop_drop, <- !app_assoc. cbn [flat_map app].
        by replace (3 * n + 3)%nat with (3 * S n)%nat by lia.
      * intros c. rewrite HA', flat_map_app, drop_drop, <- !app_assoc.
        cbn [flat_map]. rewrite app_nil_r.
        by replace (Z.to_nat READ_STEP * n + Z.to_nat READ_STEP)%nat
          with (Z.to_nat READ_STEP * S n)%nat by lia.
      * rewrite Hlog', Hlog, flat_map_app, <- !app_assoc. cbn [flat_map].
        by rewrite app_nil_r.
Qed.

Lemma load_text_eof_stream (l : list nat) :
  forall st, t_file st = [] ->
    t_file (fold_left (text_node 3 READ_STEP NZ) l st) = []
    /\ t_tmpsrc (fold_left (text_node 3 READ_STEP NZ) l st) = t_tmpsrc st.
Proof.
  induction l as [| j l IH]; intros st Hf; [done |].
  cbn [fold_left]. rewrite (text_node_eof READ_STEP NZ j st Hf).
  match goal with |- context [fold_left _ l ?s] => destruct (IH s eq_refl) as [H1 H2] end.
  by rewrite H1, H2.
Qed.

(** The loading loop at the end of the input: every further node is
    stored with the triplet that [tmpsrc] holds. *)
Lemma load_text_eof (a b c : Z) (m k : nat) :
  forall (st : TxtSt) (dP rP : list Z),
    t_file st = [] -> t_tmpsrc st = [a; b; c] ->
    tpsrc (t_cat st) = dP ++ rP -> length dP = (3 * m)%nat -> (3 * k <= length rP)%nat ->
    let st' := fold_left (text_node 3 READ_STEP NZ) (seq m k) st in
    tpsrc (t_cat st')
    = dP ++ flat_map (fun _ => [a; b; NZ + 1 - c]) (seq m k) ++ drop (3 * k) rP
    /\ ta (t_cat st') = ta (t_cat st)
    /\ t_log st' = t_log st ++ flat_map scans (seq m k).
Proof.
  induction k as [| k IH]; intros st dP rP Hf Htmp HP HdP HrP st'; subst st'.
  - cbn [seq fold_left flat_map]. rewrite Nat.mul_0_r, drop_0, app_nil_r.
    repeat split; done.
  - rewrite seq_S, fold_left_app. cbn [fold_left].
    destruct (load_text_eof_stream (seq m k) st Hf) as (Hf1 & Htmp1).
    destruct (IH st dP rP Hf Htmp HP HdP ltac:(lia)) as (HP1 & HA1 & Hlog1).
    set (st1 := fold_left (text_node 3 READ_STEP NZ) (seq m k) st) in *.
    rewrite (text_node_eof READ_STEP NZ (m + k) st1 Hf1).
    cbn [t_cat tpsrc ta t_log]. rewrite Htmp1, Htmp.
    split; [| split; [done |]].
    + rewrite HP1, app_assoc.
      rewrite (store_node_run NZ (m + k) [a; b; c]).
      * rewrite flat_map_app, drop_drop, <- !app_assoc. cbn [flat_map app].
        change (rd indet_int [a; b; c] 0) with a.
        change (rd indet_int [a; b; c] 1) with b.
        change (rd indet_int [a; b; c] 2) with c.
        by replace (3 * k + 3)%nat with (3 * S k)%nat by lia.
      * rewrite length_app, (length_flat_map_block _ 3) by done.
        rewrite length_seq. lia.
      * rewrite length_drop. lia.
    + rewrite Hlog1, flat_map_app, <- !app_assoc. cbn [flat_map].
      by rewrite app_nil_r.
Qed.

(** The catalog and the log after a file of exactly [m] whole records,
    [m] at least 1, was loaded into a catalog of [NSRC] nodes. *)
Lemma read_text_short (NSRC : Z) (INSRC content : string) (m : nat) :
  1 <= NSRC -> flds = fields_of content ->
  txt_records_ok flds READ_STEP (S m) ->
  length flds = (S m * Rt)%nat -> (S m <= Z.to_nat NSRC)%nat ->
  let st := read_text NSRC 3 READ_STEP NZ INSRC content in
  tpsrc (t_cat st)
  = flat_map tcoords (seq 0 (S m))
      ++ flat_map (fun _ => tcoords m) (seq (S m) (Z.to_nat NSRC - S m))
  /\ (forall c, ta (t_cat st) c
                = flat_map (tsamples c) (seq 0 (S m))
                    ++ replicate (Z.to_nat READ_STEP * (Z.to_nat NSRC - S m)) indet_float)
  /\ t_log st
     = catalog_allocs NSRC 3 READ_STEP ++ [EFopen INSRC "r"]
         ++ flat_map scans (seq 0 (Z.to_nat NSRC)).
Proof.
  intros Hn Hcontent Hok Hlen Hm st. subst st. unfold read_text, load_text.
  match goal with |- context [fold_left _ _ ?s] => set (st0 := s) end.
  replace (seq 0 (Z.to_nat NSRC)) with (seq 0 (S m) ++ seq (S m) (Z.to_nat NSRC - S m))
    by (rewrite <- seq_app; f_equal; lia).
  rewrite fold_left_app.
  assert (HlenP : length (tpsrc (t_cat st0)) = (3 * Z.to_nat NSRC)%nat).
  { subst st0. cbn [t_cat tpsrc fresh_catalog]. rewrite length_Alloc1P. lia. }
  assert (HlenA : forall c, length (ta (t_cat st0) c)
                            = (Z.to_nat READ_STEP * Z.to_nat NSRC)%nat).
  { intros c. subst st0. cbn [t_cat ta fresh_catalog].
    rewrite length_Alloc1D. apply to_nat_mul. lia. }
  destruct (load_text_records st0 (S m)) as (Hf & _ & Htmp & HP & HA & Hlog); try done.
  - lia.
  - intros c. rewrite HlenA. nia.
  - set (st1 := fold_left (text_node 3 READ_STEP NZ) (seq 0 (S m)) st0) in *.
    assert (Heof : t_file st1 = []).
    { rewrite Hf. apply drop_ge. lia. }
    destruct (load_text_eof _ _ _ (S m) (Z.to_nat NSRC - S m) st1
                (flat_map tcoords (seq 0 (S m))) (drop (3 * S m) (tpsrc (t_cat st0)))
                Heof (Htmp m eq_refl) HP) as (HP' & HA' & Hlog').
    + rewrite (length_flat_map_block _ 3) by done. rewrite length_seq. lia.
    + rewrite length_drop. lia.
    + rewrite HP', HA', Hlog', Hlog. split; [| split].
      * rewrite drop_drop, drop_ge, app_nil_r by lia. done.
      * intros c. rewrite HA. f_equal. subst st0. cbn [t_cat ta fresh_catalog].
        unfold Alloc1D. rewrite drop_replicate. f_equal.
        rewrite to_nat_mul by lia. nia.
      * subst st0. cbn [t_log]. rewrite flat_map_app. by rewrite <- !app_assoc.
Qed.

End TextLoop.

Lemma filter_replicate_true (P : event -> bool) (n : nat) (e : event) :
  P e = true -> List.filter P (replicate n e) = replicate n e.
Proof. intros He. induction n as [| n IH]; [done |]. cbn. by rewrite He, IH. Qed.

Lemma filter_scans (n : nat) :
  List.filter is_read (EFscanf 3 :: replicate n (EFscanf 6))
  = EFscanf 3 :: replicate n (EFscanf 6).
Proof. cbn. by rewrite filter_replicate_true. Qed.

(** X14.  In text mode, on a file whose [NSRC] records all convert, the
    loader issues for every node one [fscanf] of three conversions and
    [READ_STEP] of six, and the sample stored for node [i], line [j]
    and channel [c] is the conversion of the field at place [c] of that
    line, in the order xx, yy, zz, xz, yz, xy. *)
Theorem text_load_keeps_fields_by_column `{Platform}
    (mpi : Mpi) (fs : string -> option string)
    (NSRC READ_STEP NST NZ : Z) (INSRC INSRC_I2 content : string) (out : Sources) :
  1 <= NSRC -> fs INSRC = Some content ->
  txt_complete (fields_of content) NSRC READ_STEP = true ->
  let flds := fields_of content in
  let cat := loaded_catalog 0 NSRC READ_STEP NST 3 NZ INSRC content in
  (exists out' log,
      inisource mpi fs 0 NSRC READ_STEP NST 3 NZ INSRC INSRC_I2 out = Returned 0 out' log
      /\ List.filter is_read log
         = flat_map (fun _ => EFscanf 3 :: replicate (Z.to_nat READ_STEP) (EFscanf 6))
                    (seq 0 (Z.to_nat NSRC)))
  /\ forall c i j, (i < Z.to_nat NSRC)%nat -> (j < Z.to_nat READ_STEP)%nat ->
       field_f flds (i * (3 + 6 * Z.to_nat READ_STEP) + 3 + (j * 6 + Z.to_nat (chan_off c)))
       = Some (rd indet_float (ta cat c) (Z.of_nat i * READ_STEP + Z.of_nat j)).
Proof.
  intros Hn Hfs Hok flds cat.
  assert (Hrec : txt_records_ok flds READ_STEP (Z.to_nat NSRC)).
  { intros i Hi. by apply (txt_complete_record READ_STEP flds NSRC). }
  set (st0 := {| t_file := fields_of content; t_tmpsrc := fresh_tmpsrc;
                 t_cat := fresh_catalog NSRC 3 READ_STEP;
                 t_log := catalog_allocs NSRC 3 READ_STEP ++ [EFopen INSRC "r"] |}).
  destruct (load_text_records READ_STEP NZ flds st0 (Z.to_nat NSRC))
    as (_ & _ & _ & _ & HA & Hlog); try done.
  { subst st0. cbn [t_cat tpsrc fresh_catalog]. rewrite length_Alloc1P. lia. }
  { intros c. subst st0. cbn [t_cat ta fresh_catalog].
    rewrite length_Alloc1D, to_nat_mul; lia. }
  change (fold_left (text_node 3 READ_STEP NZ) (seq 0 (Z.to_nat NSRC)) st0)
    with (read_text NSRC 3 READ_STEP NZ INSRC content) in HA, Hlog.
  split.
  - eexists _, _. split; [by eapply inisource_loaded; [| left |] |].
    rewrite List.filter_app, resolve_reads_nothing, app_nil_r.
    unfold loaded_log. cbn [Z.eqb]. rewrite Hlog. subst st0. cbn [t_log].
    rewrite !List.filter_app, (filter_flat_map_const _ _ _ (filter_scans _)).
    unfold catalog_allocs. cbn [List.filter replicate is_read app]. apply app_nil_r.
  - intros c i j Hi Hj.
    change (ta cat c) with (ta (t_cat (read_text NSRC 3 READ_STEP NZ INSRC content)) c).
    rewrite HA, drop_ge, app_nil_r.
    2: { subst st0. cbn [t_cat ta fresh_catalog]. rewrite length_Alloc1D, to_nat_mul; lia. }
    rewrite (rd_flat_map_block _ _ READ_STEP _ i j i)
      by (lia || (intros; by rewrite length_map, length_seq) || by apply lookup_seq_lt).
    change (map ?f ?x) with (f <$> x).
    rewrite list_lookup_fmap, lookup_seq_lt by lia.
    cbn [fmap option_fmap option_map default Nat.add]. unfold txt_sample, fval, txt_record.
    destruct (Hrec i Hi) as [_ Hf].
    pose proof (chan_off_range c) as Hoff.
    specialize (Hf (j * 6 + Z.to_nat (chan_off c))%nat ltac:(lia)).
    unfold txt_record in Hf.
    by destruct (field_f flds _).
Qed.

Lemma text_load_keeps_fields_by_column_witness :
  exists out' log,
    inisource Scenario.mpi0 Scenario.fs0 0 1 2 2 3 5 "src.txt" "" Scenario.out0
    = Returned 0 out' log
    /\ List.filter is_read log = [EFscanf 3; EFscanf 6; EFscanf 6].
Proof.
  apply (text_load_keeps_fields_by_column Scenario.mpi0 Scenario.fs0
           1 2 2 5 "src.txt" "" Scenario.txt1 Scenario.out0);
    [lia | reflexivity | by_evaluation].
Defined.

(** X15.  In text mode, when the file holds exactly [m+1] whole
    records and nothing after them, and [NSRC] is larger, [inisource]
    still returns 0 and still issues the conversions of every node; a
    node after the last record finds the input at its end, so
    [tmpsrc] keeps the triplet of record [m] and the node is stored
    with the coordinates of node [m], the z flipped as for node [m];
    its sample cells keep what the allocator left in them. *)
Theorem exhausted_text_file_repeats_last_node `{Platform}
    (mpi : Mpi) (fs : string -> option string)
    (NSRC READ_STEP NST NZ : Z) (INSRC INSRC_I2 content : string) (out : Sources)
    (m : nat) :
  1 <= NSRC -> fs INSRC = Some content ->
  txt_complete (fields_of content) (Z.of_nat (S m)) READ_STEP = true ->
  length (fields_of content) = (S m * txt_record READ_STEP)%nat ->
  (S m <= Z.to_nat NSRC)%nat ->
  let cat := loaded_catalog 0 NSRC READ_STEP NST 3 NZ INSRC content in
  let tp := tpsrc cat in
  (exists out' log,
      inisource mpi fs 0 NSRC READ_STEP NST 3 NZ INSRC INSRC_I2 out = Returned 0 out' log
      /\ List.filter is_read log
         = flat_map (fun _ => EFscanf 3 :: replicate (Z.to_nat READ_STEP) (EFscanf 6))
                    (seq 0 (Z.to_nat NSRC)))
  /\ forall i, (S m <= i < Z.to_nat NSRC)%nat ->
       gx tp i = gx tp m /\ gy tp i = gy tp m /\ gz tp i = gz tp m
       /\ forall c j, (j < Z.to_nat READ_STEP)%nat ->
            rd indet_float (ta cat c) (Z.of_nat i * READ_STEP + Z.of_nat j) = indet_float.
Proof.
  intros Hn Hfs Hok Hlen Hm cat tp.
  assert (Hrec : txt_records_ok (fields_of content) READ_STEP (S m)).
  { intros i Hi. apply (txt_complete_record READ_STEP _ (Z.of_nat (S m))); [done | lia]. }
  destruct (read_text_short READ_STEP NZ (fields_of content) NSRC INSRC content m
              Hn eq_refl Hrec Hlen Hm) as (HP & HA & Hlog).
  set (f := fun i => [txt_coord (fields_of content) READ_STEP i 0;
                      txt_coord (fields_of content) READ_STEP i 1;
                      NZ + 1 - txt_coord (fields_of content) READ_STEP i 2]) in *.
  change (tp = flat_map f (seq 0 (S m))
               ++ flat_map (fun _ => f m) (seq (S m) (Z.to_nat NSRC - S m))) in HP.
  assert (Hhead : forall c, (c < 3)%nat -> tp !! (m * 3 + c)%nat = f m !! c).
  { intros c Hc. rewrite HP, lookup_app_l.
    - apply (flat_map_block f 3); [done | apply lookup_seq_lt; lia | done].
    - rewrite (length_flat_map_block f 3) by done. rewrite length_seq. lia. }
  assert (Htail : forall i c, (S m <= i < Z.to_nat NSRC)%nat -> (c < 3)%nat ->
                    tp !! (i * 3 + c)%nat = f m !! c).
  { intros i c Hi Hc. rewrite HP, lookup_app_r;
      rewrite (length_flat_map_block f 3) by done; rewrite length_seq; [| lia].
    replace (i * 3 + c - S m * 3)%nat with ((i - S m) * 3 + c)%nat by lia.
    apply (flat_map_block (fun _ => f m) 3 _ _ _ i); [done | | done].
    rewrite lookup_seq_lt by lia. f_equal. lia. }
  split.
  - eexists _, _. split; [by eapply inisource_loaded; [| left |] |].
    rewrite List.filter_app, resolve_reads_nothing, app_nil_r.
    unfold loaded_log. cbn [Z.eqb]. rewrite Hlog.
    rewrite !List.filter_app, (filter_flat_map_const _ _ _ (filter_scans _)).
    unfold catalog_allocs. cbn [List.filter replicate is_read app]. apply app_nil_r.
  - intros i Hi. unfold gx, gy, gz.
    replace (Z.of_nat i * 3) with (Z.of_nat (i * 3 + 0)) by lia.
    replace (Z.of_nat (i * 3 + 0) + 1) with (Z.of_nat (i * 3 + 1)) by lia.
    replace (Z.of_nat (i * 3 + 0) + 2) with (Z.of_nat (i * 3 + 2)) by lia.
    replace (Z.of_nat m * 3) with (Z.of_nat (m * 3 + 0)) by lia.
    replace (Z.of_nat (m * 3 + 0) + 1) with (Z.of_nat (m * 3 + 1)) by lia.
    replace (Z.of_nat (m * 3 + 0) + 2) with (Z.of_nat (m * 3 + 2)) by lia.
    rewrite !rd_nat.
    rewrite (Htail i 0%nat), (Htail i 1%nat), (Htail i 2%nat) by lia.
    rewrite (Hhead 0%nat), (Hhead 1%nat), (Hhead 2%nat) by lia.
    repeat split. intros c j Hj.
    change (ta cat c) with (ta (t_cat (read_text NSRC 3 READ_STEP NZ INSRC content)) c).
    rewrite HA.
    replace (Z.of_nat i * READ_STEP + Z.of_nat j)
      with (Z.of_nat (i * Z.to_nat READ_STEP + j)) by lia.
    apply rd_app_replicate.
    rewrite (length_flat_map_block _ (Z.to_nat READ_STEP))
      by (intros; by rewrite length_map, length_seq).
    rewrite length_seq. nia.
Qed.

Lemma exhausted_text_file_repeats_last_node_witness :
  exists out' log,
    inisource Scenario.mpi0 Scenario.fs0 0 3 2 2 3 5 "src.txt" "" Scenario.out0
    = Returned 0 out' log
    /\ List.filter is_read log
       = [EFscanf 3; EFscanf 6; EFscanf 6; EFscanf 3; EFscanf 6; EFscanf 6;
          EFscanf 3; EFscanf 6; EFscanf 6].
Proof.
  apply (exhausted_text_file_repeats_last_node Scenario.mpi0 Scenario.fs0
           3 2 2 5 "src.txt" "" Scenario.txt1 Scenario.out0 0);
    [lia | reflexivity | by_evaluation | by_evaluation | cbn; lia].
Defined.

(** The one-node text file loaded for three nodes: all three are stored
    at the coordinates of the first and all three are owned. *)
Example one_record_for_three_nodes :
  returned (inisource Scenario.mpi0 Scenario.fs0 0 3 2 2 3 5 "src.txt" "" Scenario.out0)
  = Some (0, 3)
  /\ m_ptpSrc (Scenario.out_of
                 (inisource Scenario.mpi0 Scenario.fs0 0 3 2 2 3 5 "src.txt" ""
                    Scenario.out0))
     = Some [2; 3; 5; 2; 3; 5; 2; 3; 5].
Proof. split; by_evaluation. Qed.

(** ** Counting over the processes *)

Section Counting.
Context `{Platform}.
Variables (fs : string -> option string).
Variables (IFAULT NSRC READ_STEP NST NZ : Z) (INSRC INSRC_I2 content : string).
Hypothesis Hnodes : 1 <= NSRC.
Hypothesis Hmode : IFAULT = 0 \/ IFAULT = 1.
Hypothesis Hfile : fs INSRC = Some content.

Local Abbreviation tp := (tpsrc (loaded_catalog IFAULT NSRC READ_STEP NST 3 NZ INSRC content)).

Lemma npsrc_of_processes (procs : list Mpi) (outs : list Sources) :
  Forall2 (fun mpi o => exists out0 log,
             inisource mpi fs IFAULT NSRC READ_STEP NST 3 NZ INSRC INSRC_I2 out0
             = Returned 0 o log) procs outs ->
  foldr (fun o acc => m_nPsrc o + acc) 0 outs
  = Z.of_nat (length (concat (map (fun mpi => owned_nodes (bounds_of mpi) NSRC tp) procs))).
Proof.
  induction 1 as [| mpi o procs outs (out0 & log & Hrun) _ IH]; [done |].
  cbn [foldr map concat]. rewrite length_app, IH.
  destruct (inisource_tables mpi fs IFAULT NSRC READ_STEP NST NZ INSRC INSRC_I2 content out0
              Hnodes Hmode Hfile) as (out' & log' & Hrun' & Hcount & _).
  rewrite Hrun in Hrun'. injection Hrun' as <- _. rewrite Hcount. lia.
Qed.

End Counting.

(** X16.  For processes of which no two boxes share a point, all set
    up from the same file, the values of [NPSRC] add up to the number
    of catalog nodes that lie in the box of some process, which is at
    most [NSRC]: no node is counted by two processes, and a node
    outside every box is counted by none. *)
Theorem owned_counts_add_up `{Platform}
    (fs : string -> option string)
    (IFAULT NSRC READ_STEP NST NZ : Z) (INSRC INSRC_I2 content : string)
    (procs : list Mpi) (outs : list Sources) :
  1 <= NSRC -> IFAULT = 0 \/ IFAULT = 1 -> fs INSRC = Some content ->
  disjoint_boxes procs ->
  Forall2 (fun mpi o => exists out0 log,
             inisource mpi fs IFAULT NSRC READ_STEP NST 3 NZ INSRC INSRC_I2 out0
             = Returned 0 o log) procs outs ->
  let tp := tpsrc (loaded_catalog IFAULT NSRC READ_STEP NST 3 NZ INSRC content) in
  let covered := filter (fun i => in_some_box procs (gx tp i) (gy tp i) (gz tp i))
                        (seq 0 (Z.to_nat NSRC)) in
  foldr (fun o acc => m_nPsrc o + acc) 0 outs = Z.of_nat (length covered)
  /\ Z.of_nat (length covered) <= NSRC.
Proof.
  intros Hn Hm Hfs Hdis Hruns tp covered.
  rewrite (npsrc_of_processes fs IFAULT NSRC READ_STEP NST NZ INSRC INSRC_I2 content
             Hn Hm Hfs procs outs Hruns).
  fold tp. split.
  - f_equal. subst covered. unfold owned_nodes.
    rewrite (Permutation_length
               (partition_by_filters
                  (fun mpi i => in_box (bounds_of mpi) (gx tp i) (gy tp i) (gz tp i))
                  (seq 0 (Z.to_nat NSRC)) procs
                  (fun i => disjoint_boxes_at procs _ _ _ Hdis))).
    done.
  - subst covered.
    pose proof (length_filter
                  (fun i => in_some_box procs (gx tp i) (gy tp i) (gz tp i))
                  (seq 0 (Z.to_nat NSRC))) as Hlen.
    rewrite length_seq in Hlen. lia.
Qed.

Lemma owned_counts_add_up_witness :
  foldr (fun o acc => m_nPsrc o + acc) 0 [Scenario.out3_0; Scenario.out3_1] <= 3.
Proof.
  destruct (owned_counts_add_up Scenario.fs0 0 3 1 1 5 "src3.txt" "" Scenario.txt3
              [Scenario.mpi0; Scenario.mpi1] [Scenario.out3_0; Scenario.out3_1])
    as (Hsum & Hle).
  - lia.
  - by left.
  - reflexivity.
  - repeat constructor. intros x y z. unfold in_box, bounds_of. cbn. lia.
  - constructor; [| constructor; [| constructor]].
    + exists Scenario.out0, Scenario.log3_0. by_evaluation.
    + exists Scenario.out0, Scenario.log3_1. by_evaluation.
  - rewrite Hsum. exact Hle.
Defined.

(** X17.  For a process that holds the full depth ([m_startZ] = 1 and
    [m_rangeZ] = [NZ]), on a file that holds its records, a node is
    owned exactly when its raw x and y lie in the box and its raw z
    lies between 1 and [NZ]: the flip at load maps the depth range
    onto itself. *)
Theorem full_depth_ownership_by_raw_coordinates `{Platform}
    (mpi : Mpi) (IFAULT NSRC READ_STEP NST NZ : Z) (INSRC content : string) (i : nat) :
  1 <= NSRC -> IFAULT = 0 \/ IFAULT = 1 ->
  complete IFAULT NSRC READ_STEP NST content = true ->
  m_startZ mpi = 1 -> m_rangeZ mpi = NZ -> (i < Z.to_nat NSRC)%nat ->
  let b := bounds_of mpi in
  let tp := tpsrc (loaded_catalog IFAULT NSRC READ_STEP NST 3 NZ INSRC content) in
  let raw := raw_coord IFAULT READ_STEP NST content in
  owned b 3 tp i = true
  <-> (nbx b <= raw i 0%nat /\ raw i 0%nat <= nex b)
      /\ (nby b <= raw i 1%nat /\ raw i 1%nat <= ney b)
      /\ (1 <= raw i 2%nat /\ raw i 2%nat <= NZ).
Proof.
  intros Hn Hm Hok Hz Hr Hi b tp raw.
  destruct (loaded_node IFAULT NSRC READ_STEP NST NZ INSRC content Hn Hm Hok i Hi)
    as (Hx & Hy & Hgz).
  rewrite owned_in_box. unfold in_box. fold tp in Hx, Hy, Hgz. fold raw in Hx, Hy, Hgz.
  rewrite Hx, Hy, Hgz. subst b. unfold bounds_of. cbn [nbx nex nby ney nbz nez].
  rewrite Hz, Hr. lia.
Qed.

Lemma full_depth_ownership_by_raw_coordinates_witness :
  owned (H := Binary32.platform) (bounds_of Scenario.mpi0) 3
        (tpsrc (loaded_catalog (H := Binary32.platform) 1 2 2 2 3 5 "src.bin" Scenario.bin2))
        0 = true
  <-> (nbx (bounds_of Scenario.mpi0) <= raw_coord (H := Binary32.platform) 1 2 2 Scenario.bin2 0 0
       /\ raw_coord (H := Binary32.platform) 1 2 2 Scenario.bin2 0 0
          <= nex (bounds_of Scenario.mpi0))
      /\ (nby (bounds_of Scenario.mpi0) <= raw_coord (H := Binary32.platform) 1 2 2 Scenario.bin2 0 1
          /\ raw_coord (H := Binary32.platform) 1 2 2 Scenario.bin2 0 1
             <= ney (bounds_of Scenario.mpi0))
      /\ (1 <= raw_coord (H := Binary32.platform) 1 2 2 Scenario.bin2 0 2
          /\ raw_coord (H := Binary32.platform) 1 2 2 Scenario.bin2 0 2 <= 5).
Proof.
  apply (full_depth_ownership_by_raw_coordinates Scenario.mpi0 1 2 2 2 5 "src.bin"
           Scenario.bin2 0);
    [lia | by right | by_evaluation | reflexivity | reflexivity | cbn; lia].
Defined.
